(** * Women Safety Analytics backend: geospatial proximity engine

    A shallow embedding of the distance kernel ([utils/haversine.js]), the
    in-memory user directory ([data/users.js]), the crime dataset loader
    ([utils/csvParser.js]) and the two route handlers ([routes/sos.js],
    [routes/crime-zones.js]), with the statistics of the dataset and the
    logger ([utils/logger.js]), followed by the properties of the
    specification that concern them and by further properties of the code.

    JavaScript numbers are IEEE-754 binary64 values: they are modelled by
    Rocq's primitive [float], whose operations are specified by
    [FloatAxioms] against [SpecFloat]. *)

From Stdlib Require Import ZArith List String Ascii Bool Lia.
From Stdlib Require Import Floats.
From Stdlib Require Import Sorting.Sorted Sorting.Permutation.
From Stdlib Require Import DecimalString DecimalNat.
Import ListNotations.

Set Warnings "-inexact-float".

Local Open Scope string_scope.
Local Open Scope list_scope.
Local Open Scope float_scope.

(* ================================================================== *)
(** * The JavaScript values and built-ins the program uses *)
(* ================================================================== *)

Module JS.

(** Primitive JavaScript values: what a JSON body, a query string or a CSV
    cell can hold. *)
Inductive Value : Type :=
| Undefined
| Null
| Bool (b : bool)
| Number (n : float)
| Str (s : string).

(** [!v] is [negb (ToBoolean v)]: [undefined], [null], [false], [0], [-0],
    [NaN] and the empty string are falsy. *)
Definition ToBoolean (v : Value) : bool :=
  match v with
  | Undefined | Null => false
  | Bool b => b
  | Number n => negb (is_zero n || is_nan n)
  | Str s => negb (s =? EmptyString)%string
  end.

(** [a === b]. *)
Definition StrictEquals (a b : Value) : bool :=
  match a, b with
  | Undefined, Undefined => true
  | Null, Null => true
  | Bool x, Bool y => Bool.eqb x y
  | Number x, Number y => (x =? y)%float
  | Str x, Str y => (x =? y)%string
  | _, _ => false
  end.

(** The key comparison of [Map]: like [===] but [NaN] equals [NaN]. *)
Definition SameValueZero (a b : Value) : bool :=
  match a, b with
  | Number x, Number y => (x =? y)%float || (is_nan x && is_nan y)
  | _, _ => StrictEquals a b
  end.

(** ** Strings *)

(** White space and line terminators among the code units below 256. *)
Definition isWhiteSpace (c : ascii) : bool :=
  let n := nat_of_ascii c in
  ((9 <=? n) && (n <=? 13) || (n =? 32) || (n =? 160))%nat.

Fixpoint trimStart (s : string) : string :=
  match s with
  | String c r => if isWhiteSpace c then trimStart r else s
  | EmptyString => EmptyString
  end.

Fixpoint trimEnd (s : string) : string :=
  match s with
  | String c r =>
      match trimEnd r with
      | EmptyString => if isWhiteSpace c then EmptyString else String c EmptyString
      | r' => String c r'
      end
  | EmptyString => EmptyString
  end.

(** [s.trim()]. *)
Definition trim (s : string) : string := trimEnd (trimStart s).

Definition lowerChar (c : ascii) : ascii :=
  let n := nat_of_ascii c in
  if ((65 <=? n) && (n <=? 90))%nat then ascii_of_nat (n + 32) else c.

(** [s.toLowerCase()] on the letters A-Z. *)
Fixpoint toLowerCase (s : string) : string :=
  match s with
  | String c r => String (lowerChar c) (toLowerCase r)
  | EmptyString => EmptyString
  end.

(** [s.includes(sub)]. *)
Fixpoint includes (s sub : string) : bool :=
  prefix sub s ||
  match s with
  | String _ r => includes r sub
  | EmptyString => false
  end.

(** The decimal rendering of a count, as a template literal prints it. *)
Definition decimal (n : nat) : string := NilEmpty.string_of_uint (Nat.to_uint n).

(** ** Numbers *)

Definition Math_PI : float := 3.141592653589793.

(** [Math.round(x)] is [floor(x + 1/2)] computed exactly; the sign of a zero
    result follows the sign of [x]. *)
Definition Math_round (x : float) : float :=
  match Prim2SF x with
  | S754_finite s m e =>
      if (0 <=? e)%Z then x
      else
        let n := ((2 * cond_Zopp s (Zpos m) + 2 ^ (- e)) / 2 ^ (1 - e))%Z in
        if (n =? 0)%Z then (if s then neg_zero else zero)
        else SF2Prim (binary_normalize prec emax n 0 false)
  | _ => x
  end.

(** [Math.sqrt(x)]: the correctly rounded square root. *)
Definition Math_sqrt (x : float) : float := sqrt x.

(** The binary64 value nearest to [(-1)^s * m * 10^k], ties to even. *)
Definition decimalToFloat (s : bool) (m k : Z) : float :=
  match m with
  | Zpos _ =>
      if (0 <=? k)%Z then
        SF2Prim (binary_normalize prec emax (cond_Zopp s (m * 10 ^ k)) 0 false)
      else
        let '(q, e, l) := SFdiv_core_binary prec emax m 0 (10 ^ (- k)) 0 in
        SF2Prim (binary_round_aux prec emax s q e l)
  | _ => if s then neg_zero else zero
  end.

Definition isDigit (c : ascii) : bool :=
  let n := nat_of_ascii c in ((48 <=? n) && (n <=? 57))%nat.

(** The longest run of decimal digits at the head of [s], and the rest. *)
Fixpoint spanDigits (s : string) : string * string :=
  match s with
  | String c r =>
      if isDigit c then let '(d, r') := spanDigits r in (String c d, r')
      else (EmptyString, s)
  | EmptyString => (EmptyString, EmptyString)
  end.

Fixpoint digitsValue (acc : Z) (s : string) : Z :=
  match s with
  | String c r => digitsValue (10 * acc + (Z.of_nat (nat_of_ascii c) - 48)) r
  | EmptyString => acc
  end.

Definition spanSign (s : string) : bool * string :=
  match s with
  | String "+" r => (false, r)
  | String "-" r => (true, r)
  | _ => (false, s)
  end.

(** The value of an [ExponentPart] at the head of [s], or 0 when there is
    none. *)
Definition exponentPart (s : string) : Z :=
  match s with
  | String c r =>
      if (Ascii.eqb c "e" || Ascii.eqb c "E")%char then
        let '(sg, r1) := spanSign r in
        let '(d, _) := spanDigits r1 in
        match d with
        | EmptyString => 0%Z
        | _ => cond_Zopp sg (digitsValue 0 d)
        end
      else 0%Z
  | EmptyString => 0%Z
  end.

(** [parseFloat] on a string: leading white space is skipped and the longest
    prefix that is a [StrDecimalLiteral] is converted; [NaN] when there is
    no such prefix. *)
Definition parseFloatString (s : string) : float :=
  let '(sg, s1) := spanSign (trimStart s) in
  if prefix "Infinity" s1 then (if sg then neg_infinity else infinity)
  else
    let '(ip, s2) := spanDigits s1 in
    let '(fp, s3) :=
      match s2 with
      | String "." r => spanDigits r
      | _ => (EmptyString, s2)
      end in
    match ip, fp with
    | EmptyString, EmptyString => nan
    | _, _ =>
        decimalToFloat sg (digitsValue 0 (ip ++ fp))
          (exponentPart s3 - Z.of_nat (String.length fp))
    end.

(** [parseFloat(v)]: the argument is first converted to a string.  A number
    prints to a string that reads back as the same number, except that [-0]
    prints as ["0"]; [undefined], [null], [true] and [false] print to words
    that have no numeric prefix. *)
Definition parseFloat (v : Value) : float :=
  match v with
  | Number n => if is_zero n then zero else n
  | Str s => parseFloatString s
  | _ => nan
  end.

(** [isNaN(x)] on a number. *)
Definition isNaN (x : float) : bool := is_nan x.

(** ** Built-ins whose results ECMA-262 leaves to the implementation

    [Math.sin], [Math.cos] and [Math.atan2] return "implementation-
    approximated" values, and [new Date(v)] falls back to
    implementation-defined parsing: they are parameters of the model. *)
Class Host : Type := {
  Math_sin : float -> float;
  Math_cos : float -> float;
  Math_atan2 : float -> float -> float;
  (** the time value, in milliseconds, of [new Date(v)]; [NaN] for an
      invalid date *)
  Date_time : Value -> float
}.

(** What the proofs below assume of a host: special cases that ECMA-262
    fixes for [Math.sin] and [Math.atan2] (the sine of [NaN] or of an
    infinity is [NaN], the sine of [+0] is [+0], [atan2] of a [NaN] is [NaN]
    and [atan2(+0, x)] is [+0] for [x > 0]), that the sine is an odd
    function and that the cosine of a finite number lies in [-1, 1]. *)
Class HostSpec (H : Host) : Prop := {
  sin_nan : Math_sin nan = nan;
  sin_infinity : Math_sin infinity = nan;
  sin_neg_infinity : Math_sin neg_infinity = nan;
  sin_zero : Math_sin zero = zero;
  sin_odd : forall x, Math_sin (- x) = - Math_sin x;
  cos_range : forall x, is_finite x = true ->
      (-1 <=? Math_cos x)%float = true /\ (Math_cos x <=? 1)%float = true;
  atan2_nan_l : forall x, Math_atan2 nan x = nan;
  atan2_zero_pos : forall x, (0 <? x)%float = true -> Math_atan2 zero x = zero
}.

End JS.

Import JS.

(* ================================================================== *)
(** * config/settings.js *)
(* ================================================================== *)

Module Settings.

(** SOS alert settings: the radius of the nearby-user query, in metres,
    when the environment sets none. *)
Definition NEARBY_RADIUS : float := 500.

(** User management: the maximum age of a directory entry, in
    milliseconds. *)
Definition USER_MAX_AGE : float := 24 * 60 * 60 * 1000.

(** Geographic bounds. *)
Definition MIN_LATITUDE : float := -90.
Definition MAX_LATITUDE : float := 90.
Definition MIN_LONGITUDE : float := -180.
Definition MAX_LONGITUDE : float := 180.

(** A coordinate within the geographic bounds. *)
Definition withinGeoBounds (lat lng : float) : bool :=
  (MIN_LATITUDE <=? lat) && (lat <=? MAX_LATITUDE) &&
  (MIN_LONGITUDE <=? lng) && (lng <=? MAX_LONGITUDE).

End Settings.

(* ================================================================== *)
(** * utils/haversine.js *)
(* ================================================================== *)

Module Haversine.
Section WithHost.
Context {H : Host}.

(** Convert degrees to radians. *)
Definition toRadians (degrees : float) : float :=
  degrees * (Math_PI / 180).

(** Great-circle distance between two points, in metres, rounded to the
    nearest metre. *)
Definition calculateDistance (lat1 lng1 lat2 lng2 : float) : float :=
  let EARTH_RADIUS := 6371000 in
  let lat1Rad := toRadians lat1 in
  let lng1Rad := toRadians lng1 in
  let lat2Rad := toRadians lat2 in
  let lng2Rad := toRadians lng2 in
  let deltaLat := lat2Rad - lat1Rad in
  let deltaLng := lng2Rad - lng1Rad in
  let a := Math_sin (deltaLat / 2) * Math_sin (deltaLat / 2) +
           Math_cos lat1Rad * Math_cos lat2Rad *
           Math_sin (deltaLng / 2) * Math_sin (deltaLng / 2) in
  let c := 2 * Math_atan2 (Math_sqrt a) (Math_sqrt (1 - a)) in
  let distance := EARTH_RADIUS * c in
  Math_round distance.

(** Whether a point lies within [radius] metres of a centre (inclusive). *)
Definition isWithinRadius (centerLat centerLng pointLat pointLng radius : float)
  : bool :=
  let distance := calculateDistance centerLat centerLng pointLat pointLng in
  distance <=? radius.

End WithHost.
End Haversine.

(* ================================================================== *)
(** * data/users.js *)
(* ================================================================== *)

Module Users.
Import Haversine.

(** A stored user: [{ username, latitude, longitude, lastSeen }]. *)
Record User : Type := {
  username : Value;
  latitude : float;
  longitude : float;
  lastSeen : Value
}.

(** The argument of [addUser], before any check: an absent property reads
    as [Undefined]. *)
Record UserData : Type := {
  ud_username : Value;
  ud_latitude : Value;
  ud_longitude : Value;
  ud_lastSeen : Value
}.

(** An element of the result of [findNearbyUsers]: [{ ...user, distance }]. *)
Record NearbyUser : Type := {
  user : User;
  distance : float
}.

(** The [Map] held in [users]: its entries in insertion order. *)
Definition UserMap : Type := list (Value * User).

(** [m.set(k, v)]: the value of an existing key is replaced where it
    stands, a new key is appended. *)
Fixpoint Map_set (m : UserMap) (k : Value) (v : User) : UserMap :=
  match m with
  | [] => [(k, v)]
  | (k', v') :: t =>
      if SameValueZero k' k then (k', v) :: t else (k', v') :: Map_set t k v
  end.

(** [m.get(k)]. *)
Fixpoint Map_get (m : UserMap) (k : Value) : option User :=
  match m with
  | [] => None
  | (k', v') :: t => if SameValueZero k' k then Some v' else Map_get t k
  end.

(** [m.has(k)]. *)
Definition Map_has (m : UserMap) (k : Value) : bool :=
  match Map_get m k with Some _ => true | None => false end.

(** [m.delete(k)]: the map without the entry of [k], and whether there was
    one. *)
Fixpoint Map_remove (m : UserMap) (k : Value) : UserMap :=
  match m with
  | [] => []
  | (k', v') :: t =>
      if SameValueZero k' k then t else (k', v') :: Map_remove t k
  end.

Definition Map_delete (m : UserMap) (k : Value) : UserMap * bool :=
  (Map_remove m k, Map_has m k).

(** A [Map] never holds two entries under the same key. *)
Fixpoint Map_wf (m : UserMap) : bool :=
  match m with
  | [] => true
  | (k, _) :: t => negb (Map_has t k) && Map_wf t
  end.

Definition mkUser (name : string) (lat lng : float) (seen : string) : User :=
  {| username := Str name; latitude := lat; longitude := lng;
     lastSeen := Str seen |}.

(** Mock user data; [loaded i] is the ISO rendering of the clock when the
    [i]-th literal is evaluated, at the module load. *)
Definition mockUsers (loaded : nat -> string) : list User :=
  [ (* NYC Area Users *)
    mkUser "Sarah_M" 40.7580 (-73.9855) (loaded 0%nat);
    mkUser "Emma_K" 40.7520 (-73.9860) (loaded 1%nat);
    mkUser "Jessica_L" 40.7610 (-73.9840) (loaded 2%nat);
    mkUser "Amanda_R" 40.7490 (-73.9857) (loaded 3%nat);
    mkUser "Michelle_T" 40.7530 (-73.9880) (loaded 4%nat);
    mkUser "Lisa_H" 40.7560 (-73.9870) (loaded 5%nat);
    mkUser "Rachel_B" 40.7500 (-73.9900) (loaded 6%nat);
    mkUser "Nicole_W" 40.7570 (-73.9830) (loaded 7%nat);
    (* Lucknow Rajajipuram Area Volunteers *)
    mkUser "Priya_Sharma" 26.8553 80.8805 (loaded 8%nat);
    mkUser "Anita_Gupta" 26.8565 80.8820 (loaded 9%nat);
    mkUser "Meera_Singh" 26.8540 80.8790 (loaded 10%nat);
    mkUser "Ritu_Agarwal" 26.8575 80.8815 (loaded 11%nat);
    mkUser "Sunita_Verma" 26.8520 80.8785 (loaded 12%nat);
    mkUser "Kavita_Yadav" 26.8590 80.8825 (loaded 13%nat);
    mkUser "Neha_Mishra" 26.8510 80.8775 (loaded 14%nat);
    mkUser "Pooja_Tiwari" 26.8580 80.8810 (loaded 15%nat);
    mkUser "Deepika_Pandey" 26.8530 80.8795 (loaded 16%nat);
    mkUser "Shweta_Dubey" 26.8560 80.8800 (loaded 17%nat);
    (* Punjab SLIET Longowal Area Volunteers *)
    mkUser "Simran_Kaur" 30.4726 76.5269 (loaded 18%nat);
    mkUser "Jaspreet_Singh" 30.4735 76.5280 (loaded 19%nat);
    mkUser "Manpreet_Kaur" 30.4718 76.5255 (loaded 20%nat);
    mkUser "Harpreet_Singh" 30.4740 76.5285 (loaded 21%nat);
    mkUser "Gurpreet_Kaur" 30.4710 76.5250 (loaded 22%nat);
    mkUser "Rajveer_Singh" 30.4745 76.5290 (loaded 23%nat);
    mkUser "Navjot_Kaur" 30.4705 76.5245 (loaded 24%nat);
    mkUser "Sukhvir_Singh" 30.4750 76.5295 (loaded 25%nat);
    mkUser "Jaskiran_Kaur" 30.4715 76.5260 (loaded 26%nat);
    mkUser "Arshdeep_Singh" 30.4730 76.5275 (loaded 27%nat) ].

(** Initialize user data: every mock user is stored under its username. *)
Definition initializeUsers (loaded : nat -> string) (users : UserMap)
  : UserMap :=
  fold_left (fun m u => Map_set m (username u) u) (mockUsers loaded) users.

(** Add or update a user's location.  [now] is the ISO rendering of the
    clock, used when no [lastSeen] is given.  Returns the map and the
    boolean the function returns. *)
Definition addUser (now : string) (userData : UserData) (users : UserMap)
  : UserMap * bool :=
  if negb (ToBoolean (ud_username userData))
     || negb (ToBoolean (ud_latitude userData))
     || negb (ToBoolean (ud_longitude userData))
  then (users, false)
  else
    let user :=
      {| username := ud_username userData;
         latitude := parseFloat (ud_latitude userData);
         longitude := parseFloat (ud_longitude userData);
         lastSeen := if ToBoolean (ud_lastSeen userData)
                     then ud_lastSeen userData else Str now |} in
    (Map_set users (ud_username userData) user, true).

(** [arr.sort(compareFn)]: a stable sort; an element moves behind another
    one only when the comparator says it is greater (a [NaN] answer counts
    as equal). *)
Section ArraySort.
Context {A : Type} (compareFn : A -> A -> float).

Fixpoint sortInsert (x : A) (l : list A) : list A :=
  match l with
  | [] => [x]
  | y :: t => if 0 <? compareFn x y then y :: sortInsert x t else x :: l
  end.

Definition Array_sort (l : list A) : list A :=
  fold_right sortInsert [] l.

End ArraySort.

Section WithHost.
Context {H : Host}.

(** The body of the [forEach] callback of [findNearbyUsers]: what one entry
    adds to [nearbyUsers]. *)
Definition visitNearby (lat lng radius : float) (excludeUser : Value)
  (nearbyUsers : list NearbyUser) (entry : Value * User) : list NearbyUser :=
  let '(username, user) := entry in
  (* Skip excluded user (typically the SOS sender) *)
  if ToBoolean excludeUser && StrictEquals username excludeUser
  then nearbyUsers
  (* Skip users with invalid coordinates *)
  else if isNaN (latitude user) || isNaN (longitude user)
  then nearbyUsers
  else
    let distance := calculateDistance lat lng (latitude user) (longitude user) in
    if distance <=? radius
    then nearbyUsers ++ [ {| user := user; distance := distance |} ]
    else nearbyUsers.

(** Find users near a given location within the given radius.  The default
    of [excludeUser] is [Null]. *)
Definition findNearbyUsers (users : UserMap) (latitude longitude : Value)
  (radius : float) (excludeUser : Value) : list NearbyUser :=
  let lat := parseFloat latitude in
  let lng := parseFloat longitude in
  if isNaN lat || isNaN lng then []
  else
    let nearbyUsers :=
      fold_left (visitNearby lat lng radius excludeUser) users [] in
    (* Sort by distance (closest first) *)
    Array_sort (fun a b => distance a - distance b) nearbyUsers.

(** Get a user by username. *)
Definition getUser (users : UserMap) (username : Value) : option User :=
  Map_get users username.

(** Get all users. *)
Definition getAllUsers (users : UserMap) : list User := map snd users.

(** Remove a user. *)
Definition removeUser (users : UserMap) (username : Value) : UserMap * bool :=
  Map_delete users username.

(** Get user count. *)
Definition getUserCount (users : UserMap) : nat := List.length users.

(** The body of the [forEach] callback of [cleanupOldUsers], run on the
    live map and the running count. *)
Definition visitCleanup (now maxAgeMs : float) (st : UserMap * nat)
  (entry : Value * User) : UserMap * nat :=
  let '(username, user) := entry in
  let lastSeen := Date_time (lastSeen user) in
  let age := now - lastSeen in
  if maxAgeMs <? age
  then (fst (Map_delete (fst st) username), S (snd st))
  else st.

(** Clean up users older than [maxAgeMs]; [now] is the time value of the
    clock.  The iteration visits the entries present when it starts: an
    entry is only ever deleted while it is the one visited. *)
Definition cleanupOldUsers (now maxAgeMs : float) (users : UserMap)
  : UserMap * nat :=
  fold_left (visitCleanup now maxAgeMs) users (users, 0%nat).

End WithHost.

(** The states the directory can be in: the module load runs
    [initializeUsers] on the empty map, and the exported functions then run
    in any order. *)
Inductive reachable {H : Host} : UserMap -> Prop :=
| reach_load loaded : reachable (initializeUsers loaded [])
| reach_initialize loaded users :
    reachable users -> reachable (initializeUsers loaded users)
| reach_addUser now userData users :
    reachable users -> reachable (fst (addUser now userData users))
| reach_removeUser username users :
    reachable users -> reachable (fst (removeUser users username))
| reach_cleanup now maxAgeMs users :
    reachable users -> reachable (fst (cleanupOldUsers now maxAgeMs users)).

End Users.

(* ================================================================== *)
(** * utils/csvParser.js *)
(* ================================================================== *)

Module CsvParser.
Import Haversine.

(** A row as [csv-parser] emits it: the cells of the columns [latitude],
    [longitude] and [type], each a string, or absent when the file has no
    such column. *)
Record Row : Type := {
  row_latitude : option string;
  row_longitude : option string;
  row_type : option string
}.

(** The value read from a row property. *)
Definition cell (c : option string) : Value :=
  match c with
  | Some s => Str s
  | None => Undefined
  end.

(** A loaded record: [{ id, latitude, longitude, type, raw }]. *)
Record Crime : Type := {
  id : string;
  latitude : float;
  longitude : float;
  type : string;
  raw : Row
}.

(** The module state: [crimeData] and [isDataLoaded]. *)
Record Store : Type := {
  crimeData : list Crime;
  isDataLoaded : bool
}.

Definition initialStore : Store :=
  {| crimeData := []; isDataLoaded := false |}.

(** The promise returned by a call of [loadCrimeData]. *)
Inductive Promise : Type :=
| Pending
| Resolved (value : list Crime)
| Rejected (error : string).

(** A call of [loadCrimeData] in flight: its local [results] array and its
    promise. *)
Record Load : Type := {
  results : list Crime;
  promise : Promise
}.

(** What the parser stream emits. *)
Inductive StreamEvent : Type :=
| OnData (row : Row)
| OnEnd
| OnError (error : string).

(** The ['data'] listener: parse and validate a row, push it when valid.
    A cell is a string, so [row.type.trim()] cannot throw and the [catch]
    branch is never taken. *)
Definition onData (row : Row) (results : list Crime) : list Crime :=
  let latitude := parseFloat (cell (row_latitude row)) in
  let longitude := parseFloat (cell (row_longitude row)) in
  let type :=
    match row_type row with
    | Some s => if ToBoolean (Str s) then trim s else "Unknown"
    | None => "Unknown"
    end in
  (* Validate coordinates *)
  if negb (isNaN latitude) && negb (isNaN longitude) &&
     (-90 <=? latitude) && (latitude <=? 90) &&
     (-180 <=? longitude) && (longitude <=? 180)
  then results ++
       [ {| id := ("crime_" ++ decimal (List.length results + 1))%string;
            latitude := latitude;
            longitude := longitude;
            type := type;
            raw := row |} ]
  else results.

(** One event delivered to the listeners of a call in flight.  A stream
    that has ended or failed emits nothing more. *)
Definition step (st : Store * Load) (ev : StreamEvent) : Store * Load :=
  let '(store, load) := st in
  match promise load with
  | Pending =>
      match ev with
      | OnData row =>
          (store, {| results := onData row (results load); promise := Pending |})
      | OnEnd =>
          ({| crimeData := results load; isDataLoaded := true |},
           {| results := results load; promise := Resolved (results load) |})
      | OnError error =>
          ({| crimeData := []; isDataLoaded := true |},
           {| results := results load; promise := Rejected error |})
      end
  | _ => st
  end.

Definition deliver (events : list StreamEvent) (st : Store * Load)
  : Store * Load :=
  fold_left step events st.

(** Load and parse crime data from the CSV file: the synchronous part of
    the call.  [fileExists] is the answer of [fs.existsSync]. *)
Definition loadCrimeData (fileExists : bool) (store : Store) : Store * Load :=
  if negb fileExists
  then ({| crimeData := []; isDataLoaded := true |},
        {| results := []; promise := Resolved [] |})
  else (store, {| results := []; promise := Pending |}).

(** Get loaded crime data. *)
Definition getCrimeData (store : Store) : list Crime :=
  if negb (isDataLoaded store) then [] else crimeData store.

(** Filter crime data by type. *)
Definition getCrimesByType (store : Store) (crimeType : string) : list Crime :=
  filter (fun crime => includes (toLowerCase (type crime)) (toLowerCase crimeType))
    (crimeData store).

(** Get crime data within a geographic area. *)
Definition getCrimesInArea {H : Host} (store : Store)
  (centerLat centerLng radius : float) : list Crime :=
  filter (fun crime =>
            let distance :=
              calculateDistance centerLat centerLng
                (latitude crime) (longitude crime) in
            distance <=? radius)
    (crimeData store).

(** Reload crime data from the CSV file. *)
Definition reloadCrimeData (fileExists : bool) (store : Store) : Store * Load :=
  loadCrimeData fileExists
    {| crimeData := crimeData store; isDataLoaded := false |}.

(** The events of a stream that reads [rows] to the end. *)
Definition streamOf (rows : list Row) : list StreamEvent :=
  map OnData rows ++ [OnEnd].

(** The events of a parser stream that raises an error of its own after
    [rows]. *)
Definition failingStream (rows : list Row) (error : string)
  : list StreamEvent :=
  map OnData rows ++ [OnError error].

(** ** The file stream behind the parser *)

(** What the stream of [fs.createReadStream] emits: a chunk, given with the
    rows the parser makes of it, the end of the file, or a read failure. *)
Inductive FileEvent : Type :=
| FileData (rows : list Row)
| FileEnd
| FileError (error : string).

(** [fs.createReadStream(csvPath).pipe(csvParser())]: the events of the
    parser stream, on which the three listeners are registered.  [pipe]
    ends the parser when the file ends and forwards no error: the ['error']
    event of the file stream has no listener (Node throws it as an uncaught
    exception), and the parser emits nothing after it. *)
Fixpoint pipe (file : list FileEvent) : list StreamEvent :=
  match file with
  | [] => []
  | FileData rows :: rest => map OnData rows ++ pipe rest
  | FileEnd :: _ => [OnEnd]
  | FileError _ :: _ => []
  end.

(** ** The calls of the logger *)

(** What is passed to the logger besides the message. *)
Inductive LogData : Type :=
| NoData
| RowData (row : Row)
| ErrorData (error : string).

(** A call [logger.warn(message, data)], [logger.info(...)] or
    [logger.error(...)], with the level the method logs at. *)
Record LogCall : Type := {
  log_level : string;
  log_message : string;
  log_data : LogData
}.

(** What the ['data'] listener logs: nothing for a row it pushes, a warning
    with the row for a row it skips. *)
Definition onDataLog (row : Row) : list LogCall :=
  let latitude := parseFloat (cell (row_latitude row)) in
  let longitude := parseFloat (cell (row_longitude row)) in
  if negb (isNaN latitude) && negb (isNaN longitude) &&
     (-90 <=? latitude) && (latitude <=? 90) &&
     (-180 <=? longitude) && (longitude <=? 180)
  then []
  else [ {| log_level := "WARN";
            log_message := "Invalid crime data row skipped:";
            log_data := RowData row |} ].

(** What the listeners of a call in flight log at an event. *)
Definition stepLog (st : Store * Load) (ev : StreamEvent) : list LogCall :=
  match promise (snd st) with
  | Pending =>
      match ev with
      | OnData row => onDataLog row
      | OnEnd =>
          [ {| log_level := "INFO";
               log_message :=
                 ("Crime data loaded successfully: "
                  ++ decimal (List.length (results (snd st))) ++ " records")
                 %string;
               log_data := NoData |} ]
      | OnError error =>
          [ {| log_level := "ERROR";
               log_message := "Error reading crime data CSV:";
               log_data := ErrorData error |} ]
      end
  | _ => []
  end.

(** The calls of the logger while [events] are delivered, in order. *)
Fixpoint deliverLog (events : list StreamEvent) (st : Store * Load)
  : list LogCall :=
  match events with
  | [] => []
  | ev :: rest => stepLog st ev ++ deliverLog rest (step st ev)
  end.

(** What the synchronous part of [loadCrimeData] logs; [csvPath] is the
    path of the file. *)
Definition loadCrimeDataLog (csvPath : string) (fileExists : bool)
  : list LogCall :=
  if negb fileExists
  then [ {| log_level := "WARN";
            log_message :=
              ("Crime data CSV file not found at " ++ csvPath)%string;
            log_data := NoData |} ]
  else [].

(** ** Several calls in flight *)

(** The module with the calls of [loadCrimeData] made so far.  [crimeData]
    and [isDataLoaded] are shared by all calls; each call has its own
    [results], promise and stream, registered in [calls] in the order of
    the calls. *)
Record Running : Type := {
  shared : Store;
  calls : list Load
}.

(** The module right after it is loaded. *)
Definition started : Running := {| shared := initialStore; calls := [] |}.

(** What can happen next: [loadCrimeData()] or [reloadCrimeData()] is
    called, or the stream of the [call]-th call emits an event.  The streams
    of the calls in flight emit in any order. *)
Inductive Action : Type :=
| CallLoad (fileExists : bool)
| CallReload (fileExists : bool)
| Emit (call : nat) (ev : StreamEvent).

(** The list [l] with its [i]-th element replaced. *)
Fixpoint replace {A : Type} (i : nat) (x : A) (l : list A) : list A :=
  match l, i with
  | [], _ => []
  | _ :: t, O => x :: t
  | y :: t, S i' => y :: replace i' x t
  end.

Definition act (r : Running) (a : Action) : Running :=
  match a with
  | CallLoad fileExists =>
      let st := loadCrimeData fileExists (shared r) in
      {| shared := fst st; calls := calls r ++ [snd st] |}
  | CallReload fileExists =>
      let st := reloadCrimeData fileExists (shared r) in
      {| shared := fst st; calls := calls r ++ [snd st] |}
  | Emit call ev =>
      match nth_error (calls r) call with
      | Some load =>
          let st := step (shared r, load) ev in
          {| shared := fst st; calls := replace call (snd st) (calls r) |}
      | None => r
      end
  end.

Definition run (actions : list Action) (r : Running) : Running :=
  fold_left act actions r.

(** What [f] returns on the module state to a reader scheduled before the
    first action, between two actions, and after the last one. *)
Fixpoint watch {A : Type} (f : Store -> A) (actions : list Action)
  (r : Running) : list A :=
  f (shared r) ::
  match actions with
  | [] => []
  | a :: rest => watch f rest (act r a)
  end.

(** The events that the stream of the [call]-th call emits among
    [actions]. *)
Fixpoint eventsOf (call : nat) (actions : list Action) : list StreamEvent :=
  match actions with
  | [] => []
  | Emit i ev :: rest =>
      if (i =? call)%nat then ev :: eventsOf call rest
      else eventsOf call rest
  | _ :: rest => eventsOf call rest
  end.

(** The collection is empty or the one a call has resolved with. *)
Definition whole (r : Running) : Prop :=
  crimeData (shared r) = [] \/
  exists i load,
    nth_error (calls r) i = Some load /\
    promise load = Resolved (crimeData (shared r)).

(** An action by which a stream ends. *)
Definition endOfStream (a : Action) : bool :=
  match a with
  | Emit _ OnEnd => true
  | _ => false
  end.


End CsvParser.

(* ================================================================== *)
(** * routes/sos.js *)
(* ================================================================== *)

Module Sos.
Import Haversine Users.

(** [req.body] and the dashboard connections of a request. *)
Record Request : Type := {
  body_username : Value;
  body_latitude : Value;
  body_longitude : Value;
  dashboardSockets : nat
}.

Record SosAlert : Type := {
  alert_id : string;
  alert_username : Value;
  alert_latitude : float;
  alert_longitude : float;
  alert_timestamp : string
}.

(** An element of [nearbyUsers] in the dashboard payload. *)
Record DashboardUser : Type := {
  du_username : Value;
  du_latitude : float;
  du_longitude : float;
  du_distance : float
}.

(** An element of [nearbyUsers] in the HTTP response. *)
Record ResponseUser : Type := {
  ru_username : Value;
  ru_distance : float;
  ru_lastSeen : Value
}.

Inductive Response : Type :=
| BadRequest (error : string)
| Success (alert : SosAlert) (nearbyUsers : list ResponseUser)
    (dashboardNotified : bool).

(** What a request leaves behind: the response, the payload emitted to the
    dashboards (if any) and the directory. *)
Record Outcome : Type := {
  response : Response;
  broadcast : option (SosAlert * list DashboardUser);
  directory : UserMap
}.

Section WithHost.
Context {H : Host}.

(** POST /api/sos.  [NEARBY_RADIUS] is the configured radius
    ([parseInt(process.env.NEARBY_RADIUS) || 500]), [timestamp]
    the ISO rendering of the clock and [alertId] the identifier drawn for
    the alert. *)
Definition postSos (NEARBY_RADIUS : float) (timestamp alertId : string)
  (users : UserMap) (req : Request) : Outcome :=
  let username := body_username req in
  let latitude := body_latitude req in
  let longitude := body_longitude req in
  (* Validate required fields *)
  if negb (ToBoolean username) || negb (ToBoolean latitude)
     || negb (ToBoolean longitude)
  then {| response := BadRequest "Missing required fields";
          broadcast := None; directory := users |}
  else
    (* Validate coordinates *)
    let lat := parseFloat latitude in
    let lng := parseFloat longitude in
    if isNaN lat || isNaN lng || (lat <? -90) || (90 <? lat)
       || (lng <? -180) || (180 <? lng)
    then {| response := BadRequest "Invalid coordinates";
            broadcast := None; directory := users |}
    else
      let sosAlert :=
        {| alert_id := alertId; alert_username := username;
           alert_latitude := lat; alert_longitude := lng;
           alert_timestamp := timestamp |} in
      (* Find nearby users within configurable radius *)
      let nearbyUsers :=
        findNearbyUsers users (Number lat) (Number lng) NEARBY_RADIUS Null in
      (* Emit real-time alert to dashboard *)
      let emitted :=
        if (0 <? dashboardSockets req)%nat
        then Some (sosAlert,
                   map (fun u =>
                          {| du_username := Users.username (user u);
                             du_latitude := Users.latitude (user u);
                             du_longitude := Users.longitude (user u);
                             du_distance :=
                               calculateDistance lat lng
                                 (Users.latitude (user u))
                                 (Users.longitude (user u)) |})
                       nearbyUsers)
        else None in
      (* Add/update user location in our system *)
      let users' :=
        fst (addUser timestamp
               {| ud_username := username; ud_latitude := Number lat;
                  ud_longitude := Number lng; ud_lastSeen := Str timestamp |}
               users) in
      {| response :=
           Success sosAlert
             (map (fun u =>
                     {| ru_username := Users.username (user u);
                        ru_distance :=
                          calculateDistance lat lng
                            (Users.latitude (user u))
                            (Users.longitude (user u));
                        ru_lastSeen := lastSeen (user u) |})
                  nearbyUsers)
             (0 <? dashboardSockets req)%nat;
         broadcast := emitted;
         directory := users' |}.

End WithHost.
End Sos.

(* ================================================================== *)
(** * routes/crime-zones.js *)
(* ================================================================== *)

Module CrimeZones.
Import Haversine CsvParser.

(** A value of [req.query]: a string, an array when the key is repeated or
    written with brackets, or an object when the key is written with named
    brackets, of which only the names of its own properties matter here. *)
#[warnings="-register-all"]
Inductive QueryValue : Type :=
| QString (s : string)
| QArray (items : list QueryValue)
| QObject (keys : list string).

(** [req.query]: each parameter is a value, or absent. *)
Record Query : Type := {
  q_lat : option QueryValue;
  q_lng : option QueryValue;
  q_radius : option QueryValue;
  q_type : option QueryValue
}.

(** The outcome of an expression: a value, or a thrown [TypeError]. *)
Inductive Completion (A : Type) : Type :=
| Normal (a : A)
| Throw.
Arguments Normal {A} a.
Arguments Throw {A}.

Definition bind {A B : Type} (c : Completion A) (f : A -> Completion B)
  : Completion B :=
  match c with
  | Normal a => f a
  | Throw => Throw
  end.

Notation "'let*' x ':=' c 'in' f" := (bind c (fun x => f))
  (at level 10, x name, c at level 100, f at level 200).

(** [ToString(v)]: an array is joined with commas; an object prints as
    ["[object Object]"], unless a property of its own hides [toString]:
    the property is a query value, not a function, and the conversion
    throws. *)
Fixpoint ToString (v : QueryValue) : Completion string :=
  match v with
  | QString s => Normal s
  | QArray items =>
      (fix join (l : list QueryValue) : Completion string :=
         match l with
         | [] => Normal EmptyString
         | [x] => ToString x
         | x :: rest =>
             let* a := ToString x in
             let* b := join rest in
             Normal (a ++ "," ++ b)%string
         end) items
  | QObject keys =>
      if existsb (String.eqb "toString") keys then Throw
      else Normal "[object Object]"
  end.

(** Whether a parameter is truthy: an absent parameter and the empty
    string are not, every array and object is. *)
Definition truthy (p : option QueryValue) : bool :=
  match p with
  | None => false
  | Some (QString s) => ToBoolean (Str s)
  | Some _ => true
  end.

(** [parseFloat(p)]. *)
Definition parseFloatQuery (p : option QueryValue) : Completion float :=
  match p with
  | None => Normal (parseFloat Undefined)
  | Some v => let* s := ToString v in Normal (parseFloat (Str s))
  end.

(** [type.toLowerCase()]: only a string has the method. *)
Definition toLowerCaseQuery (v : QueryValue) : Completion string :=
  match v with
  | QString s => Normal (toLowerCase s)
  | _ => Throw
  end.

(** [arr.filter(callback)] with a callback that may throw. *)
Fixpoint Array_filter {A : Type} (callback : A -> Completion bool)
  (l : list A) : Completion (list A) :=
  match l with
  | [] => Normal []
  | x :: t =>
      let* keep := callback x in
      let* rest := Array_filter callback t in
      Normal (if keep then x :: rest else rest)
  end.

(** The answer: [res.status(200).json({ success, data, total, ... })], or
    the answer of the [catch] branch, [res.status(500).json({ error,
    message })]. *)
Inductive Response : Type :=
| Ok (data : list Crime) (total : nat)
| ServerError.

Section WithHost.
Context {H : Host}.

(** The type filter of the handler. *)
Definition filterType (q : Query) (crimeData : list Crime)
  : Completion (list Crime) :=
  match q_type q with
  | Some type =>
      if truthy (Some type)
      then Array_filter
             (fun crime =>
                if ToBoolean (Str (CsvParser.type crime))
                then let* sub := toLowerCaseQuery type in
                     Normal (includes (toLowerCase (CsvParser.type crime)) sub)
                else Normal false)
             crimeData
      else Normal crimeData
  | None => Normal crimeData
  end.

(** The proximity filter of the handler. *)
Definition filterArea (q : Query) (crimeData : list Crime)
  : Completion (list Crime) :=
  if truthy (q_lat q) && truthy (q_lng q) && truthy (q_radius q)
  then
    let* latitude := parseFloatQuery (q_lat q) in
    let* longitude := parseFloatQuery (q_lng q) in
    let* searchRadius := parseFloatQuery (q_radius q) in
    if negb (isNaN latitude) && negb (isNaN longitude)
       && negb (isNaN searchRadius)
    then Normal
           (filter (fun crime =>
                      let distance :=
                        calculateDistance latitude longitude
                          (parseFloat (Number (CsvParser.latitude crime)))
                          (parseFloat (Number (CsvParser.longitude crime))) in
                      distance <=? searchRadius)
              crimeData)
    else Normal crimeData
  else Normal crimeData.

(** GET /api/crime-zones. *)
Definition getCrimeZones (store : Store) (q : Query) : Response :=
  let crimeData := getCrimeData store in
  if (List.length crimeData =? 0)%nat
  then Ok [] 0
  else
    match
      (* Filter by crime type if specified *)
      let* crimeData := filterType q crimeData in
      (* Filter by geographic proximity if coordinates and radius provided *)
      filterArea q crimeData
    with
    | Normal crimeData => Ok crimeData (List.length crimeData)
    | Throw => ServerError
    end.

End WithHost.
End CrimeZones.

(* ================================================================== *)
(** * A host to run the model on *)
(* ================================================================== *)

(** First-order approximations of the trigonometric built-ins, accurate for
    small angles, with the special cases of ECMA-262; a date is given as its
    time value.  The model is run on this host wherever a concrete host is
    needed. *)
Module SmallAngle.

Definition sin (x : float) : float := if is_finite x then x else nan.

Definition cos (x : float) : float := if is_finite x then 1 else nan.

Definition atan2 (y x : float) : float := y / x.

Definition time (v : Value) : float :=
  match v with
  | Number t => t
  | _ => nan
  end.

#[export] Instance host : Host :=
  {| Math_sin := sin; Math_cos := cos; Math_atan2 := atan2;
     Date_time := time |}.

End SmallAngle.

(* ================================================================== *)
(** * Example data *)
(* ================================================================== *)

Module Examples.
Import Users CsvParser.

(** The directory right after a module load at [loadedAt]. *)
Definition loadedAt : string := "2024-01-01T00:00:00.000Z".
Definition mockDirectory : UserMap := initializeUsers (fun _ => loadedAt) [].

(** The directory after the module load and an [addUser] for a user last
    seen at time 1, at the coordinates of the first mock user. *)
Definition staleDirectory : UserMap :=
  fst (addUser loadedAt
         {| ud_username := Str "Old"; ud_latitude := Number 40.7580;
            ud_longitude := Number (-73.9855); ud_lastSeen := Number 1 |}
         mockDirectory).

(** A directory with one entry last seen at time 0 and one at time 100. *)
Definition agedDirectory : UserMap :=
  [ (Str "old", {| Users.username := Str "old"; Users.latitude := 1;
                   Users.longitude := 1; Users.lastSeen := Number 0 |});
    (Str "new", {| Users.username := Str "new"; Users.latitude := 2;
                   Users.longitude := 2; Users.lastSeen := Number 100 |}) ].

(** The directory of the end-to-end scenario: A at (0, 0), B at (0, 0.001)
    and C at (10, 10). *)
Definition scenarioDirectory : UserMap :=
  [ (Str "A", mkUser "A" 0 0 loadedAt);
    (Str "B", mkUser "B" 0 0.001 loadedAt);
    (Str "C", mkUser "C" 10 10 loadedAt) ].

(** The rows [(200, 80, "Theft")] and [(26.85, 80.88, "Theft")], and a row
    whose label is white space only. *)
Definition invalidRow : Row :=
  {| row_latitude := Some "200"; row_longitude := Some "80";
     row_type := Some "Theft" |}.

Definition theftRow : Row :=
  {| row_latitude := Some "26.85"; row_longitude := Some "80.88";
     row_type := Some "Theft" |}.

Definition blankRow : Row :=
  {| row_latitude := Some "26.85"; row_longitude := Some "80.88";
     row_type := Some "   " |}.

End Examples.

(* ================================================================== *)
(** * The vocabulary of the properties *)
(* ================================================================== *)

Module Vocabulary.
Import Haversine Users CsvParser CrimeZones.

(** An entry is stored under its own username, and that key is truthy. *)
Definition keyed (e : Value * User) : Prop :=
  username (snd e) = fst e /\ ToBoolean (fst e) = true.

Section WithHost.
Context {H : Host}.

(** Whether the sweep at [now] finds an entry older than [maxAgeMs]. *)
Definition expired (now maxAgeMs : float) (e : Value * User) : bool :=
  maxAgeMs <? now - Date_time (lastSeen (snd e)).

(** The test the scan of [findNearbyUsers] applies to an entry. *)
Definition scanned (lat lng radius : float) (excludeUser : Value)
  (e : Value * User) : bool :=
  negb (ToBoolean excludeUser && StrictEquals (fst e) excludeUser) &&
  negb (isNaN (Users.latitude (snd e)) || isNaN (Users.longitude (snd e))) &&
  (calculateDistance lat lng (Users.latitude (snd e)) (Users.longitude (snd e))
     <=? radius).

(** An entry with finite coordinates within [radius] of the centre, other
    than the excluded identity when one is supplied. *)
Definition nearby (lat lng radius : float) (excludeUser : Value)
  (e : Value * User) : bool :=
  negb (ToBoolean excludeUser && StrictEquals (fst e) excludeUser) &&
  (is_finite (Users.latitude (snd e)) && is_finite (Users.longitude (snd e))) &&
  (calculateDistance lat lng (Users.latitude (snd e)) (Users.longitude (snd e))
     <=? radius).

(** An entry annotated with its distance from the centre. *)
Definition annotated (lat lng : float) (e : Value * User) : NearbyUser :=
  {| user := snd e;
     distance :=
       calculateDistance lat lng (Users.latitude (snd e))
         (Users.longitude (snd e)) |}.

End WithHost.

(** Whether both coordinates of a row parse as numbers within range. *)
Definition accepted (row : Row) : bool :=
  let latitude := parseFloat (cell (row_latitude row)) in
  let longitude := parseFloat (cell (row_longitude row)) in
  negb (is_nan latitude) && negb (is_nan longitude) &&
  (-90 <=? latitude) && (latitude <=? 90) &&
  (-180 <=? longitude) && (longitude <=? 180).

(** The category of a row: its trimmed label, or ["Unknown"] when the label
    is absent or empty. *)
Definition category (row : Row) : string :=
  match row_type row with
  | Some EmptyString | None => "Unknown"
  | Some label => trim label
  end.

(** The record made of the [n]-th accepted row. *)
Definition recordOf (n : nat) (row : Row) : Crime :=
  {| id := ("crime_" ++ decimal n)%string;
     CsvParser.latitude := parseFloat (cell (row_latitude row));
     CsvParser.longitude := parseFloat (cell (row_longitude row));
     type := category row;
     raw := row |}.

(** The records of the accepted rows of [rows], numbered from [n]. *)
Fixpoint recordsFrom (n : nat) (rows : list Row) : list Crime :=
  match rows with
  | [] => []
  | row :: rest =>
      if accepted row then recordOf n row :: recordsFrom (S n) rest
      else recordsFrom n rest
  end.

(** Whether a query parameter is supplied: present and not the empty
    string. *)
Definition supplied (p : option QueryValue) : bool :=
  match p with
  | None | Some (QString EmptyString) => false
  | Some _ => true
  end.

(** The log call by which the loader reports a row it skips. *)
Definition diagnostic (row : Row) : LogCall :=
  {| log_level := "WARN";
     log_message := "Invalid crime data row skipped:";
     log_data := RowData row |}.

(** Whether a parameter is absent or a single string. *)
Definition plain (p : option QueryValue) : bool :=
  match p with
  | None | Some (QString _) => true
  | Some _ => false
  end.



(** The string a value converts to, when it can be converted. *)
Fixpoint printed (v : QueryValue) : string :=
  match v with
  | QString s => s
  | QArray items =>
      (fix join (l : list QueryValue) : string :=
         match l with
         | [] => EmptyString
         | [x] => printed x
         | x :: rest => (printed x ++ "," ++ join rest)%string
         end) items
  | QObject _ => "[object Object]"
  end.

(** The number a parameter parses to, [NaN] for an absent one. *)
Definition parsed (p : option QueryValue) : float :=
  match p with
  | None => nan
  | Some v => parseFloat (Str (printed v))
  end.

(** Whether a query parameter parses as a number. *)
Definition numeric (p : option QueryValue) : bool :=
  negb (is_nan (parsed p)).

(** Whether a record has a category that contains [sub], whatever the case
    of the letters. *)
Definition ofType (sub : string) (crime : Crime) : bool :=
  negb (CsvParser.type crime =? EmptyString)%string &&
  includes (toLowerCase (CsvParser.type crime)) (toLowerCase sub).


End Vocabulary.

(* ================================================================== *)
(** * utils/csvParser.js and routes/crime-zones.js: statistics *)
(* ================================================================== *)

Module CrimeStats.
Import CsvParser.

(** What a property of the [byType] object can hold: a count, or the string
    that adding 1 to a function or to an object gives.  A count stays below
    the length limit of an array, where adding 1 is exact. *)
Inductive Counter : Type :=
| Count (n : nat)
| Text.

(** The own properties of an object created by [{}]. *)
Definition Object : Type := list (string * Counter).

(** The property names every object inherits from [Object.prototype]. *)
Definition inheritedNames : list string :=
  [ "constructor"; "__defineGetter__"; "__defineSetter__"; "hasOwnProperty";
    "__lookupGetter__"; "__lookupSetter__"; "isPrototypeOf";
    "propertyIsEnumerable"; "toString"; "valueOf"; "__proto__";
    "toLocaleString" ].

Definition inherited (key : string) : bool :=
  existsb (String.eqb key) inheritedNames.

(** The own property [key] of [o], if any. *)
Fixpoint own (o : Object) (key : string) : option Counter :=
  match o with
  | [] => None
  | (k, v) :: t => if (k =? key)%string then Some v else own t key
  end.

(** [(o[key] || 0) + 1]: an own count is incremented, a missing property
    starts at 1, and an inherited function or object, or an own string, is
    concatenated with ["1"]. *)
Definition bump (o : Object) (key : string) : Counter :=
  match own o key with
  | Some (Count n) => Count (n + 1)
  | Some Text => Text
  | None => if inherited key then Text else Count 1
  end.

(** [o[key] = v]: an assignment to [__proto__] of a value that is not an
    object is ignored. *)
Fixpoint assign (o : Object) (key : string) (v : Counter) : Object :=
  match o with
  | [] => [(key, v)]
  | (k, v') :: t =>
      if (k =? key)%string then (k, v) :: t else (k, v') :: assign t key v
  end.

Definition setProperty (o : Object) (key : string) (v : Counter) : Object :=
  if (key =? "__proto__")%string then o else assign o key v.

(** The loop that counts crimes by type. *)
Definition countByType (crimeData : list Crime) : Object :=
  fold_left
    (fun byType crime =>
       let type := if ToBoolean (Str (type crime)) then type crime
                   else "Unknown" in
       setProperty byType type (bump byType type))
    crimeData [].

(** [{ total, byType, loaded }]. *)
Record Stats : Type := {
  total : nat;
  byType : Object;
  loaded : bool
}.

(** Get crime statistics ([utils/csvParser.js]). *)
Definition getCrimeStats (store : Store) : Stats :=
  {| total := List.length (crimeData store);
     byType := countByType (crimeData store);
     loaded := isDataLoaded store |}.

(** GET /api/crime-zones/stats: the [total] and [byType] of the answer. *)
Definition getCrimeZonesStats (store : Store) : nat * Object :=
  let crimeData := getCrimeData store in
  if (List.length crimeData =? 0)%nat then (0%nat, [])
  else (List.length crimeData, countByType crimeData).

End CrimeStats.

(* ================================================================== *)
(** * utils/logger.js *)
(* ================================================================== *)

Module Logger.

Definition upperChar (c : ascii) : ascii :=
  let n := nat_of_ascii c in
  if ((97 <=? n) && (n <=? 122))%nat then ascii_of_nat (n - 32) else c.

(** [s.toUpperCase()] on the letters a-z. *)
Fixpoint toUpperCase (s : string) : string :=
  match s with
  | String c r => String (upperChar c) (toUpperCase r)
  | EmptyString => EmptyString
  end.

(** [LOG_LEVELS[name]]: the value of a level.  For another name the lookup
    gives [undefined] or an inherited function; the two behave alike where
    the lookup is used: neither compares below a number, and a name in
    upper case is never an inherited one. *)
Definition LOG_LEVELS (name : string) : Value :=
  if (name =? "ERROR")%string then Number 0
  else if (name =? "WARN")%string then Number 1
  else if (name =? "INFO")%string then Number 2
  else if (name =? "DEBUG")%string then Number 3
  else Undefined.

(** The constructor: [level] from [process.env.LOG_LEVEL || 'INFO'], and
    [minLevel] from [LOG_LEVELS[level.toUpperCase()] || LOG_LEVELS.INFO]. *)
Definition level (env : option string) : string :=
  match env with
  | Some s => if ToBoolean (Str s) then s else "INFO"
  | None => "INFO"
  end.

Definition minLevel (env : option string) : float :=
  match LOG_LEVELS (toUpperCase (level env)) with
  | Number v => if ToBoolean (Number v) then v else 2
  | _ => 2
  end.

(** The console method a message goes to. *)
Inductive Console : Type :=
| ConsoleError
| ConsoleWarn
| ConsoleLog.

Section WithFormat.
(** [formatMessage(level, message, data)], with the clock and the rendering
    of [data] left to the caller. *)
Context (formatMessage : string -> string -> string).

(** Log at the given level: what is written to the console, if anything. *)
Definition log (env : option string) (lvl message : string)
  : option (Console * string) :=
  let emitted :=
    match LOG_LEVELS lvl with
    | Number levelValue => levelValue <=? minLevel env
    | _ => false
    end in
  if emitted then
    let formattedMessage := formatMessage lvl message in
    if (lvl =? "ERROR")%string then Some (ConsoleError, formattedMessage)
    else if (lvl =? "WARN")%string then Some (ConsoleWarn, formattedMessage)
    else Some (ConsoleLog, formattedMessage)
  else None.

Definition error (env : option string) (message : string) :=
  log env "ERROR" message.
Definition warn (env : option string) (message : string) :=
  log env "WARN" message.
Definition info (env : option string) (message : string) :=
  log env "INFO" message.
Definition debug (env : option string) (message : string) :=
  log env "DEBUG" message.

(** Log API request. *)
Definition logRequest (env : option string) (statusCode : float) :=
  if 400 <=? statusCode then warn env "API Request"
  else info env "API Request".

End WithFormat.
End Logger.

(* ================================================================== *)
(** * Further vocabulary *)
(* ================================================================== *)

Module Terms.
Import Settings Users Sos CsvParser.

(** A list of users whose usernames differ pairwise. *)
Fixpoint distinctNames (l : list User) : bool :=
  match l with
  | [] => true
  | u :: t =>
      forallb (fun u' => negb (SameValueZero (username u') (username u))) t
      && distinctNames t
  end.

(** A request that passes both validations of POST /api/sos: the three
    fields are truthy and the parsed coordinates lie within the bounds. *)
Definition wellFormed (req : Request) : bool :=
  ToBoolean (body_username req) && ToBoolean (body_latitude req)
  && ToBoolean (body_longitude req)
  && withinGeoBounds (parseFloat (body_latitude req))
       (parseFloat (body_longitude req)).

(** The states the crime data module can be in: the state at the module
    load, then calls of [loadCrimeData] and [reloadCrimeData], each with
    the events its stream delivers before the next call. *)
Inductive reachableStore : Store -> Prop :=
| reach_initial : reachableStore initialStore
| reach_loadCrimeData fileExists events store :
    reachableStore store ->
    reachableStore (fst (deliver events (loadCrimeData fileExists store)))
| reach_reloadCrimeData fileExists events store :
    reachableStore store ->
    reachableStore (fst (deliver events (reloadCrimeData fileExists store))).

(** The label a record is counted under by the statistics. *)
Definition statLabel (crime : Crime) : string :=
  if ToBoolean (Str (type crime)) then type crime else "Unknown".

(** How many records of a list are counted under [label]. *)
Definition occurrences (crimeData : list Crime) (label : string) : nat :=
  List.length (filter (fun crime => (statLabel crime =? label)%string)
                 crimeData).

End Terms.

(* ================================================================== *)
(** * Facts on binary64 arithmetic *)
(* ================================================================== *)

Module FloatFacts.

Lemma Prim2SF_nan : Prim2SF nan = S754_nan. Proof. reflexivity. Qed.
Lemma Prim2SF_zero : Prim2SF zero = S754_zero false. Proof. reflexivity. Qed.
Lemma Prim2SF_infinity : Prim2SF infinity = S754_infinity false. Proof. reflexivity. Qed.

Lemma SFcompare_refl (X : spec_float) :
  X <> S754_nan -> SFcompare X X = Some Eq.
Proof.
  destruct X as [s | s | | s m e]; simpl; try congruence; intros _.
  - destruct s; reflexivity.
  - rewrite Z.compare_refl.
    change (PosDef.Pos.compare_cont Eq m m) with (Pos.compare m m).
    rewrite Pos.compare_refl. destruct s; reflexivity.
Qed.

Lemma is_nan_spec (x : float) :
  is_nan x = match Prim2SF x with S754_nan => true | _ => false end.
Proof.
  unfold is_nan. rewrite eqb_spec. unfold SFeqb.
  destruct (Prim2SF x) eqn:E; try reflexivity;
    rewrite SFcompare_refl by discriminate; reflexivity.
Qed.

Lemma is_zero_spec (x : float) :
  is_zero x = match Prim2SF x with S754_zero _ => true | _ => false end.
Proof.
  unfold is_zero. rewrite eqb_spec, Prim2SF_zero. unfold SFeqb.
  destruct (Prim2SF x) as [s | s | | s m e]; simpl; try reflexivity;
    destruct s; reflexivity.
Qed.

Lemma is_infinity_spec (x : float) :
  is_infinity x = match Prim2SF x with S754_infinity _ => true | _ => false end.
Proof.
  unfold is_infinity. rewrite eqb_spec, abs_spec, Prim2SF_infinity. unfold SFeqb.
  destruct (Prim2SF x) as [s | s | | s m e]; simpl; reflexivity.
Qed.

Lemma is_finite_spec (x : float) :
  is_finite x =
  match Prim2SF x with S754_nan | S754_infinity _ => false | _ => true end.
Proof.
  unfold is_finite. rewrite is_nan_spec, is_infinity_spec.
  destruct (Prim2SF x); reflexivity.
Qed.

Lemma is_nan_eq (x : float) : is_nan x = true -> x = nan.
Proof.
  rewrite is_nan_spec. intros Hx. apply Prim2SF_inj. rewrite Prim2SF_nan.
  destruct (Prim2SF x); congruence.
Qed.


(** ** The sign of a rounded result *)

Lemma binary_round_aux_opp (s : bool) (m e : Z) (l : location) :
  binary_round_aux prec emax (negb s) m e l =
  SFopp (binary_round_aux prec emax s m e l).
Proof.
  unfold binary_round_aux.
  destruct (shr_fexp prec emax m e l) as [mrs' e'].
  destruct (shr_fexp prec emax _ e' loc_Exact) as [mrs'' e''].
  destruct (shr_m mrs''); try reflexivity.
  destruct (e'' <=? emax - prec)%Z; reflexivity.
Qed.

Lemma binary_round_opp (s : bool) (m : positive) (e : Z) :
  binary_round prec emax (negb s) m e =
  SFopp (binary_round prec emax s m e).
Proof.
  unfold binary_round.
  destruct (shl_align m e _) as [mz ez].
  apply binary_round_aux_opp.
Qed.

Lemma binary_normalize_opp (m e : Z) :
  binary_normalize prec emax (- m) e false =
  SFopp (binary_normalize prec emax m e false) \/
  binary_normalize prec emax (- m) e false =
  binary_normalize prec emax m e false.
Proof.
  destruct m as [|p|p]; simpl.
  - right; reflexivity.
  - left. apply (binary_round_opp false).
  - left. apply (binary_round_opp true).
Qed.

Lemma SFopp_involutive (X : spec_float) : SFopp (SFopp X) = X.
Proof. destruct X as [[]|[]| |[] m e]; reflexivity. Qed.

Lemma SFmul_comm (X Y : spec_float) :
  SFmul prec emax X Y = SFmul prec emax Y X.
Proof.
  destruct X as [sx|sx| |sx mx ex], Y as [sy|sy| |sy my ey]; simpl;
    rewrite ?(xorb_comm sx sy); try reflexivity.
  now rewrite Pos.mul_comm, Z.add_comm.
Qed.

Lemma SFmul_opp_r (X Y : spec_float) :
  SFmul prec emax X (SFopp Y) = SFopp (SFmul prec emax X Y).
Proof.
  destruct X as [sx|sx| |sx mx ex], Y as [sy|sy| |sy my ey]; simpl;
    try reflexivity;
    try (destruct sx, sy; reflexivity).
  replace (xorb sx (negb sy)) with (negb (xorb sx sy))
    by (destruct sx, sy; reflexivity).
  apply binary_round_aux_opp.
Qed.


Lemma SFdiv_opp_l (X Y : spec_float) :
  SFdiv prec emax (SFopp X) Y = SFopp (SFdiv prec emax X Y).
Proof.
  destruct X as [sx|sx| |sx mx ex], Y as [sy|sy| |sy my ey]; simpl;
    try reflexivity;
    try (destruct sx, sy; reflexivity).
  destruct (SFdiv_core_binary prec emax (Z.pos mx) ex (Z.pos my) ey)
    as [[mz ez] lz].
  replace (xorb (negb sx) sy) with (negb (xorb sx sy))
    by (destruct sx, sy; reflexivity).
  apply binary_round_aux_opp.
Qed.

Lemma SFsub_swap (X Y : spec_float) :
  SFsub prec emax Y X = SFopp (SFsub prec emax X Y) \/
  SFsub prec emax Y X = SFsub prec emax X Y.
Proof.
  destruct X as [sx|sx| |sx mx ex], Y as [sy|sy| |sy my ey]; simpl;
    try (left; reflexivity);
    try (right; reflexivity);
    try (destruct sx, sy; (left; reflexivity) || (right; reflexivity)).
  rewrite (Z.min_comm ey ex).
  set (cx := cond_Zopp sx _). set (cy := cond_Zopp sy _).
  replace (cy - cx)%Z with (- (cx - cy))%Z by lia.
  apply binary_normalize_opp.
Qed.

(** ** Algebra of the primitive operations *)

Lemma mul_comm (x y : float) : x * y = y * x.
Proof.
  apply Prim2SF_inj. rewrite !mul_spec. apply SFmul_comm.
Qed.

Lemma mul_opp_r (x y : float) : x * (- y) = - (x * y).
Proof.
  apply Prim2SF_inj. rewrite opp_spec, !mul_spec, opp_spec.
  apply SFmul_opp_r.
Qed.

Lemma mul_opp_l (x y : float) : (- x) * y = - (x * y).
Proof.
  rewrite (mul_comm (- x) y), mul_opp_r, (mul_comm y x). reflexivity.
Qed.

Lemma opp_involutive (x : float) : - (- x) = x.
Proof.
  apply Prim2SF_inj. rewrite !opp_spec. apply SFopp_involutive.
Qed.

Lemma mul_opp_opp (x y : float) : (- x) * (- y) = x * y.
Proof.
  rewrite mul_opp_l, mul_opp_r. apply opp_involutive.
Qed.

Lemma div_opp_l (x y : float) : (- x) / y = - (x / y).
Proof.
  apply Prim2SF_inj. rewrite opp_spec, !div_spec, opp_spec.
  apply SFdiv_opp_l.
Qed.

Lemma sub_swap (x y : float) : y - x = - (x - y) \/ y - x = x - y.
Proof.
  destruct (SFsub_swap (Prim2SF x) (Prim2SF y)) as [E | E].
  - left. apply Prim2SF_inj. rewrite opp_spec, !sub_spec. exact E.
  - right. apply Prim2SF_inj. rewrite !sub_spec. exact E.
Qed.


(** ** Order *)

Lemma SFcompare_antisym (X Y : spec_float) :
  SFcompare Y X = option_map CompOpp (SFcompare X Y).
Proof.
  destruct X as [sx|sx| |sx mx ex], Y as [sy|sy| |sy my ey]; simpl;
    try reflexivity;
    try (destruct sx; reflexivity);
    try (destruct sy; reflexivity);
    try (destruct sx, sy; reflexivity).
  f_equal.
  destruct sx, sy; try reflexivity;
    rewrite (Z.compare_antisym ex ey);
    destruct (ex ?= ey)%Z; simpl; try reflexivity;
    rewrite ?(Pos.compare_cont_antisym mx my Eq); simpl;
    rewrite ?CompOpp_involutive; reflexivity.
Qed.

Lemma SFleb_trans (X Y Z : spec_float) :
  SFleb X Y = true -> SFleb Y Z = true -> SFleb X Z = true.
Proof.
  unfold SFleb.
  destruct X as [sx|sx| |sx mx ex], Y as [sy|sy| |sy my ey],
           Z as [sz|sz| |sz mz ez]; cbn [SFcompare];
    try discriminate; try reflexivity;
    try (destruct sx, sy, sz; (reflexivity || discriminate));
    try (destruct sx, sy; (reflexivity || discriminate));
    try (destruct sx, sz; (reflexivity || discriminate));
    try (destruct sy, sz; (reflexivity || discriminate));
    try (destruct sx; (reflexivity || discriminate));
    try (destruct sy; (reflexivity || discriminate));
    try (destruct sz; (reflexivity || discriminate)).
  all: change PosDef.Pos.compare_cont with Pos.compare_cont;
       change (Pos.compare_cont Eq) with Pos.compare.
  all: destruct sx, sy, sz; try discriminate; try reflexivity.
  all: destruct (Z.compare_spec ex ey); try discriminate;
       destruct (Z.compare_spec ey ez); try discriminate;
       destruct (Z.compare_spec ex ez); try lia; try reflexivity; subst.
  all: destruct (Pos.compare_spec mx my); try discriminate;
       destruct (Pos.compare_spec my mz); try discriminate;
       destruct (Pos.compare_spec mx mz); try lia; try reflexivity.
Qed.

Lemma leb_trans (x y z : float) :
  (x <=? y) = true -> (y <=? z) = true -> (x <=? z) = true.
Proof. rewrite !leb_spec. apply SFleb_trans. Qed.

Lemma leb_not_nan (x y : float) :
  (x <=? y) = true -> is_nan x = false /\ is_nan y = false.
Proof.
  rewrite leb_spec, !is_nan_spec. unfold SFleb.
  destruct (Prim2SF x), (Prim2SF y); simpl; auto; discriminate.
Qed.

Lemma ltb_leb (x y : float) : (x <? y) = true -> (x <=? y) = true.
Proof.
  rewrite ltb_spec, leb_spec. unfold SFltb, SFleb.
  destruct (SFcompare _ _) as [[]|]; auto.
Qed.

Lemma leb_not_ltb (x y : float) : (x <=? y) = true -> (y <? x) = false.
Proof.
  rewrite ltb_spec, leb_spec. unfold SFltb, SFleb.
  rewrite (SFcompare_antisym (Prim2SF x) (Prim2SF y)).
  destruct (SFcompare _ _) as [[]|]; simpl; auto; discriminate.
Qed.

Lemma not_ltb_leb (x y : float) :
  is_nan x = false -> is_nan y = false ->
  (y <? x) = false -> (x <=? y) = true.
Proof.
  rewrite ltb_spec, leb_spec, !is_nan_spec. unfold SFltb, SFleb.
  rewrite (SFcompare_antisym (Prim2SF x) (Prim2SF y)).
  destruct (Prim2SF x) eqn:Ex; try discriminate;
    destruct (Prim2SF y) eqn:Ey; try discriminate; intros _ _;
    destruct (SFcompare _ _) as [[]|] eqn:Ec; simpl; auto;
    simpl in Ec; try discriminate.
Qed.


(** ** Digits and shifts *)

Lemma digits2_pos_size (p : positive) : digits2_pos p = Pos.size p.
Proof. induction p; simpl; congruence. Qed.

Lemma digits2_pos_bounds (p : positive) :
  (2 ^ (Z.pos (digits2_pos p) - 1) <= Z.pos p < 2 ^ Z.pos (digits2_pos p))%Z.
Proof.
  rewrite digits2_pos_size. split.
  - pose proof (Pos.size_le p) as Hle.
    apply Pos2Z.pos_le_pos in Hle. rewrite Pos2Z.inj_pow in Hle.
    assert (Z.pos (Pos.size p) = Z.succ (Z.pos (Pos.size p) - 1)) as E by lia.
    rewrite E in Hle. clear E.
    rewrite Z.pow_succ_r in Hle by lia.
    set (k := (2 ^ (Z.pos (Pos.size p) - 1))%Z) in *.
    change (Z.pos p~0) with (2 * Z.pos p)%Z in Hle.
    lia.
  - pose proof (Pos.size_gt p) as Hgt.
    apply Pos2Z.pos_lt_pos in Hgt. now rewrite Pos2Z.inj_pow in Hgt.
Qed.

Lemma Zdigits2_nonneg (m : Z) : (0 <= Zdigits2 m)%Z.
Proof. destruct m; simpl; lia. Qed.

Lemma Zdigits2_le (m k : Z) :
  (0 <= m < 2 ^ k)%Z -> (0 <= k)%Z -> (Zdigits2 m <= k)%Z.
Proof.
  intros [Hm Hlt] Hk. destruct m as [|p|p]; simpl; try lia.
  destruct (digits2_pos_bounds p) as [Hlo _].
  assert (2 ^ (Z.pos (digits2_pos p) - 1) < 2 ^ k)%Z as Hpow by lia.
  apply Z.pow_lt_mono_r_iff in Hpow; lia.
Qed.

Lemma shr_1_m (mrs : shr_record) :
  (0 <= shr_m mrs)%Z -> shr_m (shr_1 mrs) = (shr_m mrs / 2)%Z.
Proof.
  destruct mrs as [m r s]; simpl. intros Hm.
  destruct m as [|[p|p|]|p]; simpl; try lia; try reflexivity.
  - rewrite Pos2Z.inj_xI.
    apply Z.div_unique with (r := 1%Z); lia.
  - rewrite Pos2Z.inj_xO.
    apply Z.div_unique with (r := 0%Z); lia.
Qed.

Lemma iter_pos_shr_1_m (n : positive) (mrs : shr_record) :
  (0 <= shr_m mrs)%Z ->
  shr_m (iter_pos shr_1 n mrs) = (shr_m mrs / 2 ^ Z.pos n)%Z.
Proof.
  revert mrs. induction n as [n IH | n IH |]; intros mrs Hm; cbn [iter_pos].
  - assert (0 <= shr_m (shr_1 mrs))%Z as H1
        by (rewrite shr_1_m by assumption; apply Z.div_pos; lia).
    assert (0 <= shr_m (iter_pos shr_1 n (shr_1 mrs)))%Z as H2
        by (rewrite IH by assumption; apply Z.div_pos; lia).
    rewrite IH, IH, shr_1_m by assumption.
    rewrite !Z.div_div by lia.
    f_equal. rewrite Pos2Z.inj_xI.
    rewrite <- Z.pow_add_r, <- (Z.pow_1_r 2) at 1 by lia.
    rewrite <- Z.pow_add_r by lia. f_equal. lia.
  - assert (0 <= shr_m (iter_pos shr_1 n mrs))%Z as H2
        by (rewrite IH by assumption; apply Z.div_pos; lia).
    rewrite IH, IH by assumption.
    rewrite !Z.div_div by lia.
    f_equal. rewrite Pos2Z.inj_xO.
    rewrite <- Z.pow_add_r by lia. f_equal. lia.
  - rewrite shr_1_m by assumption. reflexivity.
Qed.

Lemma shr_record_of_loc_m (m : Z) (l : location) :
  shr_m (shr_record_of_loc m l) = m.
Proof. destruct l as [|[]]; reflexivity. Qed.

(** What [shr_fexp] does to a non-negative mantissa. *)
Lemma shr_fexp_spec (m e : Z) (l : location) :
  (0 <= m)%Z ->
  let n := (fexp prec emax (Zdigits2 m + e) - e)%Z in
  (0 < n)%Z /\
    shr_m (fst (shr_fexp prec emax m e l)) = (m / 2 ^ n)%Z /\
    snd (shr_fexp prec emax m e l) = (e + n)%Z
  \/
  (n <= 0)%Z /\
    shr_m (fst (shr_fexp prec emax m e l)) = m /\
    snd (shr_fexp prec emax m e l) = e.
Proof.
  intros Hm n. unfold shr_fexp. fold n. unfold shr.
  destruct n as [|p|p] eqn:En.
  - right. simpl. rewrite shr_record_of_loc_m. repeat split; lia.
  - left. simpl. rewrite iter_pos_shr_1_m
      by (rewrite shr_record_of_loc_m; assumption).
    rewrite shr_record_of_loc_m. repeat split; lia.
  - right. simpl. rewrite shr_record_of_loc_m. repeat split; lia.
Qed.

Lemma round_nearest_even_bounds (m : Z) (l : location) :
  (m <= round_nearest_even m l <= m + 1)%Z.
Proof.
  destruct l as [|[]]; simpl; try lia. destruct (Z.even m); lia.
Qed.


Lemma Zdigits2_gt (m : Z) : (0 <= m)%Z -> (m < 2 ^ Zdigits2 m)%Z.
Proof.
  destruct m as [|p|p]; simpl; intros Hm; try lia.
  apply digits2_pos_bounds.
Qed.

(** ** Rounding never cancels and, away from the largest exponents, never
    overflows *)

Lemma shr_fexp_positive (m e : Z) (l : location) :
  (0 < m)%Z -> (emin <= e)%Z ->
  (0 < shr_m (fst (shr_fexp prec emax m e l)))%Z /\
  (emin <= snd (shr_fexp prec emax m e l))%Z.
Proof.
  intros Hm He.
  destruct (shr_fexp_spec m e l) as [(Hn & Hs & Hx) | (Hn & Hs & Hx)];
    try lia; rewrite Hs, Hx; [| lia ..].
  unfold fexp, SpecFloat.emin, prec, emax in *.
  destruct m as [|p|p]; try lia. simpl Zdigits2 in *.
  destruct (digits2_pos_bounds p) as [Hlo _].
  set (d := Z.pos (digits2_pos p)) in *.
  assert (Z.max (d + e - 53) (3 - 1024 - 53) - e = d - 53)%Z as En by lia.
  rewrite En in *. split; [| lia].
  apply Z.div_str_pos. split; [apply Z.pow_pos_nonneg; lia |].
  apply Z.le_trans with (2 ^ (d - 1))%Z; [| assumption].
  apply Z.pow_le_mono_r; lia.
Qed.

Lemma shr_fexp_bounds (m e : Z) (l : location) :
  (0 <= m)%Z ->
  (0 <= shr_m (fst (shr_fexp prec emax m e l)) <= m)%Z /\
  (snd (shr_fexp prec emax m e l) <=
     Z.max (Z.max e (Zdigits2 m + e - prec)) emin)%Z.
Proof.
  intros Hm.
  destruct (shr_fexp_spec m e l) as [(Hn & Hs & Hx) | (Hn & Hs & Hx)];
    try lia; rewrite Hs, Hx; [| lia ..].
  set (n := (fexp prec emax (Zdigits2 m + e) - e)%Z) in *.
  assert (0 < 2 ^ n)%Z as Hp by (apply Z.pow_pos_nonneg; lia).
  repeat split.
  - apply Z.div_pos; lia.
  - apply Z.div_le_upper_bound; [lia |]. nia.
  - unfold n, fexp. lia.
Qed.

Lemma binary_round_aux_positive (s : bool) (m e : Z) (l : location) :
  (0 < m)%Z -> (emin <= e)%Z ->
  (exists m' e', binary_round_aux prec emax s m e l = S754_finite s m' e') \/
  binary_round_aux prec emax s m e l = S754_infinity s.
Proof.
  intros Hm He. unfold binary_round_aux.
  destruct (shr_fexp_positive m e l Hm He) as [H1 H1'].
  destruct (shr_fexp prec emax m e l) as [mrs' e']. simpl in H1, H1'.
  pose proof (round_nearest_even_bounds (shr_m mrs') (loc_of_shr_record mrs'))
    as Hr.
  set (m1 := round_nearest_even _ _) in *.
  destruct (shr_fexp_positive m1 e' loc_Exact) as [H2 _]; try lia.
  destruct (shr_fexp prec emax m1 e' loc_Exact) as [mrs'' e'']. simpl in H2.
  destruct (shr_m mrs'') as [|q|q]; try lia.
  destruct (e'' <=? emax - prec)%Z; [left; eauto | right; reflexivity].
Qed.

Lemma binary_round_aux_small (s : bool) (m e : Z) (l : location) :
  (0 <= m)%Z -> (Zdigits2 m <= 200)%Z -> (e <= 0)%Z ->
  binary_round_aux prec emax s m e l = S754_zero s \/
  exists m' e', binary_round_aux prec emax s m e l = S754_finite s m' e'.
Proof.
  intros Hm Hd He. unfold binary_round_aux.
  destruct (shr_fexp_bounds m e l Hm) as [H1 H1'].
  destruct (shr_fexp prec emax m e l) as [mrs' e']. simpl in H1, H1'.
  pose proof (round_nearest_even_bounds (shr_m mrs') (loc_of_shr_record mrs'))
    as Hr.
  set (m1 := round_nearest_even _ _) in *.
  assert (0 <= m1)%Z as Hm1 by lia.
  destruct (shr_fexp_bounds m1 e' loc_Exact Hm1) as [H2 H2'].
  assert (Zdigits2 m1 <= 201)%Z as Hd1.
  { apply Zdigits2_le; [| lia]. split; [assumption |].
    pose proof (Zdigits2_gt m Hm) as Hg.
    assert (2 ^ Zdigits2 m <= 2 ^ 200)%Z
      by (apply Z.pow_le_mono_r; [lia | assumption]).
    assert (2 ^ 201 = 2 * 2 ^ 200)%Z by reflexivity.
    lia. }
  destruct (shr_fexp prec emax m1 e' loc_Exact) as [mrs'' e''].
  simpl in H2, H2'.
  unfold prec, emax, SpecFloat.emin in *.
  destruct (shr_m mrs'') as [|q|q]; try lia; [left; reflexivity |].
  right. destruct (Z.leb_spec e'' (1024 - 53)); [eauto | lia].
Qed.


Lemma binary_round_positive (s : bool) (m : positive) (e : Z) :
  (emin <= e)%Z ->
  (exists m' e', binary_round prec emax s m e = S754_finite s m' e') \/
  binary_round prec emax s m e = S754_infinity s.
Proof.
  intros He. unfold binary_round.
  destruct (shl_align m e _) as [mz ez] eqn:Es.
  apply binary_round_aux_positive; [lia |].
  unfold shl_align in Es.
  destruct (fexp prec emax (Z.pos (digits2_pos m) + e) - e)%Z eqn:En;
    inversion Es; subst; try assumption.
  unfold fexp. lia.
Qed.

Lemma binary_normalize_sign (D e : Z) :
  (emin <= e)%Z ->
  SFltb (S754_zero false) (binary_normalize prec emax D e false) = (0 <? D)%Z.
Proof.
  intros He. destruct D as [|p|p]; simpl binary_normalize.
  - reflexivity.
  - destruct (binary_round_positive false p e He) as [(m' & e' & E) | E];
      rewrite E; reflexivity.
  - destruct (binary_round_positive true p e He) as [(m' & e' & E) | E];
      rewrite E; reflexivity.
Qed.

(** ** Valid binary64 values and their order *)

Lemma valid_binary_bounds (s : bool) (m : positive) (e : Z) :
  valid_binary (S754_finite s m e) = true ->
  (emin <= e <= emax - prec)%Z /\
  (Z.pos (digits2_pos m) <= prec)%Z /\
  (emin < e -> Z.pos (digits2_pos m) = prec)%Z.
Proof.
  unfold SpecFloat.valid_binary, bounded, canonical_mantissa, fexp.
  rewrite andb_true_iff, Z.eqb_eq, Z.leb_le. lia.
Qed.

Lemma Pos_iter_xO (m d : positive) :
  Z.pos (Pos.iter xO m d) = (Z.pos m * 2 ^ Z.pos d)%Z.
Proof.
  induction d as [|d IH] using Pos.peano_ind.
  - simpl. rewrite Pos2Z.inj_xO. lia.
  - rewrite Pos.iter_succ, Pos2Z.inj_xO, IH, Pos2Z.inj_succ.
    rewrite Z.pow_succ_r by lia. lia.
Qed.

Lemma shl_align_fst (m : positive) (e e' : Z) :
  (e' <= e)%Z ->
  Z.pos (fst (shl_align m e e')) = (Z.pos m * 2 ^ (e - e'))%Z.
Proof.
  intros He. unfold shl_align.
  destruct (e' - e)%Z as [|d|d] eqn:Ed; cbn [fst]; try lia.
  - replace (e - e')%Z with 0%Z by lia. rewrite Z.pow_0_r. lia.
  - rewrite Pos_iter_xO. f_equal. f_equal. lia.
Qed.

(** Of two valid finite values, the one with the smaller exponent has the
    smaller magnitude. *)
Lemma valid_exponent_lt (sx sy : bool) (mx my : positive) (ex ey : Z) :
  valid_binary (S754_finite sx mx ex) = true ->
  valid_binary (S754_finite sy my ey) = true ->
  (ex < ey)%Z ->
  (Z.pos mx < Z.pos my * 2 ^ (ey - ex))%Z.
Proof.
  intros Vx Vy Hlt.
  apply valid_binary_bounds in Vx, Vy.
  destruct Vx as (Bx & Dx & _), Vy as (By & _ & Dy).
  destruct (digits2_pos_bounds mx) as [_ Hx].
  destruct (digits2_pos_bounds my) as [Hy _].
  rewrite Dy in Hy by lia. unfold prec in *.
  assert (2 ^ Z.pos (digits2_pos mx) <= 2 ^ 53)%Z
    by (apply Z.pow_le_mono_r; lia).
  assert (2 ^ 1 <= 2 ^ (ey - ex))%Z by (apply Z.pow_le_mono_r; lia).
  change (2 ^ 53)%Z with (2 * 2 ^ (53 - 1))%Z in *.
  change (2 ^ 1)%Z with 2%Z in *.
  nia.
Qed.


Lemma finite_sub_sign (sx sy : bool) (mx my : positive) (ex ey : Z) :
  valid_binary (S754_finite sx mx ex) = true ->
  valid_binary (S754_finite sy my ey) = true ->
  (0 <? cond_Zopp sx (Z.pos (fst (shl_align mx ex (Z.min ex ey)))) -
        cond_Zopp sy (Z.pos (fst (shl_align my ey (Z.min ex ey)))))%Z =
  SFltb (S754_finite sy my ey) (S754_finite sx mx ex).
Proof.
  intros Vx Vy.
  rewrite !shl_align_fst by lia.
  unfold SFltb, SFcompare.
  assert (0 < Z.pos mx * 2 ^ (ex - Z.min ex ey))%Z as Px
    by (apply Z.mul_pos_pos; [lia | apply Z.pow_pos_nonneg; lia]).
  assert (0 < Z.pos my * 2 ^ (ey - Z.min ex ey))%Z as Py
    by (apply Z.mul_pos_pos; [lia | apply Z.pow_pos_nonneg; lia]).
  destruct sx, sy; cbn [cond_Zopp];
    try (apply Z.ltb_lt; lia); try (apply Z.ltb_ge; lia);
    destruct (Z.compare_spec ey ex) as [E | L | G]; subst.
  - (* both negative, same exponent *)
    rewrite Z.min_id, Z.sub_diag, Z.pow_0_r, !Z.mul_1_r in *.
    change (PosDef.Pos.compare_cont Eq my mx) with (Pos.compare my mx).
    destruct (Pos.compare_spec my mx) as [E | L | G]; cbn [CompOpp];
      [apply Z.ltb_ge | apply Z.ltb_ge | apply Z.ltb_lt]; lia.
  - apply Z.ltb_ge.
    pose proof (valid_exponent_lt true true my mx ey ex Vy Vx L) as Hv.
    rewrite Z.min_r, Z.sub_diag, Z.pow_0_r, Z.mul_1_r in * by lia. lia.
  - apply Z.ltb_lt.
    pose proof (valid_exponent_lt true true mx my ex ey Vx Vy G) as Hv.
    rewrite Z.min_l, Z.sub_diag, Z.pow_0_r, Z.mul_1_r in * by lia. lia.
  - (* both positive, same exponent *)
    rewrite Z.min_id, Z.sub_diag, Z.pow_0_r, !Z.mul_1_r in *.
    change (PosDef.Pos.compare_cont Eq my mx) with (Pos.compare my mx).
    destruct (Pos.compare_spec my mx) as [E | L | G];
      [apply Z.ltb_ge | apply Z.ltb_lt | apply Z.ltb_ge]; lia.
  - apply Z.ltb_lt.
    pose proof (valid_exponent_lt false false my mx ey ex Vy Vx L) as Hv.
    rewrite Z.min_r, Z.sub_diag, Z.pow_0_r, Z.mul_1_r in * by lia. lia.
  - apply Z.ltb_ge.
    pose proof (valid_exponent_lt false false mx my ex ey Vx Vy G) as Hv.
    rewrite Z.min_l, Z.sub_diag, Z.pow_0_r, Z.mul_1_r in * by lia. lia.
Qed.


Lemma SFsub_sign (X Y : spec_float) :
  valid_binary X = true -> valid_binary Y = true ->
  X <> S754_nan -> Y <> S754_nan ->
  SFltb (S754_zero false) (SFsub prec emax X Y) = SFltb Y X.
Proof.
  intros Vx Vy Nx Ny.
  destruct X as [sx|sx| |sx mx ex], Y as [sy|sy| |sy my ey];
    try congruence;
    try (destruct sx, sy; reflexivity);
    try (destruct sx; reflexivity);
    try (destruct sy; reflexivity).
  cbn [SFsub].
  rewrite binary_normalize_sign.
  - apply finite_sub_sign; assumption.
  - apply valid_binary_bounds in Vx, Vy. lia.
Qed.

(** The sign of a difference tells the order: the comparator
    [(a, b) => a - b] is consistent on numbers. *)
Lemma sub_positive (x y : float) :
  is_nan x = false -> is_nan y = false ->
  (0 <? x - y) = (y <? x).
Proof.
  rewrite !is_nan_spec. intros Nx Ny.
  rewrite !ltb_spec, sub_spec.
  change (Prim2SF 0) with (S754_zero false).
  apply SFsub_sign; try apply Prim2SF_valid.
  - intros E. rewrite E in Nx. discriminate.
  - intros E. rewrite E in Ny. discriminate.
Qed.

Lemma eqb_eq (x y : float) :
  (x =? y) = true -> is_zero x = false -> x = y.
Proof.
  rewrite eqb_spec, is_zero_spec. unfold SFeqb. intros Hc Hz.
  apply Prim2SF_inj.
  destruct (Prim2SF x) as [sx|sx| |sx mx ex],
           (Prim2SF y) as [sy|sy| |sy my ey]; simpl in Hc;
    try discriminate;
    try (destruct sx, sy; discriminate || reflexivity);
    try (destruct sx; discriminate);
    try (destruct sy; discriminate).
  destruct sx, sy; try discriminate;
    destruct (Z.compare_spec ex ey) as [E | L | G]; try discriminate; subst;
    change (PosDef.Pos.compare_cont Eq mx my) with (Pos.compare mx my) in Hc;
    destruct (Pos.compare_spec mx my) as [E | L | G]; try discriminate;
    subst; reflexivity.
Qed.

Lemma sub_diag (x : float) : is_finite x = true -> x - x = 0.
Proof.
  rewrite is_finite_spec. intros Hf. apply Prim2SF_inj. rewrite sub_spec.
  change (Prim2SF 0) with (S754_zero false).
  destruct (Prim2SF x) as [s|s| |s m e]; try discriminate.
  - destruct s; reflexivity.
  - cbn [SF64sub SFsub]. unfold SF64sub, SFsub. rewrite Z.sub_diag. reflexivity.
Qed.


(** ** Products that cannot overflow *)

Lemma SFmul_small (sx sy : bool) (mx my : positive) (ex ey : Z) :
  valid_binary (S754_finite sx mx ex) = true ->
  valid_binary (S754_finite sy my ey) = true ->
  (ex + ey <= 0)%Z ->
  SFmul prec emax (S754_finite sx mx ex) (S754_finite sy my ey)
    = S754_zero (xorb sx sy) \/
  exists m e,
    SFmul prec emax (S754_finite sx mx ex) (S754_finite sy my ey)
    = S754_finite (xorb sx sy) m e.
Proof.
  intros Vx Vy He. cbn [SFmul].
  apply binary_round_aux_small; try lia.
  apply valid_binary_bounds in Vx, Vy.
  destruct Vx as (_ & Dx & _), Vy as (_ & Dy & _).
  destruct (digits2_pos_bounds mx) as [_ Hx].
  destruct (digits2_pos_bounds my) as [_ Hy].
  unfold prec in *.
  assert (2 ^ Z.pos (digits2_pos mx) <= 2 ^ 53)%Z
    by (apply Z.pow_le_mono_r; lia).
  assert (2 ^ Z.pos (digits2_pos my) <= 2 ^ 53)%Z
    by (apply Z.pow_le_mono_r; lia).
  apply Zdigits2_le; [| lia]. rewrite Pos2Z.inj_mul.
  change (2 ^ 200)%Z with (2 ^ 53 * (2 ^ 53 * 2 ^ 94))%Z.
  assert (0 < 2 ^ 53)%Z by reflexivity.
  assert (1 <= 2 ^ 94)%Z by (compute; discriminate).
  nia.
Qed.

(** A number between [-c] and [c] is zero or finite, with an exponent no
    larger than that of [c]. *)
Lemma leb_exponent (c x : float) (mc : positive) (ec : Z) :
  Prim2SF c = S754_finite false mc ec ->
  (- c <=? x) = true -> (x <=? c) = true ->
  match Prim2SF x with
  | S754_zero _ => True
  | S754_finite _ _ e => (e <= ec)%Z
  | _ => False
  end.
Proof.
  intros Ec. rewrite !leb_spec, opp_spec, Ec. unfold SFleb. cbn [SFopp negb].
  destruct (Prim2SF x) as [s|s| |s m e]; cbn [SFcompare]; intros Hlo Hhi;
    auto; try discriminate; destruct s; try discriminate.
  - destruct (Z.compare_spec ec e); try discriminate; lia.
  - destruct (Z.compare_spec e ec); try discriminate; lia.
Qed.

Lemma bounded_finite (c x : float) (mc : positive) (ec : Z) :
  Prim2SF c = S754_finite false mc ec ->
  (- c <=? x) = true -> (x <=? c) = true -> is_finite x = true.
Proof.
  intros Ec Hlo Hhi. pose proof (leb_exponent c x mc ec Ec Hlo Hhi) as Hx.
  rewrite is_finite_spec. destruct (Prim2SF x); auto; contradiction.
Qed.

Lemma mul_zero_r_finite (s : bool) (X : spec_float) :
  X = S754_zero s \/ (exists m e, X = S754_finite s m e) ->
  SFmul prec emax X (S754_zero false) = S754_zero s.
Proof.
  intros [-> | (m & e & ->)]; cbn [SFmul]; destruct s; reflexivity.
Qed.

(** The product of two numbers no larger than 1 in magnitude, times zero,
    is zero: it is what remains of the longitude term of the haversine
    formula when the two points coincide. *)
Lemma unit_square_mul_zero (c : float) :
  (-1 <=? c) = true -> (c <=? 1) = true -> c * c * 0 = 0.
Proof.
  intros Hlo Hhi.
  pose proof (leb_exponent 1 c 4503599627370496 (-52) eq_refl Hlo Hhi) as Hc.
  pose proof (Prim2SF_valid c) as Vc.
  apply Prim2SF_inj. rewrite !mul_spec.
  change (Prim2SF 0) with (S754_zero false).
  destruct (Prim2SF c) as [s|s| |s m e] eqn:Ec; try contradiction.
  - destruct s; reflexivity.
  - replace (S754_zero false) with (S754_zero (xorb s s)) at 2
      by (destruct s; reflexivity).
    apply mul_zero_r_finite.
    apply SFmul_small; try assumption. lia.
Qed.


Lemma mul_finite (x y : float) (my : positive) (ey : Z) (k : Z) :
  Prim2SF y = S754_finite false my ey ->
  match Prim2SF x with
  | S754_zero _ => True
  | S754_finite _ _ e => (e <= k)%Z
  | _ => False
  end ->
  (k + ey <= 0)%Z ->
  is_finite (x * y) = true.
Proof.
  intros Ey Hx Hk. rewrite is_finite_spec, mul_spec.
  pose proof (Prim2SF_valid x) as Vx. pose proof (Prim2SF_valid y) as Vy.
  rewrite Ey in *.
  destruct (Prim2SF x) as [s|s| |s m e]; try contradiction.
  - reflexivity.
  - destruct (SFmul_small s false m my e ey Vx Vy) as [E | (m' & e' & E)];
      try lia; unfold SF64mul; rewrite E; reflexivity.
Qed.

(** ** Not-a-number and the infinities *)

Lemma not_finite_cases (x : float) :
  is_finite x = false -> x = nan \/ x = infinity \/ x = neg_infinity.
Proof.
  rewrite is_finite_spec. intros Hx.
  destruct (Prim2SF x) as [s|[]| |s m e] eqn:E; try discriminate;
    [right; right | right; left | left]; apply Prim2SF_inj; rewrite E;
    reflexivity.
Qed.

Lemma is_infinity_not_finite (x : float) :
  is_infinity x = true -> is_finite x = false.
Proof.
  rewrite is_infinity_spec, is_finite_spec.
  destruct (Prim2SF x); congruence.
Qed.

Lemma mul_nan_l (x : float) : nan * x = nan.
Proof. apply Prim2SF_inj. rewrite mul_spec. reflexivity. Qed.

Lemma mul_nan_r (x : float) : x * nan = nan.
Proof. rewrite mul_comm. apply mul_nan_l. Qed.

Lemma add_nan_l (x : float) : nan + x = nan.
Proof. apply Prim2SF_inj. rewrite add_spec. reflexivity. Qed.

Lemma add_nan_r (x : float) : x + nan = nan.
Proof.
  apply Prim2SF_inj. rewrite add_spec. change (Prim2SF nan) with S754_nan.
  destruct (Prim2SF x); reflexivity.
Qed.

Lemma leb_nan_l (x : float) : (nan <=? x) = false.
Proof. rewrite leb_spec. reflexivity. Qed.

Lemma mul_infinity_l (x y : float) (my : positive) (ey : Z) :
  Prim2SF y = S754_finite false my ey ->
  is_infinity x = true -> is_infinity (x * y) = true.
Proof.
  intros Ey. rewrite !is_infinity_spec, mul_spec, Ey.
  destruct (Prim2SF x); try discriminate. reflexivity.
Qed.

Lemma sub_infinity_l (x y : float) :
  is_infinity x = true -> is_finite (x - y) = false.
Proof.
  rewrite is_infinity_spec, is_finite_spec, sub_spec.
  destruct (Prim2SF x) as [|sx| |]; try discriminate. intros _.
  destruct (Prim2SF y) as [sy|sy| |sy my ey]; try reflexivity.
  destruct sx, sy; reflexivity.
Qed.

Lemma div_two_not_finite (x : float) :
  is_finite x = false -> is_finite (x / 2) = false.
Proof.
  rewrite !is_finite_spec, div_spec.
  change (Prim2SF 2) with (S754_finite false 4503599627370496 (-51)).
  destruct (Prim2SF x); try discriminate; reflexivity.
Qed.

Lemma is_finite_opp (x : float) : is_finite (- x) = is_finite x.
Proof.
  rewrite !is_finite_spec, opp_spec. destruct (Prim2SF x); reflexivity.
Qed.

Lemma div_zero_positive (x : float) : (0 <? x) = true -> 0 / x = 0.
Proof.
  rewrite ltb_spec. intros Hx. apply Prim2SF_inj. rewrite div_spec.
  change (Prim2SF 0) with (S754_zero false) in *.
  destruct (Prim2SF x) as [s|[]| |[] m e]; try discriminate; reflexivity.
Qed.

End FloatFacts.

Import FloatFacts.

(* ================================================================== *)
(** * The small-angle host meets the assumptions on a host *)
(* ================================================================== *)

Module SmallAngleFacts.

#[export] Instance SmallAngle_spec : HostSpec SmallAngle.host.
Proof.
  constructor; cbn [Math_sin Math_cos Math_atan2 SmallAngle.host].
  - reflexivity.
  - reflexivity.
  - reflexivity.
  - reflexivity.
  - intros x. unfold SmallAngle.sin. rewrite is_finite_opp.
    destruct (is_finite x); reflexivity.
  - intros x Hx. unfold SmallAngle.cos. rewrite Hx. split; reflexivity.
  - intros x. unfold SmallAngle.atan2.
    apply Prim2SF_inj. rewrite div_spec. reflexivity.
  - intros x Hx. unfold SmallAngle.atan2. apply div_zero_positive, Hx.
Qed.

End SmallAngleFacts.

(* ================================================================== *)
(** * The distance kernel *)
(* ================================================================== *)

Module HaversineFacts.
Import Haversine.
Section WithHost.
Context {H : Host} {HS : HostSpec H}.

Lemma sin_not_finite (x : float) : is_finite x = false -> Math_sin x = nan.
Proof.
  intros Hx. destruct (not_finite_cases x Hx) as [-> | [-> | ->]].
  - apply sin_nan.
  - apply sin_infinity.
  - apply sin_neg_infinity.
Qed.

(** Swapping the two points negates the half-difference of their angles,
    or leaves it as it is. *)
Lemma sin_half_swap (u v : float) :
  Math_sin ((u - v) / 2) = - Math_sin ((v - u) / 2) \/
  Math_sin ((u - v) / 2) = Math_sin ((v - u) / 2).
Proof.
  destruct (sub_swap v u) as [E | E]; rewrite E.
  - left. rewrite div_opp_l. apply sin_odd.
  - right. reflexivity.
Qed.

Lemma sin_half_swap_square (u v : float) :
  Math_sin ((u - v) / 2) * Math_sin ((u - v) / 2) =
  Math_sin ((v - u) / 2) * Math_sin ((v - u) / 2).
Proof.
  destruct (sin_half_swap u v) as [E | E]; rewrite E;
    [apply mul_opp_opp | reflexivity].
Qed.

Lemma sin_half_swap_scaled (p u v : float) :
  p * Math_sin ((u - v) / 2) * Math_sin ((u - v) / 2) =
  p * Math_sin ((v - u) / 2) * Math_sin ((v - u) / 2).
Proof.
  destruct (sin_half_swap u v) as [E | E]; rewrite E; [| reflexivity].
  rewrite (mul_opp_r p). apply mul_opp_opp.
Qed.

Lemma calculateDistance_swap (lat1 lng1 lat2 lng2 : float) :
  calculateDistance lat1 lng1 lat2 lng2 = calculateDistance lat2 lng2 lat1 lng1.
Proof.
  unfold calculateDistance. cbv zeta.
  rewrite (sin_half_swap_square (toRadians lat2) (toRadians lat1)).
  rewrite (sin_half_swap_scaled _ (toRadians lng2) (toRadians lng1)).
  rewrite (mul_comm (Math_cos (toRadians lat1))).
  reflexivity.
Qed.

Lemma toRadians_finite (c x : float) (mc : positive) (ec : Z) :
  Prim2SF c = S754_finite false mc ec -> (ec <= 58)%Z ->
  (- c <=? x) = true -> (x <=? c) = true ->
  is_finite (toRadians x) = true.
Proof.
  intros Ec Hec Hlo Hhi. unfold toRadians.
  apply (mul_finite x (Math_PI / 180) 5030569068109113 (-58) ec eq_refl).
  - pose proof (leb_exponent c x mc ec Ec Hlo Hhi) as Hx.
    destruct (Prim2SF x); auto.
  - lia.
Qed.

Lemma calculateDistance_self (lat lng : float) :
  (-90 <=? lat) = true -> (lat <=? 90) = true ->
  (-180 <=? lng) = true -> (lng <=? 180) = true ->
  calculateDistance lat lng lat lng = 0.
Proof.
  intros H1 H2 H3 H4.
  assert (is_finite (toRadians lat) = true) as Flat
    by (apply (toRadians_finite 90 lat 6333186975989760 (-46));
        [reflexivity | lia | assumption ..]).
  assert (is_finite (toRadians lng) = true) as Flng
    by (apply (toRadians_finite 180 lng 6333186975989760 (-45));
        [reflexivity | lia | assumption ..]).
  unfold calculateDistance. cbv zeta.
  rewrite !sub_diag by assumption.
  change (0 / 2) with zero. rewrite sin_zero. change zero with 0.
  destruct (cos_range (toRadians lat) Flat) as [Clo Chi].
  rewrite (unit_square_mul_zero _ Clo Chi).
  change (0 * 0 + 0 * 0) with 0.
  change (Math_sqrt 0) with zero. change (Math_sqrt (1 - 0)) with 1.
  rewrite atan2_zero_pos by reflexivity.
  reflexivity.
Qed.

Lemma calculateDistance_infinite (lat1 lng1 lat2 lng2 : float) :
  is_infinity lat2 = true \/ is_infinity lng2 = true ->
  calculateDistance lat1 lng1 lat2 lng2 = nan.
Proof.
  intros Hinf. unfold calculateDistance. cbv zeta.
  assert (forall x y, is_infinity x = true ->
            Math_sin ((toRadians x - y) / 2) = nan) as Hsin.
  { intros x y Hx. apply sin_not_finite, div_two_not_finite, sub_infinity_l.
    unfold toRadians.
    apply (mul_infinity_l x (Math_PI / 180) 5030569068109113 (-58)
             eq_refl Hx). }
  match goal with
  | |- Math_round (_ * (_ * Math_atan2 (Math_sqrt ?a) _)) = _ =>
      assert (a = nan) as Ea
  end.
  { destruct Hinf as [Hx | Hx]; rewrite (Hsin _ _ Hx).
    - rewrite mul_nan_l. apply add_nan_l.
    - rewrite mul_nan_r. apply add_nan_r. }
  rewrite Ea. change (Math_sqrt nan) with nan. rewrite atan2_nan_l.
  reflexivity.
Qed.

End WithHost.
End HaversineFacts.

(* ================================================================== *)
(** * Values and the map *)
(* ================================================================== *)

Module MapFacts.
Import Users Vocabulary.

Lemma eqb_sym (x y : float) : (x =? y) = (y =? x).
Proof.
  rewrite !eqb_spec. unfold SFeqb.
  rewrite (SFcompare_antisym (Prim2SF x) (Prim2SF y)).
  destruct (SFcompare (Prim2SF x) (Prim2SF y)) as [[]|]; reflexivity.
Qed.

Lemma SameValueZero_refl (k : Value) : SameValueZero k k = true.
Proof.
  destruct k as [| | b | n | s]; simpl; auto.
  - apply Bool.eqb_reflx.
  - unfold is_nan. destruct (n =? n); reflexivity.
  - apply String.eqb_refl.
Qed.

Lemma SameValueZero_sym (a b : Value) : SameValueZero a b = SameValueZero b a.
Proof.
  destruct a as [| | x | x | x], b as [| | y | y | y]; simpl; auto.
  - destruct x, y; reflexivity.
  - rewrite (eqb_sym x y), (andb_comm (is_nan x)). reflexivity.
  - apply String.eqb_sym.
Qed.

(** Truthy keys that the map identifies are the same value. *)
Lemma SameValueZero_eq (a b : Value) :
  SameValueZero a b = true -> ToBoolean a = true -> a = b.
Proof.
  destruct a as [| | x | x | x], b as [| | y | y | y]; simpl;
    try discriminate; intros He Ht.
  - apply Bool.eqb_prop in He. congruence.
  - apply negb_true_iff, orb_false_iff in Ht. destruct Ht as [Hz Hn].
    rewrite Hn in He. simpl in He. rewrite orb_false_r in He.
    f_equal. apply eqb_eq; assumption.
  - apply String.eqb_eq in He. congruence.
Qed.

Lemma Map_get_set_same (m : UserMap) (k : Value) (v : User) :
  Map_get (Map_set m k v) k = Some v.
Proof.
  induction m as [| [k' v'] t IH]; simpl.
  - now rewrite SameValueZero_refl.
  - destruct (SameValueZero k' k) eqn:E; simpl; rewrite E; auto.
Qed.

(** [set] leaves the entries under other keys as they are. *)
Lemma Map_set_others (m : UserMap) (k : Value) (v : User) :
  filter (fun e => negb (SameValueZero (fst e) k)) (Map_set m k v) =
  filter (fun e => negb (SameValueZero (fst e) k)) m.
Proof.
  induction m as [| [k' v'] t IH]; simpl.
  - now rewrite SameValueZero_refl.
  - destruct (SameValueZero k' k) eqn:E; simpl; rewrite E; simpl;
      congruence.
Qed.

Lemma Map_get_In (m : UserMap) (k : Value) (v : User) :
  Map_get m k = Some v ->
  exists k', In (k', v) m /\ SameValueZero k' k = true.
Proof.
  induction m as [| [k' v'] t IH]; simpl; try discriminate.
  destruct (SameValueZero k' k) eqn:E.
  - intros [= ->]. eauto.
  - intros Hg. destruct (IH Hg) as (k'' & Hin & Hk). eauto.
Qed.

Lemma In_Map_remove (m : UserMap) (k : Value) (e : Value * User) :
  In e (Map_remove m k) -> In e m.
Proof.
  induction m as [| [k' v'] t IH]; simpl; auto.
  destruct (SameValueZero k' k); simpl; intuition.
Qed.

Lemma keyed_set (m : UserMap) (k : Value) (v : User) :
  Forall keyed m -> username v = k -> ToBoolean k = true ->
  Forall keyed (Map_set m k v).
Proof.
  intros Hm Hv Hk. induction Hm as [| [k' v'] t [Hu Ht] Hm IH]; simpl.
  - repeat constructor; assumption.
  - destruct (SameValueZero k' k) eqn:E; constructor; auto.
    + apply SameValueZero_eq in E; [| assumption]. subst k'.
      split; assumption.
    + split; assumption.
Qed.

Lemma keyed_remove (m : UserMap) (k : Value) :
  Forall keyed m -> Forall keyed (Map_remove m k).
Proof.
  rewrite !Forall_forall. intros Hm e He.
  apply Hm, In_Map_remove with k, He.
Qed.

Lemma keyed_mockUsers (loaded : nat -> string) :
  Forall (fun u => ToBoolean (username u) = true) (mockUsers loaded).
Proof. unfold mockUsers. repeat constructor. Qed.

Lemma keyed_initializeUsers (loaded : nat -> string) (users : UserMap) :
  Forall keyed users -> Forall keyed (initializeUsers loaded users).
Proof.
  unfold initializeUsers. generalize (keyed_mockUsers loaded).
  generalize (mockUsers loaded) as l. intros l Hl. revert users.
  induction Hl as [| u l Hu Hl IH]; intros users Hm; simpl; auto.
  apply IH, keyed_set; auto.
Qed.

Lemma keyed_addUser (now : string) (userData : UserData) (users : UserMap) :
  Forall keyed users -> Forall keyed (fst (addUser now userData users)).
Proof.
  intros Hm. unfold addUser.
  destruct (ToBoolean (ud_username userData)) eqn:Eu; simpl; auto.
  destruct (negb (ToBoolean (ud_latitude userData))
            || negb (ToBoolean (ud_longitude userData))); simpl; auto.
  apply keyed_set; auto.
Qed.

Lemma keyed_visitCleanup {H : Host} (now maxAgeMs : float)
  (l : list (Value * User)) (st : UserMap * nat) :
  Forall keyed (fst st) ->
  Forall keyed (fst (fold_left (visitCleanup now maxAgeMs) l st)).
Proof.
  revert st. induction l as [| [k u] l IH]; intros st Hm; simpl; auto.
  apply IH. destruct (maxAgeMs <? now - Date_time (lastSeen u)); simpl; auto.
  apply keyed_remove, Hm.
Qed.

Lemma keyed_cleanupOldUsers {H : Host} (now maxAgeMs : float)
  (users : UserMap) :
  Forall keyed users -> Forall keyed (fst (cleanupOldUsers now maxAgeMs users)).
Proof.
  intros Hm. apply keyed_visitCleanup. exact Hm.
Qed.

Lemma reachable_keyed {H : Host} (users : UserMap) :
  reachable users -> Forall keyed users.
Proof.
  induction 1.
  - apply keyed_initializeUsers. constructor.
  - apply keyed_initializeUsers. assumption.
  - apply keyed_addUser. assumption.
  - apply keyed_remove. assumption.
  - apply keyed_cleanupOldUsers. assumption.
Qed.

End MapFacts.

(* ================================================================== *)
(** * The user directory *)
(* ================================================================== *)

Module UsersFacts.
Import Users Vocabulary MapFacts.

Lemma Map_get_None (m : UserMap) (k : Value) :
  Map_get m k = None <->
  forall e, In e m -> SameValueZero (fst e) k = false.
Proof.
  induction m as [| [k' v'] t IH]; simpl.
  - split; [intros _ e [] | reflexivity].
  - destruct (SameValueZero k' k) eqn:E; split.
    + discriminate.
    + intros Hall. specialize (Hall (k', v') (or_introl eq_refl)).
      simpl in Hall. congruence.
    + intros Hg e [<- | He]; [assumption | now apply IH].
    + intros Hall. apply IH. intros e He. apply Hall. now right.
Qed.

Lemma Map_has_false (m : UserMap) (k : Value) :
  Map_has m k = false <->
  forall e, In e m -> SameValueZero (fst e) k = false.
Proof.
  unfold Map_has. rewrite <- Map_get_None.
  destruct (Map_get m k); split; congruence.
Qed.

(** A well-formed map stays well-formed when an entry is taken out. *)
Lemma Map_wf_app_skip (pre : UserMap) (e : Value * User) (l : UserMap) :
  Map_wf (pre ++ e :: l) = true -> Map_wf (pre ++ l) = true.
Proof.
  induction pre as [| [k v] pre IH]; simpl.
  - destruct e as [k v]. intros Hw. apply andb_true_iff in Hw. tauto.
  - intros Hw. apply andb_true_iff in Hw. destruct Hw as [Hh Hw].
    apply andb_true_iff. split; [| auto].
    apply negb_true_iff in Hh. apply negb_true_iff.
    rewrite Map_has_false in *. intros x Hx. apply Hh.
    apply in_app_or in Hx. apply in_or_app. simpl. tauto.
Qed.

Lemma Map_wf_app_fresh (pre : UserMap) (e : Value * User) (l : UserMap) :
  Map_wf (pre ++ e :: l) = true ->
  forall p, In p pre -> SameValueZero (fst p) (fst e) = false.
Proof.
  induction pre as [| [k v] pre IH]; simpl; intros Hw p Hp; [contradiction |].
  apply andb_true_iff in Hw. destruct Hw as [Hh Hw].
  destruct Hp as [<- | Hp]; [| now apply IH].
  apply negb_true_iff in Hh. rewrite Map_has_false in Hh.
  simpl. rewrite SameValueZero_sym. apply Hh.
  apply in_or_app. right. now left.
Qed.

Lemma Map_remove_at (pre : UserMap) (e : Value * User) (l : UserMap) :
  (forall p, In p pre -> SameValueZero (fst p) (fst e) = false) ->
  Map_remove (pre ++ e :: l) (fst e) = pre ++ l.
Proof.
  induction pre as [| [k v] pre IH]; simpl; intros Hfresh.
  - destruct e as [k v]. simpl. now rewrite SameValueZero_refl.
  - pose proof (Hfresh (k, v) (or_introl eq_refl)) as E. simpl in E.
    rewrite E. f_equal.
    apply IH. intros p Hp. apply Hfresh. now right.
Qed.

Lemma Map_wf_filter (f : Value * User -> bool) (m : UserMap) :
  Map_wf m = true -> Map_wf (filter f m) = true.
Proof.
  induction m as [| [k v] m IH]; simpl; auto.
  intros Hw. apply andb_true_iff in Hw. destruct Hw as [Hh Hw].
  assert (Map_has (filter f m) k = false) as Hf.
  { apply negb_true_iff in Hh. rewrite Map_has_false in *.
    intros x Hx. apply Hh. apply filter_In in Hx. tauto. }
  destruct (f (k, v)); simpl; auto.
  rewrite Hf. simpl. auto.
Qed.

Lemma In_Map_set_key (m : UserMap) (k : Value) (v : User)
  (e : Value * User) :
  In e (Map_set m k v) -> (exists e0, In e0 m /\ fst e = fst e0) \/ fst e = k.
Proof.
  induction m as [| [k' v'] t IH]; simpl.
  - intros [<- | []]. now right.
  - destruct (SameValueZero k' k); simpl.
    + intros [<- | He]; left; [exists (k', v') | exists e]; simpl; auto.
    + intros [<- | He].
      * left. exists (k', v'). simpl. auto.
      * destruct (IH He) as [(e0 & H0 & E0) | Ek]; [left | now right].
        exists e0. auto.
Qed.

Lemma Map_wf_set (m : UserMap) (k : Value) (v : User) :
  Map_wf m = true -> Map_wf (Map_set m k v) = true.
Proof.
  induction m as [| [k' v'] t IH]; simpl; auto.
  intros Hw. apply andb_true_iff in Hw. destruct Hw as [Hh Hw].
  destruct (SameValueZero k' k) eqn:E; simpl.
  - now rewrite Hh, Hw.
  - rewrite (IH Hw), andb_true_r.
    apply negb_true_iff in Hh. apply negb_true_iff.
    rewrite Map_has_false in *. intros e He.
    destruct (In_Map_set_key t k v e He) as [(e0 & H0 & E0) | Ek].
    + rewrite E0. now apply Hh.
    + rewrite Ek, SameValueZero_sym. exact E.
Qed.

Lemma Map_wf_remove (m : UserMap) (k : Value) :
  Map_wf m = true -> Map_wf (Map_remove m k) = true.
Proof.
  induction m as [| [k' v'] t IH]; simpl; auto.
  intros Hw. apply andb_true_iff in Hw. destruct Hw as [Hh Hw].
  destruct (SameValueZero k' k); simpl; auto.
  rewrite (IH Hw), andb_true_r.
  apply negb_true_iff in Hh. apply negb_true_iff.
  rewrite Map_has_false in *. intros e He.
  apply Hh, In_Map_remove with k, He.
Qed.

Lemma Map_wf_initializeUsers (loaded : nat -> string) (users : UserMap) :
  Map_wf users = true -> Map_wf (initializeUsers loaded users) = true.
Proof.
  unfold initializeUsers. generalize (mockUsers loaded) as l.
  intros l. revert users.
  induction l as [| u l IH]; intros users Hw; simpl; auto.
  apply IH, Map_wf_set, Hw.
Qed.

Lemma Map_wf_visitCleanup {H : Host} (now maxAgeMs : float)
  (l : list (Value * User)) (st : UserMap * nat) :
  Map_wf (fst st) = true ->
  Map_wf (fst (fold_left (visitCleanup now maxAgeMs) l st)) = true.
Proof.
  revert st. induction l as [| [k u] l IH]; intros st Hw; simpl; auto.
  apply IH. destruct (maxAgeMs <? now - Date_time (lastSeen u)); simpl; auto.
  apply Map_wf_remove, Hw.
Qed.

(** Every reachable directory is a map: no key is stored twice. *)
Lemma reachable_wf {H : Host} (users : UserMap) :
  reachable users -> Map_wf users = true.
Proof.
  induction 1.
  - now apply Map_wf_initializeUsers.
  - now apply Map_wf_initializeUsers.
  - unfold addUser.
    destruct (negb (ToBoolean (ud_username userData)) || _ || _); simpl; auto.
    now apply Map_wf_set.
  - now apply Map_wf_remove.
  - now apply Map_wf_visitCleanup.
Qed.

Section WithHost.
Context {H : Host}.

Lemma fold_visitCleanup (now maxAgeMs : float) (l pre : UserMap) (n : nat) :
  Map_wf (pre ++ l) = true ->
  fold_left (visitCleanup now maxAgeMs) l (pre ++ l, n) =
  (pre ++ filter (fun e => negb (expired now maxAgeMs e)) l,
   (n + List.length (filter (expired now maxAgeMs) l))%nat).
Proof.
  revert pre n. induction l as [| [k u] l IH]; intros pre n Hw.
  - simpl. rewrite Nat.add_0_r. reflexivity.
  - cbn [fold_left filter].
    change (visitCleanup now maxAgeMs (pre ++ (k, u) :: l, n) (k, u))
      with (if expired now maxAgeMs (k, u)
            then (fst (Map_delete (pre ++ (k, u) :: l) k), S n)
            else (pre ++ (k, u) :: l, n)).
    destruct (expired now maxAgeMs (k, u)) eqn:E; cbn [negb].
    + unfold Map_delete. cbn [fst snd].
      pose proof (Map_remove_at pre (k, u) l
                    (Map_wf_app_fresh pre (k, u) l Hw)) as Er.
      cbn [fst] in Er. rewrite Er.
      rewrite IH by (apply Map_wf_app_skip with (k, u), Hw).
      cbn [List.length]. f_equal. lia.
    + replace (pre ++ (k, u) :: l) with ((pre ++ [(k, u)]) ++ l) in *
        by (rewrite <- app_assoc; reflexivity).
      rewrite IH by assumption.
      rewrite <- app_assoc. reflexivity.
Qed.

Lemma cleanupOldUsers_filter (now maxAgeMs : float) (users : UserMap) :
  Map_wf users = true ->
  cleanupOldUsers now maxAgeMs users =
  (filter (fun e => negb (expired now maxAgeMs e)) users,
   List.length (filter (expired now maxAgeMs) users)).
Proof.
  intros Hw. unfold cleanupOldUsers.
  apply (fold_visitCleanup now maxAgeMs users [] 0%nat Hw).
Qed.

Lemma filter_none {A : Type} (f : A -> bool) (l : list A) :
  filter f (filter (fun x => negb (f x)) l) = [].
Proof.
  induction l as [| x l IH]; simpl; auto.
  destruct (f x) eqn:E; simpl; rewrite ?E; auto.
Qed.

Lemma filter_idem {A : Type} (f : A -> bool) (l : list A) :
  filter f (filter f l) = filter f l.
Proof.
  induction l as [| x l IH]; simpl; auto.
  destruct (f x) eqn:E; simpl; rewrite ?E; congruence.
Qed.

End WithHost.
End UsersFacts.

(* ================================================================== *)
(** * The proximity query *)
(* ================================================================== *)

Module NearbyFacts.
Import Haversine Users Vocabulary HaversineFacts.

(** ** [Array.prototype.sort] with the comparator [(a, b) => a - b] *)

Section Sort.
Context {A : Type} (key : A -> float).

Let compareFn (a b : A) : float := key a - key b.
Let ascending (a b : A) : Prop := (key a <=? key b) = true.
Let numeric (a : A) : Prop := is_nan (key a) = false.

Lemma sortInsert_perm (x : A) (l : list A) :
  Permutation (sortInsert compareFn x l) (x :: l).
Proof.
  induction l as [| y t IH]; simpl; auto.
  destruct (0 <? compareFn x y); auto.
  apply perm_trans with (y :: x :: t); [now constructor | constructor].
Qed.

Lemma Array_sort_perm (l : list A) :
  Permutation (Array_sort compareFn l) l.
Proof.
  induction l as [| x t IH]; simpl; auto.
  apply perm_trans with (x :: Array_sort compareFn t).
  - apply sortInsert_perm.
  - now constructor.
Qed.

Lemma sortInsert_HdRel (y x : A) (l : list A) :
  HdRel ascending y l -> ascending y x ->
  HdRel ascending y (sortInsert compareFn x l).
Proof.
  intros Hl Hx. destruct l as [| z t]; simpl.
  - now constructor.
  - destruct (0 <? compareFn x z); constructor; auto.
    now inversion Hl.
Qed.

Lemma sortInsert_sorted (x : A) (l : list A) :
  numeric x -> Forall numeric l ->
  Sorted ascending l -> Sorted ascending (sortInsert compareFn x l).
Proof.
  intros Nx Nl Hs. induction Hs as [| y t Hs IH Hd]; simpl.
  - repeat constructor.
  - inversion Nl as [| ? ? Ny Nt]; subst.
    unfold compareFn at 1. rewrite sub_positive by assumption.
    destruct (key y <? key x) eqn:E.
    + constructor; auto.
      apply sortInsert_HdRel; auto. apply ltb_leb, E.
    + constructor; [now constructor |].
      constructor. apply not_ltb_leb; assumption.
Qed.

Lemma Array_sort_sorted (l : list A) :
  Forall numeric l -> Sorted ascending (Array_sort compareFn l).
Proof.
  induction 1 as [| x t Nx Nt IH]; simpl.
  - constructor.
  - apply sortInsert_sorted; auto.
    apply (Permutation_Forall (Permutation_sym (Array_sort_perm t))), Nt.
Qed.

(** In the sorted array every element is at most every later one. *)
Lemma Array_sort_ascending (l : list A) :
  Forall numeric l -> StronglySorted ascending (Array_sort compareFn l).
Proof.
  intros Hl. apply Sorted_StronglySorted; [| now apply Array_sort_sorted].
  intros a b c. apply leb_trans.
Qed.

End Sort.

Section WithHost.
Context {H : Host}.

Lemma fold_visitNearby (lat lng radius : float) (excludeUser : Value)
  (l : UserMap) (acc : list NearbyUser) :
  fold_left (visitNearby lat lng radius excludeUser) l acc =
  acc ++ map (annotated lat lng)
           (filter (scanned lat lng radius excludeUser) l).
Proof.
  revert acc. induction l as [| [k u] l IH]; intros acc; simpl.
  - now rewrite app_nil_r.
  - rewrite IH. unfold scanned at 2. cbn [fst snd].
    destruct (ToBoolean excludeUser && StrictEquals k excludeUser);
      cbn [negb andb]; auto.
    destruct (isNaN (latitude u) || isNaN (longitude u)); cbn [negb andb]; auto.
    destruct (calculateDistance lat lng (latitude u) (longitude u) <=? radius);
      auto.
    cbn [map]. now rewrite <- app_assoc.
Qed.

Lemma scanned_numeric (lat lng radius : float) (excludeUser : Value)
  (l : UserMap) :
  Forall (fun n => is_nan (distance n) = false)
    (map (annotated lat lng) (filter (scanned lat lng radius excludeUser) l)).
Proof.
  apply Forall_forall. intros n Hn.
  apply in_map_iff in Hn. destruct Hn as (e & <- & He).
  apply filter_In in He. destruct He as [_ He].
  unfold scanned in He. apply andb_true_iff in He. destruct He as [_ He].
  apply leb_not_nan in He. apply He.
Qed.

(** The result of the query: the scanned entries, annotated, in ascending
    order of distance. *)
Lemma findNearbyUsers_sorted_perm (users : UserMap) (latitude longitude : Value)
  (radius : float) (excludeUser : Value) :
  is_nan (parseFloat latitude) || is_nan (parseFloat longitude) = false ->
  Permutation
    (findNearbyUsers users latitude longitude radius excludeUser)
    (map (annotated (parseFloat latitude) (parseFloat longitude))
       (filter (scanned (parseFloat latitude) (parseFloat longitude)
                  radius excludeUser) users)) /\
  StronglySorted (fun a b => (distance a <=? distance b) = true)
    (findNearbyUsers users latitude longitude radius excludeUser).
Proof.
  intros Hc. unfold findNearbyUsers, isNaN. rewrite Hc.
  rewrite fold_visitNearby. cbn [app]. split.
  - apply (Array_sort_perm distance).
  - apply (Array_sort_ascending distance), scanned_numeric.
Qed.

Context {HS : HostSpec H}.

(** A stored coordinate that is a number but not a finite one never comes
    within any radius: testing for [NaN] is testing for finiteness. *)
Lemma scanned_finite (lat lng radius : float) (excludeUser : Value)
  (e : Value * User) :
  scanned lat lng radius excludeUser e =
  negb (ToBoolean excludeUser && StrictEquals (fst e) excludeUser) &&
  (is_finite (latitude (snd e)) && is_finite (longitude (snd e))) &&
  (calculateDistance lat lng (latitude (snd e)) (longitude (snd e))
     <=? radius).
Proof.
  unfold scanned, isNaN, is_finite.
  destruct (negb (ToBoolean excludeUser && StrictEquals (fst e) excludeUser));
    cbn [andb]; auto.
  destruct (is_nan (latitude (snd e))); cbn [orb negb andb]; auto.
  destruct (is_nan (longitude (snd e)));
    cbn [orb negb andb]; rewrite ?andb_false_r; auto.
  destruct (is_infinity (latitude (snd e))) eqn:E1;
    [| destruct (is_infinity (longitude (snd e))) eqn:E2];
    cbn [negb andb]; auto;
    rewrite calculateDistance_infinite by auto; apply leb_nan_l.
Qed.

End WithHost.
End NearbyFacts.

(* ================================================================== *)
(** * The crime dataset *)
(* ================================================================== *)

Module CsvFacts.
Import CsvParser Vocabulary.

Lemma onData_spec (row : Row) (results : list Crime) :
  onData row results =
  if accepted row
  then results ++ [recordOf (List.length results + 1) row]
  else results.
Proof.
  unfold onData, accepted, recordOf, category, isNaN. cbv zeta.
  destruct (row_type row) as [[| c s] |]; reflexivity.
Qed.

Lemma fold_onData (rows : list Row) (results : list Crime) :
  fold_left (fun r row => onData row r) rows results =
  results ++ recordsFrom (List.length results + 1) rows.
Proof.
  revert results. induction rows as [| row rest IH]; intros results; simpl.
  - now rewrite app_nil_r.
  - rewrite IH, onData_spec. destruct (accepted row); auto.
    rewrite <- app_assoc, length_app. simpl.
    replace (List.length results + 1 + 1)%nat
      with (S (List.length results + 1)) by lia.
    reflexivity.
Qed.

Lemma deliver_data (rows : list Row) (store : Store) (results : list Crime) :
  deliver (map OnData rows) (store, {| results := results; promise := Pending |})
  = (store,
     {| results := fold_left (fun r row => onData row r) rows results;
        promise := Pending |}).
Proof.
  unfold deliver. revert results.
  induction rows as [| row rest IH]; intros results; simpl; auto.
Qed.

Lemma deliver_streamOf (rows : list Row) (store : Store) :
  deliver (streamOf rows) (store, {| results := []; promise := Pending |}) =
  ({| crimeData := recordsFrom 1 rows; isDataLoaded := true |},
   {| results := recordsFrom 1 rows;
      promise := Resolved (recordsFrom 1 rows) |}).
Proof.
  unfold streamOf, deliver. rewrite fold_left_app.
  fold (deliver (map OnData rows)
          (store, {| results := []; promise := Pending |})).
  rewrite deliver_data, fold_onData. reflexivity.
Qed.

Lemma deliver_failingStream (rows : list Row) (error : string) (store : Store) :
  deliver (failingStream rows error)
    (store, {| results := []; promise := Pending |}) =
  ({| crimeData := []; isDataLoaded := true |},
   {| results := recordsFrom 1 rows; promise := Rejected error |}).
Proof.
  unfold failingStream, deliver. rewrite fold_left_app.
  fold (deliver (map OnData rows)
          (store, {| results := []; promise := Pending |})).
  rewrite deliver_data, fold_onData. reflexivity.
Qed.

Lemma recordsFrom_raw (n : nat) (rows : list Row) :
  map raw (recordsFrom n rows) = filter accepted rows.
Proof.
  revert n. induction rows as [| row rest IH]; intros n; simpl; auto.
  destruct (accepted row); simpl; now rewrite IH.
Qed.

Lemma recordsFrom_nth (n i : nat) (rows : list Row) (c : Crime) :
  nth_error (recordsFrom n rows) i = Some c ->
  c = recordOf (n + i) (raw c).
Proof.
  revert n i. induction rows as [| row rest IH]; intros n i; simpl.
  - destruct i; discriminate.
  - destruct (accepted row); [| apply IH].
    destruct i as [| i]; simpl.
    + intros [= <-]. now rewrite Nat.add_0_r.
    + intros Hc. apply IH in Hc. now rewrite Nat.add_succ_r.
Qed.

(** While a stream is read, a store marked as not loaded reads as empty. *)
Lemma settled_step (st : Store * Load) (ev : StreamEvent) :
  promise (snd st) <> Pending -> step st ev = st.
Proof.
  destruct st as [store load]. unfold step. cbn [snd].
  destruct (promise load); congruence.
Qed.

Lemma settled_deliver (events : list StreamEvent) (st : Store * Load) :
  promise (snd st) <> Pending -> deliver events st = st.
Proof.
  intros Hs. unfold deliver. induction events as [| ev rest IH]; simpl; auto.
  now rewrite settled_step.
Qed.

End CsvFacts.

(* ================================================================== *)
(** * Facts on calls in flight and on the calls of the logger *)
(* ================================================================== *)

Module RunningFacts.
Import CsvParser Vocabulary CsvFacts.

Lemma step_load (s1 s2 : Store) (load : Load) (ev : StreamEvent) :
  snd (step (s1, load) ev) = snd (step (s2, load) ev).
Proof. unfold step. destruct (promise load), ev; reflexivity. Qed.

Lemma nth_error_replace (A : Type) (l : list A) (i j : nat) (x y : A) :
  nth_error l i = Some y ->
  nth_error (replace j x l) i = Some (if (j =? i)%nat then x else y).
Proof.
  revert i j. induction l as [|z t IH]; intros [|i] [|j] Hn;
    simpl in *; try discriminate; try assumption; try reflexivity.
  apply IH, Hn.
Qed.

Lemma replace_same (A : Type) (l : list A) (i : nat) (x : A) :
  nth_error l i = Some x -> replace i x l = l.
Proof.
  revert i. induction l as [|z t IH]; intros [|i] Hn; simpl in *;
    try discriminate; try reflexivity.
  - congruence.
  - now rewrite IH.
Qed.

Lemma nth_error_app_some (A : Type) (l l' : list A) (i : nat) (x : A) :
  nth_error l i = Some x -> nth_error (l ++ l') i = Some x.
Proof.
  intros Hn. rewrite nth_error_app1; [exact Hn|].
  apply nth_error_Some. congruence.
Qed.

(** What an action makes of a call that exists already. *)
Lemma act_call (r : Running) (a : Action) (i : nat) (load : Load) :
  nth_error (calls r) i = Some load ->
  nth_error (calls (act r a)) i =
  Some (match a with
        | Emit j ev =>
            if (j =? i)%nat then snd (step (shared r, load) ev) else load
        | _ => load
        end).
Proof.
  intros Hn. destruct a as [fileExists|fileExists|j ev]; cbn [act calls].
  - apply nth_error_app_some, Hn.
  - apply nth_error_app_some, Hn.
  - destruct (nth_error (calls r) j) as [load'|] eqn:Hj; cbn [calls].
    + rewrite (nth_error_replace _ _ _ _ _ _ Hn).
      destruct (Nat.eqb_spec j i) as [->|]; [|reflexivity].
      rewrite Hj in Hn. injection Hn as ->. reflexivity.
    + destruct (Nat.eqb_spec j i) as [->|]; [congruence | exact Hn].
Qed.

Lemma deliver_load (events : list StreamEvent) (s1 s2 : Store)
  (load : Load) :
  snd (deliver events (s1, load)) = snd (deliver events (s2, load)).
Proof.
  revert s1 s2 load. induction events as [|ev rest IH]; intros s1 s2 load.
  - reflexivity.
  - unfold deliver in *. cbn [fold_left].
    rewrite (surjective_pairing (step (s1, load) ev)).
    rewrite (surjective_pairing (step (s2, load) ev)).
    rewrite (step_load s1 s2). apply IH.
Qed.

(** A call sees the events of its own stream and nothing else. *)
Lemma run_call (actions : list Action) (r : Running) (i : nat) (load : Load)
  (s : Store) :
  nth_error (calls r) i = Some load ->
  nth_error (calls (run actions r)) i =
  Some (snd (deliver (eventsOf i actions) (s, load))).
Proof.
  revert r load s. induction actions as [|a rest IH]; intros r load s Hn.
  - exact Hn.
  - cbn [run fold_left]. fold (run rest (act r a)).
    pose proof (act_call r a i load Hn) as Ha.
    destruct a as [fileExists|fileExists|j ev]; cbn [eventsOf];
      try (apply IH, Ha).
    destruct (j =? i)%nat; [|apply IH, Ha].
    rewrite (IH _ _ (fst (step (s, load) ev)) Ha).
    rewrite (step_load (shared r) s).
    unfold deliver. cbn [fold_left].
    rewrite <- surjective_pairing. reflexivity.
Qed.

(** A settled call stays as it is. *)
Lemma settled_call (actions : list Action) (r : Running) (i : nat)
  (load : Load) :
  nth_error (calls r) i = Some load -> promise load <> Pending ->
  nth_error (calls (run actions r)) i = Some load.
Proof.
  intros Hn Hs. rewrite (run_call actions r i load (shared r) Hn).
  rewrite settled_deliver by exact Hs. reflexivity.
Qed.



Lemma whole_act (r : Running) (a : Action) : whole r -> whole (act r a).
Proof.
  intros Hw. destruct a as [[|]|[|]|i ev]; cbn [act].
  - destruct Hw as [He|(j & load & Hn & Hp)]; [left; exact He|].
    right. exists j, load. split; [apply nth_error_app_some, Hn | exact Hp].
  - left. reflexivity.
  - destruct Hw as [He|(j & load & Hn & Hp)]; [left; exact He|].
    right. exists j, load. split; [apply nth_error_app_some, Hn | exact Hp].
  - left. reflexivity.
  - destruct (nth_error (calls r) i) as [load|] eqn:Hi; [|exact Hw].
    unfold step. destruct (promise load) eqn:Hp.
    + destruct ev as [row| |error]; cbn [fst snd shared calls].
      * destruct Hw as [He|(j & load' & Hn & Hp')]; [left; exact He|].
        right. exists j, load'. cbn [calls shared]. split; [|exact Hp'].
        rewrite (nth_error_replace _ _ _ _ _ _ Hn).
        destruct (Nat.eqb_spec i j) as [->|]; [|reflexivity].
        congruence.
      * right. exists i, {| results := results load;
                            promise := Resolved (results load) |}.
        cbn [calls shared]. split; [|reflexivity].
        rewrite (nth_error_replace _ _ _ _ _ _ Hi), Nat.eqb_refl.
        reflexivity.
      * left. reflexivity.
    + cbn [fst snd]. rewrite (replace_same _ _ _ _ Hi).
      destruct r; exact Hw.
    + cbn [fst snd]. rewrite (replace_same _ _ _ _ Hi).
      destruct r; exact Hw.
Qed.

Lemma watch_whole (actions : list Action) (r : Running) :
  whole r ->
  Forall (fun l =>
            l = [] \/
            exists i load,
              nth_error (calls (run actions r)) i = Some load /\
              promise load = Resolved l)
    (watch getCrimeData actions r).
Proof.
  revert r. induction actions as [|a rest IH]; intros r Hw.
  - cbn [watch run fold_left]. constructor; [|constructor].
    unfold getCrimeData. destruct (isDataLoaded (shared r)); cbn [negb];
      [exact Hw | left; reflexivity].
  - cbn [watch]. constructor.
    + unfold getCrimeData.
      destruct (isDataLoaded (shared r)); cbn [negb]; [|left; reflexivity].
      destruct Hw as [He|(j & load & Hn & Hp)]; [left; exact He|].
      right. exists j, load. split; [|exact Hp].
      apply settled_call; [exact Hn | rewrite Hp; discriminate].
    + apply (IH (act r a)), whole_act, Hw.
Qed.

(** As long as no stream ends, a collection that is hidden or empty stays
    so. *)
Lemma act_no_end (r : Running) (a : Action) :
  getCrimeData (shared r) = [] -> endOfStream a = false ->
  getCrimeData (shared (act r a)) = [].
Proof.
  intros He Ha. destruct a as [[|]|[|]|i ev]; cbn [act]; try reflexivity.
  - exact He.
  - destruct (nth_error (calls r) i) as [load|]; [|exact He].
    unfold step. destruct (promise load); [|exact He|exact He].
    destruct ev as [row| |error]; [exact He | discriminate | reflexivity].
Qed.

Lemma watch_no_end (actions : list Action) (r : Running) :
  getCrimeData (shared r) = [] ->
  forallb (fun a => negb (endOfStream a)) actions = true ->
  watch getCrimeData actions r = repeat [] (S (List.length actions)).
Proof.
  revert r. induction actions as [|a rest IH]; intros r He Hq.
  - cbn [watch List.length repeat]. now rewrite He.
  - cbn [forallb] in Hq. apply andb_true_iff in Hq. destruct Hq as [Ha Hq].
    apply negb_true_iff in Ha.
    cbn [watch List.length]. rewrite He.
    rewrite (IH _ (act_no_end r a He Ha) Hq). reflexivity.
Qed.

(** The rows handed to a call in flight, then the end of its stream. *)
Lemma run_end (actions : list Action) (r : Running) (i : nat)
  (load : Load) (rows : list Row) :
  nth_error (calls r) i = Some load -> promise load = Pending ->
  eventsOf i actions = map OnData rows ->
  shared (run (actions ++ [Emit i OnEnd]) r) =
  {| crimeData :=
       fold_left (fun results row => onData row results) rows (results load);
     isDataLoaded := true |}.
Proof.
  intros Hn Hp He. unfold run. rewrite fold_left_app. fold (run actions r).
  set (r' := run actions r). cbn [fold_left act].
  unfold r' at 1. rewrite (run_call actions r i _ (shared r') Hn), He.
  destruct load as [res pr]. cbn [promise] in Hp. subst pr.
  rewrite deliver_data. cbn [snd]. unfold step.
  cbn [promise fst shared results]. reflexivity.
Qed.

(** ** The calls of the logger *)

Lemma onDataLog_spec (row : Row) :
  onDataLog row = if accepted row then [] else [diagnostic row].
Proof. reflexivity. Qed.

Lemma deliverLog_data (rows : list Row) (tail : list StreamEvent)
  (store : Store) (results : list Crime) :
  deliverLog (map OnData rows ++ tail)
    (store, {| results := results; promise := Pending |}) =
  map diagnostic (filter (fun row => negb (accepted row)) rows) ++
  deliverLog tail
    (store,
     {| results := fold_left (fun r row => onData row r) rows results;
        promise := Pending |}).
Proof.
  revert results. induction rows as [|row rest IH]; intros results.
  - reflexivity.
  - cbn [map app deliverLog fold_left filter].
    cbn [stepLog step snd promise]. rewrite IH, onDataLog_spec.
    destruct (accepted row); reflexivity.
Qed.

End RunningFacts.

(* ================================================================== *)
(** * Facts on query values and the filters of the route *)
(* ================================================================== *)

Module QueryFacts.
Import Haversine CsvParser CrimeZones Vocabulary.




Lemma truthy_supplied (p : option QueryValue) : truthy p = supplied p.
Proof. destruct p as [[[|c s]|items|keys]|]; reflexivity. Qed.

Lemma Array_filter_total {A : Type} (callback : A -> Completion bool)
  (f : A -> bool) (l : list A) :
  (forall x, callback x = Normal (f x)) ->
  Array_filter callback l = Normal (filter f l).
Proof.
  intros Hc. induction l as [|x t IH]; [reflexivity|].
  cbn [Array_filter filter]. rewrite Hc, IH. cbn [bind].
  destruct (f x); reflexivity.
Qed.


Section WithHost.
Context {H : Host}.

(** The type filter on a parameter that is absent or a single string. *)
Lemma filterType_plain (q : Query) (crimeData : list Crime) :
  plain (q_type q) = true ->
  filterType q crimeData =
  Normal (match q_type q with
          | Some (QString sub) =>
              if supplied (q_type q) then filter (ofType sub) crimeData
              else crimeData
          | _ => crimeData
          end).
Proof.
  unfold filterType. destruct (q_type q) as [[sub|items|keys]|];
    try discriminate; [|reflexivity].
  intros _. rewrite truthy_supplied.
  destruct (supplied (Some (QString sub))); [|reflexivity].
  apply Array_filter_total. intros crime. unfold ofType.
  cbn [ToBoolean]. destruct (negb (CsvParser.type crime =? EmptyString)%string);
    reflexivity.
Qed.



End WithHost.

End QueryFacts.

(* ================================================================== *)
(** * The properties of the specification *)
(* ================================================================== *)

Module Claims.
Import Haversine Users CsvParser Sos CrimeZones Settings Examples Vocabulary.
Import SmallAngleFacts HaversineFacts MapFacts UsersFacts NearbyFacts CsvFacts.
Import RunningFacts QueryFacts.

Lemma truthy_number (x : float) :
  ToBoolean (Number x) = true -> parseFloat (Number x) = x.
Proof.
  simpl. intros Ht. apply negb_true_iff, orb_false_iff in Ht.
  destruct Ht as [Hz _]. now rewrite Hz.
Qed.

Lemma withinGeoBounds_inv (lat lng : float) :
  withinGeoBounds lat lng = true ->
  ((-90 <=? lat) = true /\ (lat <=? 90) = true) /\
  ((-180 <=? lng) = true /\ (lng <=? 180) = true).
Proof.
  unfold withinGeoBounds, MIN_LATITUDE, MAX_LATITUDE, MIN_LONGITUDE,
    MAX_LONGITUDE.
  rewrite !andb_true_iff. tauto.
Qed.

(** ** The proximity query *)

(** On the small-angle host the regression distance of the specification
    comes out at 669 m (the specification allows 667 m within 5 m). *)
Example distance_regression :
  calculateDistance (H := SmallAngle.host) 40.7580 (-73.9855) 40.7520 (-73.9860)
  = 669.
Proof. reflexivity. Qed.

(** The end-to-end scenario: around (0, 0) within 200 m, A excluded, only B
    is found, at 111 m. *)
Example scenario_nearby :
  map (fun n => (username (user n), distance n))
    (findNearbyUsers (H := SmallAngle.host) scenarioDirectory
       (Number 0) (Number 0) 200 (Str "A"))
  = [(Str "B", 111)].
Proof. reflexivity. Qed.

(** C1.  Whatever the directory, the radius and the excluded identity: when
    the centre coerces to numbers, [findNearbyUsers] returns exactly the
    stored entries with finite coordinates whose distance to the centre is
    at most the radius, the excluded identity left out when one is
    supplied, each annotated with its distance, and the result is in
    ascending order of distance (every element is at most every later
    one); when a centre coordinate does not coerce to a number, the result
    is empty. *)
Theorem findNearbyUsers_exact {H : Host} {HS : HostSpec H}
  (users : UserMap) (latitude longitude : Value) (radius : float)
  (excludeUser : Value) :
  (is_nan (parseFloat latitude) || is_nan (parseFloat longitude) = false ->
   Permutation
     (findNearbyUsers users latitude longitude radius excludeUser)
     (map (annotated (parseFloat latitude) (parseFloat longitude))
        (filter (nearby (parseFloat latitude) (parseFloat longitude)
                   radius excludeUser) users)) /\
   StronglySorted (fun a b => (distance a <=? distance b) = true)
     (findNearbyUsers users latitude longitude radius excludeUser)) /\
  (is_nan (parseFloat latitude) || is_nan (parseFloat longitude) = true ->
   findNearbyUsers users latitude longitude radius excludeUser = []).
Proof.
  split.
  - intros Hc.
    destruct (findNearbyUsers_sorted_perm users latitude longitude radius
                excludeUser Hc) as [Hp Hs].
    split; [| exact Hs].
    rewrite (filter_ext
               (nearby (parseFloat latitude) (parseFloat longitude)
                  radius excludeUser)
               (scanned (parseFloat latitude) (parseFloat longitude)
                  radius excludeUser)); [exact Hp |].
    intros e. symmetry. apply scanned_finite.
  - intros Hc. unfold findNearbyUsers, isNaN. now rewrite Hc.
Qed.

Lemma findNearbyUsers_exact_witness :
  Permutation
    (findNearbyUsers (H := SmallAngle.host) mockDirectory
       (Number 40.7580) (Number (-73.9855)) 500 (Str "Sarah_M"))
    (map (annotated (H := SmallAngle.host) 40.7580 (-73.9855))
       (filter (nearby (H := SmallAngle.host) 40.7580 (-73.9855) 500
                  (Str "Sarah_M"))
          mockDirectory)) /\
  StronglySorted (fun a b => (distance a <=? distance b) = true)
    (findNearbyUsers (H := SmallAngle.host) mockDirectory
       (Number 40.7580) (Number (-73.9855)) 500 (Str "Sarah_M")).
Proof.
  exact (proj1 (findNearbyUsers_exact (HS := SmallAngle_spec) mockDirectory
                  (Number 40.7580) (Number (-73.9855)) 500 (Str "Sarah_M"))
               eq_refl).
Defined.

(** C2.  The handler of an alert runs the query without an excluded
    identity: a sender whose entry is stored at the coordinates of the
    alert, within the geographic bounds and not on the equator or the
    prime meridian, is itself in the nearby users of the response,
    whatever the non-negative radius. *)
Theorem postSos_reports_sender {H : Host} {HS : HostSpec H}
  (radius : float) (timestamp alertId name : string) (users : UserMap)
  (lat lng : float) (seen : Value) (sockets : nat) :
  (0 <=? radius) = true ->
  name <> EmptyString ->
  ToBoolean (Number lat) = true -> ToBoolean (Number lng) = true ->
  withinGeoBounds lat lng = true ->
  In (Str name,
      {| username := Str name; Users.latitude := lat;
         Users.longitude := lng; lastSeen := seen |}) users ->
  exists alert nearbyUsers notified,
    response (postSos radius timestamp alertId users
                {| body_username := Str name; body_latitude := Number lat;
                   body_longitude := Number lng;
                   dashboardSockets := sockets |})
    = Success alert nearbyUsers notified /\
    In (Str name) (map ru_username nearbyUsers).
Proof.
  intros Hr Hname Tlat Tlng Hb Hin.
  destruct (withinGeoBounds_inv lat lng Hb) as [[L1 L2] [G1 G2]].
  destruct (leb_not_nan _ _ L1) as [_ Nlat].
  destruct (leb_not_nan _ _ G1) as [_ Nlng].
  unfold postSos. cbn [body_username body_latitude body_longitude].
  assert (ToBoolean (Str name) = true) as Tname
    by (simpl; apply negb_true_iff, String.eqb_neq, Hname).
  rewrite Tname, Tlat, Tlng. cbn [negb orb].
  rewrite !truthy_number by assumption.
  unfold isNaN. rewrite Nlat, Nlng.
  rewrite (leb_not_ltb _ _ L1), (leb_not_ltb _ _ L2),
    (leb_not_ltb _ _ G1), (leb_not_ltb _ _ G2).
  cbn [orb response]. do 3 eexists. split; [reflexivity |].
  rewrite map_map. cbn [ru_username].
  set (e := (Str name,
             {| username := Str name; Users.latitude := lat;
                Users.longitude := lng; lastSeen := seen |})) in *.
  change (Str name) with (username (user (annotated lat lng e))).
  apply (in_map (fun u => username (user u))).
  destruct (findNearbyUsers_sorted_perm users (Number lat) (Number lng)
              radius Null) as [Hp _].
  { rewrite !truthy_number by assumption. now rewrite Nlat, Nlng. }
  rewrite !truthy_number in Hp by assumption.
  apply (Permutation_in _ (Permutation_sym Hp)).
  apply in_map, filter_In. split; [exact Hin |].
  unfold scanned, isNaN. cbn [ToBoolean andb negb fst snd e Users.latitude
    Users.longitude].
  rewrite Nlat, Nlng, calculateDistance_self by assumption.
  exact Hr.
Qed.

Lemma postSos_reports_sender_witness :
  exists alert nearbyUsers notified,
    response (postSos (H := SmallAngle.host) NEARBY_RADIUS
                "2024-01-02T00:00:00.000Z" "sos_1" mockDirectory
                {| body_username := Str "Sarah_M";
                   body_latitude := Number 40.7580;
                   body_longitude := Number (-73.9855);
                   dashboardSockets := 1 |})
    = Success alert nearbyUsers notified /\
    In (Str "Sarah_M") (map ru_username nearbyUsers).
Proof.
  apply (postSos_reports_sender (HS := SmallAngle_spec) NEARBY_RADIUS
           "2024-01-02T00:00:00.000Z" "sos_1" "Sarah_M" mockDirectory
           40.7580 (-73.9855) (Str loadedAt) 1).
  - reflexivity.
  - discriminate.
  - reflexivity.
  - reflexivity.
  - reflexivity.
  - vm_compute. left. reflexivity.
Defined.

(** ** The directory *)

(** C3, as amended.  [addUser] rejects exactly when the username, the
    latitude or the longitude is falsy, and then leaves the directory as it
    is; otherwise it succeeds, [getUser] on that username returns the entry
    with the coordinates coerced by [parseFloat] and the given timestamp
    (the clock when the given one is falsy), and the entries of the other
    keys are as before. *)
Theorem addUser_rejects_falsy (now : string) (userData : UserData)
  (users : UserMap) :
  (snd (addUser now userData users) = false <->
   ToBoolean (ud_username userData) = false \/
   ToBoolean (ud_latitude userData) = false \/
   ToBoolean (ud_longitude userData) = false) /\
  (snd (addUser now userData users) = false ->
   fst (addUser now userData users) = users) /\
  (snd (addUser now userData users) = true ->
   getUser (fst (addUser now userData users)) (ud_username userData) =
     Some {| username := ud_username userData;
             Users.latitude := parseFloat (ud_latitude userData);
             Users.longitude := parseFloat (ud_longitude userData);
             lastSeen := if ToBoolean (ud_lastSeen userData)
                         then ud_lastSeen userData else Str now |} /\
   filter (fun e => negb (SameValueZero (fst e) (ud_username userData)))
     (fst (addUser now userData users)) =
   filter (fun e => negb (SameValueZero (fst e) (ud_username userData)))
     users).
Proof.
  unfold addUser, getUser.
  destruct (ToBoolean (ud_username userData)),
           (ToBoolean (ud_latitude userData)),
           (ToBoolean (ud_longitude userData)); cbn [negb orb fst snd].
  1: { split; [| split].
       - split; [discriminate | intros [E | [E | E]]; discriminate].
       - discriminate.
       - intros _. split; [apply Map_get_set_same | apply Map_set_others]. }
  all: split; [| split]; [split; auto | reflexivity | discriminate].
Qed.

(** C3 as stated fails: the latitude ["abc"] is not numeric after coercion,
    and [addUser] succeeds and stores [NaN]. *)
Lemma addUser_accepts_non_numeric :
  is_nan (parseFloat (Str "abc")) = true /\
  addUser "2024-01-02T00:00:00.000Z"
    {| ud_username := Str "u"; ud_latitude := Str "abc";
       ud_longitude := Number 1; ud_lastSeen := Undefined |} [] =
  ([(Str "u",
     {| username := Str "u"; Users.latitude := nan; Users.longitude := 1;
        lastSeen := Str "2024-01-02T00:00:00.000Z" |})],
   true).
Proof. split; reflexivity. Qed.

(** C5.  On a map (no key stored twice, as in every reachable directory),
    the sweep at time [now] removes exactly the entries whose age
    [now - lastSeen] exceeds [maxAgeMs] strictly, keeps the others as they
    are and in place, and returns the number of entries removed; a second
    sweep at the same time removes nothing. *)
Theorem cleanupOldUsers_exact {H : Host} (now maxAgeMs : float)
  (users : UserMap) :
  Map_wf users = true ->
  cleanupOldUsers now maxAgeMs users =
    (filter (fun e => negb (expired now maxAgeMs e)) users,
     List.length (filter (expired now maxAgeMs) users)) /\
  cleanupOldUsers now maxAgeMs (fst (cleanupOldUsers now maxAgeMs users)) =
    (fst (cleanupOldUsers now maxAgeMs users), 0%nat).
Proof.
  intros Hw. rewrite (cleanupOldUsers_filter now maxAgeMs users Hw).
  split; [reflexivity |]. cbn [fst].
  rewrite cleanupOldUsers_filter by (apply Map_wf_filter, Hw).
  now rewrite filter_idem, filter_none.
Qed.

Lemma cleanupOldUsers_exact_witness :
  cleanupOldUsers (H := SmallAngle.host) 150 100 agedDirectory =
    (filter (fun e => negb (expired (H := SmallAngle.host) 150 100 e))
       agedDirectory,
     List.length (filter (expired (H := SmallAngle.host) 150 100)
                    agedDirectory)) /\
  cleanupOldUsers (H := SmallAngle.host) 150 100
    (fst (cleanupOldUsers (H := SmallAngle.host) 150 100 agedDirectory)) =
    (fst (cleanupOldUsers (H := SmallAngle.host) 150 100 agedDirectory),
     0%nat).
Proof.
  apply (cleanupOldUsers_exact (H := SmallAngle.host) 150 100 agedDirectory).
  reflexivity.
Defined.

(** C10.  In every reachable state of the directory each entry is stored
    under its own username, so [getUser] on a key returns, when it returns
    an entry, one whose username is that key. *)
Theorem stored_username_is_key {H : Host} (users : UserMap) :
  reachable users ->
  Forall (fun e => username (snd e) = fst e) users /\
  (forall k u, getUser users k = Some u -> username u = k).
Proof.
  intros Hr. apply reachable_keyed in Hr. split.
  - apply Forall_impl with (2 := Hr). intros e [He _]. exact He.
  - intros k u Hg. unfold getUser in Hg.
    apply Map_get_In in Hg. destruct Hg as (k' & Hin & Hk).
    rewrite Forall_forall in Hr. destruct (Hr _ Hin) as [Hu Ht].
    cbn [fst snd] in *. apply SameValueZero_eq in Hk; congruence.
Qed.

Lemma stored_username_is_key_witness :
  Forall (fun e => username (snd e) = fst e) mockDirectory /\
  (forall k u, getUser mockDirectory k = Some u -> username u = k).
Proof.
  exact (stored_username_is_key (H := SmallAngle.host) mockDirectory
           (reach_load (fun _ => loadedAt))).
Defined.

(** ** The dataset *)

(** C6, as amended.  A load that reads [rows] to the end resolves with the
    collection it stores: one record per row whose coordinates both parse as
    numbers within range, in the order of the rows; the [i]-th record
    (from 0) has the identifier ["crime_"] followed by [i + 1], the parsed
    coordinates of its row, and as category the trimmed label of the row, or
    ["Unknown"] when the label is absent or empty.  Every other row is
    skipped with a diagnostic: the calls of the logger during the load are
    one warning per skipped row, carrying the row, in the order of the
    rows, and then the report of the number of records.  The row
    [(200, 80, "Theft")] alone yields no record, the row
    [(26.85, 80.88, "Theft")] alone yields one record of category
    ["Theft"]. *)
Theorem loadCrimeData_rows (store : Store) (rows : list Row) :
  let final := deliver (streamOf rows) (loadCrimeData true store) in
  promise (snd final) = Resolved (crimeData (fst final)) /\
  isDataLoaded (fst final) = true /\
  map raw (crimeData (fst final)) = filter accepted rows /\
  (forall i c,
     nth_error (crimeData (fst final)) i = Some c ->
     id c = ("crime_" ++ decimal (i + 1))%string /\
     CsvParser.latitude c = parseFloat (cell (row_latitude (raw c))) /\
     CsvParser.longitude c = parseFloat (cell (row_longitude (raw c))) /\
     type c = category (raw c)) /\
  deliverLog (streamOf rows) (loadCrimeData true store) =
    map diagnostic (filter (fun row => negb (accepted row)) rows) ++
    [ {| log_level := "INFO";
         log_message :=
           ("Crime data loaded successfully: "
            ++ decimal (List.length (filter accepted rows)) ++ " records")
           %string;
         log_data := NoData |} ] /\
  crimeData (fst (deliver (streamOf [invalidRow])
                    (loadCrimeData true store))) = [] /\
  deliverLog (streamOf [invalidRow]) (loadCrimeData true store) =
    [ diagnostic invalidRow;
      {| log_level := "INFO";
         log_message := "Crime data loaded successfully: 0 records";
         log_data := NoData |} ] /\
  map type (crimeData (fst (deliver (streamOf [theftRow])
                              (loadCrimeData true store)))) = ["Theft"].
Proof.
  cbv zeta. unfold loadCrimeData. cbn [negb].
  rewrite !deliver_streamOf. cbn [fst snd crimeData isDataLoaded promise].
  split; [reflexivity |]. split; [reflexivity |].
  split; [apply recordsFrom_raw |].
  split; [| split; [| split; [reflexivity | split; reflexivity]]].
  - intros i c Hc. apply recordsFrom_nth in Hc. rewrite Hc.
    cbn [id CsvParser.latitude CsvParser.longitude type recordOf raw].
    rewrite (Nat.add_comm i 1). repeat split.
  - unfold streamOf. rewrite deliverLog_data, fold_onData.
    cbn [deliverLog stepLog snd promise results app List.length Nat.add].
    rewrite <- (recordsFrom_raw 1 rows), length_map. reflexivity.
Qed.

(** C6 as stated fails on a blank label: a row whose label is white space
    only is accepted with the empty category, not ["Unknown"]. *)
Lemma blank_label_not_unknown :
  trim "   " = EmptyString /\
  map type (crimeData (fst (deliver (streamOf [blankRow])
                              (loadCrimeData true initialStore)))) =
  [EmptyString] /\
  map type (crimeData (fst (deliver (streamOf [blankRow])
                              (loadCrimeData true initialStore)))) <>
  ["Unknown"].
Proof. repeat split. discriminate. Qed.

(** C7.  When the file is missing, the load logs a warning, resolves with
    the empty collection and marks the data as loaded, and [getCrimeData]
    returns the empty list afterwards.  But a read failure of the file is
    not handled: the listeners are on the parser stream, to which [pipe]
    forwards no error, so after any chunks and a failure of the file
    stream the promise is still pending, the collection is not reset and
    the data is not marked as loaded.  Only an error that the parser stream
    raises itself rejects the promise with the error, resets the collection
    and marks the data as loaded. *)
Theorem loadCrimeData_failures (store : Store) (csvPath : string)
  (chunks : list (list Row)) (rows : list Row) (error : string)
  (later : list StreamEvent) :
  let missing := loadCrimeData false store in
  let unread :=
    deliver (pipe (map FileData chunks ++ [FileError error]))
      (loadCrimeData true store) in
  let failed := deliver (failingStream rows error) (loadCrimeData true store) in
  (promise (snd missing) = Resolved [] /\
   crimeData (fst missing) = [] /\
   isDataLoaded (fst missing) = true /\
   getCrimeData (fst (deliver later missing)) = [] /\
   loadCrimeDataLog csvPath false =
     [ {| log_level := "WARN";
          log_message :=
            ("Crime data CSV file not found at " ++ csvPath)%string;
          log_data := NoData |} ]) /\
  (promise (snd unread) = Pending /\
   results (snd unread) = recordsFrom 1 (List.concat chunks) /\
   fst unread = store) /\
  (promise (snd failed) = Rejected error /\
   crimeData (fst failed) = [] /\
   isDataLoaded (fst failed) = true /\
   getCrimeData (fst (deliver later failed)) = []).
Proof.
  cbv zeta. unfold loadCrimeData. cbn [negb].
  rewrite deliver_failingStream.
  rewrite !settled_deliver by (cbn; discriminate).
  assert (Hp : pipe (map FileData chunks ++ [FileError error]) =
               map OnData (List.concat chunks)).
  { induction chunks as [|c t IH]; [reflexivity|].
    cbn [map app pipe List.concat]. rewrite IH, map_app. reflexivity. }
  rewrite Hp, deliver_data, fold_onData. repeat split.
  rewrite settled_deliver by (cbn; discriminate). reflexivity.
Qed.

(** C7 as stated fails on a read failure: at the first load of a file that
    exists, after one row a failure of the file stream leaves the promise
    pending and the data not marked as loaded, where the claim has the
    load fail and the flag set. *)
Example read_failure_unhandled :
  deliver (pipe [FileData [theftRow]; FileError "EIO"])
    (loadCrimeData true initialStore) =
  (initialStore,
   {| results := [recordOf 1 theftRow]; promise := Pending |}).
Proof. reflexivity. Qed.

(** C4, as amended.  A reload hides the prior collection: from the call on
    and until the stream of a call in flight ends, whatever rows are
    handed over, whichever stream fails and whatever is called meanwhile,
    [getCrimeData] returns the empty list.  When the stream of the
    reload ends, whatever the other streams have emitted meanwhile, the
    collection is the complete one of the reload, the one a first load of
    the same rows stores; when the stream of an earlier call still in
    flight ends first, the collection is the complete one of that call.
    When the file is missing the collection is empty.  No reader ever gets
    a part of a collection or a mixture of two: from the module load on,
    whatever is called and emitted, every read returns the empty list or
    the list that the promise of one call has resolved with. *)
Theorem reload_reads (r : Running) (fileExists : bool)
  (actions : list Action) (rows : list Row) (i : nat) (load : Load)
  (history : list Action) :
  (forallb (fun a => negb (endOfStream a)) actions = true ->
   watch getCrimeData actions (act r (CallReload fileExists)) =
   repeat [] (S (List.length actions))) /\
  (eventsOf (List.length (calls r)) actions = map OnData rows ->
   getCrimeData
     (shared (run (actions ++ [Emit (List.length (calls r)) OnEnd])
                (act r (CallReload true)))) =
   recordsFrom 1 rows /\
   recordsFrom 1 rows =
   crimeData (fst (deliver (streamOf rows)
                     (loadCrimeData true initialStore)))) /\
  (nth_error (calls r) i = Some load -> promise load = Pending ->
   eventsOf i actions = map OnData rows ->
   getCrimeData
     (shared (run (actions ++ [Emit i OnEnd]) (act r (CallReload true)))) =
   fold_left (fun results row => onData row results) rows (results load)) /\
  getCrimeData (shared (act r (CallReload false))) = [] /\
  Forall (fun read =>
            read = [] \/
            exists k settled,
              nth_error (calls (run history started)) k = Some settled /\
              promise settled = Resolved read)
    (watch getCrimeData history started).
Proof.
  split; [|split; [|split; [|split]]].
  - intros Hq. apply watch_no_end; [|exact Hq].
    destruct fileExists; reflexivity.
  - intros He. split.
    + rewrite (run_end actions (act r (CallReload true))
                 (List.length (calls r))
                 {| results := []; promise := Pending |} rows);
        [cbn [results]; rewrite fold_onData; reflexivity
        | | reflexivity | exact He].
      cbn [act reloadCrimeData loadCrimeData negb calls snd].
      rewrite nth_error_app2 by apply Nat.le_refl.
      rewrite Nat.sub_diag. reflexivity.
    + unfold loadCrimeData. cbn [negb]. rewrite deliver_streamOf.
      reflexivity.
  - intros Hn Hp He.
    rewrite (run_end actions (act r (CallReload true)) i load rows);
      [reflexivity | | exact Hp | exact He].
    cbn [act calls]. apply nth_error_app_some, Hn.
  - reflexivity.
  - apply watch_whole. left. reflexivity.
Qed.

Lemma reload_reads_witness :
  watch getCrimeData
    [Emit 1 (OnData theftRow); Emit 0 (OnError "parse"); CallLoad true]
    (act (run [CallLoad true; Emit 0 (OnData theftRow)] started)
       (CallReload true)) =
  [[]; []; []; []] /\
  getCrimeData
    (shared
       (run ([Emit 1 (OnData theftRow); Emit 0 OnEnd] ++ [Emit 1 OnEnd])
          (act (run [CallLoad true; Emit 0 (OnData theftRow)] started)
             (CallReload true)))) =
  recordsFrom 1 [theftRow] /\
  getCrimeData
    (shared
       (run ([Emit 1 (OnData invalidRow)] ++ [Emit 0 OnEnd])
          (act (run [CallLoad true; Emit 0 (OnData theftRow)] started)
             (CallReload true)))) =
  [recordOf 1 theftRow].
Proof.
  split; [|split].
  - exact (proj1 (reload_reads
                    (run [CallLoad true; Emit 0 (OnData theftRow)] started)
                    true
                    [Emit 1 (OnData theftRow); Emit 0 (OnError "parse");
                     CallLoad true]
                    [] 0 {| results := []; promise := Pending |} [])
             eq_refl).
  - exact (proj1 (proj1 (proj2 (reload_reads
                    (run [CallLoad true; Emit 0 (OnData theftRow)] started)
                    true
                    [Emit 1 (OnData theftRow); Emit 0 OnEnd]
                    [theftRow] 0 {| results := []; promise := Pending |} []))
             eq_refl)).
  - exact (proj1 (proj2 (proj2 (reload_reads
                    (run [CallLoad true; Emit 0 (OnData theftRow)] started)
                    true
                    [Emit 1 (OnData invalidRow)]
                    [] 0
                    {| results := [recordOf 1 theftRow];
                       promise := Pending |} [])))
             eq_refl eq_refl eq_refl).
Defined.

(** C4 as stated fails: after a first load of one row and a reload of the
    same file, the readers scheduled between the call of the reload and the
    end of its stream get the empty list, which is neither the prior nor
    the new collection. *)
Lemma reload_reads_empty :
  watch getCrimeData
    [ CallLoad true; Emit 0 (OnData theftRow); Emit 0 OnEnd;
      CallReload true; Emit 1 (OnData theftRow); Emit 1 OnEnd ]
    started =
  [ []; []; []; [recordOf 1 theftRow];
    []; []; [recordOf 1 theftRow] ] /\
  [] <> [recordOf 1 theftRow].
Proof. split; [reflexivity | discriminate]. Qed.

(** ** The distance kernel *)

(** C8.  The distance is the same in both directions, and the distance of
    a point within the geographic bounds to itself is 0. *)
Theorem calculateDistance_symmetric {H : Host} {HS : HostSpec H} :
  (forall lat1 lng1 lat2 lng2,
     calculateDistance lat1 lng1 lat2 lng2 =
     calculateDistance lat2 lng2 lat1 lng1) /\
  (forall lat lng,
     withinGeoBounds lat lng = true -> calculateDistance lat lng lat lng = 0).
Proof.
  split.
  - apply calculateDistance_swap.
  - intros lat lng Hb.
    destruct (withinGeoBounds_inv lat lng Hb) as [[L1 L2] [G1 G2]].
    now apply calculateDistance_self.
Qed.

Lemma calculateDistance_symmetric_witness :
  (forall lat1 lng1 lat2 lng2,
     calculateDistance (H := SmallAngle.host) lat1 lng1 lat2 lng2 =
     calculateDistance (H := SmallAngle.host) lat2 lng2 lat1 lng1) /\
  (forall lat lng,
     withinGeoBounds lat lng = true ->
     calculateDistance (H := SmallAngle.host) lat lng lat lng = 0).
Proof.
  exact (calculateDistance_symmetric (HS := SmallAngle_spec)).
Defined.

(** ** The crime query *)




End Claims.

(* ================================================================== *)
(** * Facts on the directory as a keyed store *)
(* ================================================================== *)

Module DirectoryFacts.
Import Haversine Users Vocabulary Terms MapFacts UsersFacts NearbyFacts.

Lemma SFeqb_trans (X Y Z : spec_float) :
  SFeqb X Y = true -> SFeqb Y Z = true -> SFeqb X Z = true.
Proof.
  unfold SFeqb.
  destruct X as [sx|sx| |sx mx ex], Y as [sy|sy| |sy my ey],
           Z as [sz|sz| |sz mz ez]; cbn [SFcompare];
    try discriminate; try reflexivity;
    try (destruct sx, sy, sz; (reflexivity || discriminate));
    try (destruct sx, sy; (reflexivity || discriminate));
    try (destruct sx, sz; (reflexivity || discriminate));
    try (destruct sy, sz; (reflexivity || discriminate));
    try (destruct sx; (reflexivity || discriminate));
    try (destruct sy; (reflexivity || discriminate));
    try (destruct sz; (reflexivity || discriminate)).
  all: change PosDef.Pos.compare_cont with Pos.compare_cont;
       change (Pos.compare_cont Eq) with Pos.compare.
  all: destruct sx, sy, sz; try discriminate; try reflexivity.
  all: destruct (Z.compare_spec ex ey); try discriminate;
       destruct (Z.compare_spec ey ez); try discriminate;
       destruct (Z.compare_spec ex ez); try lia; try reflexivity; subst.
  all: destruct (Pos.compare_spec mx my); try discriminate;
       destruct (Pos.compare_spec my mz); try discriminate;
       destruct (Pos.compare_spec mx mz); try lia; try reflexivity.
Qed.

Lemma eqb_trans (x y z : float) :
  (x =? y) = true -> (y =? z) = true -> (x =? z) = true.
Proof. rewrite !eqb_spec. apply SFeqb_trans. Qed.

Lemma eqb_not_nan (x y : float) :
  (x =? y) = true -> is_nan x = false /\ is_nan y = false.
Proof.
  rewrite eqb_spec, !is_nan_spec. unfold SFeqb.
  destruct (Prim2SF x), (Prim2SF y); simpl; auto; discriminate.
Qed.

Lemma String_eqb_trans (a b c : string) :
  (a =? b)%string = true -> (b =? c)%string = true -> (a =? c)%string = true.
Proof. rewrite !String.eqb_eq. congruence. Qed.

Lemma SameValueZero_trans (a b c : Value) :
  SameValueZero a b = true -> SameValueZero b c = true ->
  SameValueZero a c = true.
Proof.
  destruct a as [| |x|x|x], b as [| |y|y|y], c as [| |z|z|z]; simpl;
    try discriminate; try reflexivity.
  - destruct x, y, z; simpl; congruence.
  - intros H1 H2.
    apply orb_true_iff in H1, H2. apply orb_true_iff.
    destruct H1 as [H1|H1], H2 as [H2|H2].
    + left. eapply eqb_trans; eassumption.
    + apply eqb_not_nan in H1. apply andb_true_iff in H2.
      destruct H1, H2. congruence.
    + apply eqb_not_nan in H2. apply andb_true_iff in H1.
      destruct H1, H2. congruence.
    + apply andb_true_iff in H1, H2. right.
      apply andb_true_iff. tauto.
  - apply String_eqb_trans.
Qed.

(** Two keys that are the same to the map answer every comparison alike. *)
Lemma SameValueZero_congr (a b c : Value) :
  SameValueZero a b = true -> SameValueZero a c = SameValueZero b c.
Proof.
  intros Hab.
  destruct (SameValueZero b c) eqn:Hbc.
  - eapply SameValueZero_trans; eassumption.
  - destruct (SameValueZero a c) eqn:Hac; [|reflexivity].
    rewrite <- Hbc. symmetry.
    rewrite SameValueZero_sym in Hab.
    eapply SameValueZero_trans; eassumption.
Qed.

Lemma SameValueZero_congr_r (a b c : Value) :
  SameValueZero a b = true -> SameValueZero c a = SameValueZero c b.
Proof.
  intros Hab. rewrite (SameValueZero_sym c a), (SameValueZero_sym c b).
  apply SameValueZero_congr, Hab.
Qed.

Lemma Map_get_set_other (m : UserMap) (k k2 : Value) (v : User) :
  SameValueZero k2 k = false ->
  Map_get (Map_set m k v) k2 = Map_get m k2.
Proof.
  intros Hk.
  induction m as [|[k' v'] t IH]; simpl.
  - rewrite SameValueZero_sym, Hk. reflexivity.
  - destruct (SameValueZero k' k) eqn:E; simpl.
    + destruct (SameValueZero k' k2) eqn:E2; [|reflexivity].
      rewrite (SameValueZero_congr _ _ k E2), Hk in E. discriminate.
    + rewrite IH. reflexivity.
Qed.

Lemma Map_get_remove_other (m : UserMap) (k k2 : Value) :
  SameValueZero k2 k = false ->
  Map_get (Map_remove m k) k2 = Map_get m k2.
Proof.
  intros Hk.
  induction m as [|[k' v'] t IH]; simpl; [reflexivity|].
  destruct (SameValueZero k' k) eqn:E; simpl.
  - destruct (SameValueZero k' k2) eqn:E2; [|reflexivity].
    rewrite (SameValueZero_congr _ _ k E2), Hk in E. discriminate.
  - rewrite IH. reflexivity.
Qed.

Lemma Map_get_remove_same (m : UserMap) (k : Value) :
  Map_wf m = true -> Map_get (Map_remove m k) k = None.
Proof.
  induction m as [|[k' v'] t IH]; simpl; [reflexivity|].
  intros Hwf. apply andb_true_iff in Hwf. destruct Hwf as [Hf Hwf].
  apply negb_true_iff in Hf.
  destruct (SameValueZero k' k) eqn:E; simpl.
  - apply Map_get_None. intros e He.
    rewrite Map_has_false in Hf. specialize (Hf e He).
    rewrite <- Hf. symmetry. apply SameValueZero_congr_r. exact E.
  - rewrite E. apply IH, Hwf.
Qed.

Lemma Map_has_cons (k' : Value) (v' : User) (t : UserMap) (k : Value) :
  Map_has ((k', v') :: t) k = SameValueZero k' k || Map_has t k.
Proof. unfold Map_has. simpl. destruct (SameValueZero k' k); reflexivity. Qed.

Lemma length_Map_remove (m : UserMap) (k : Value) :
  (List.length (Map_remove m k) + (if Map_has m k then 1 else 0))%nat =
  List.length m.
Proof.
  induction m as [|[k' v'] t IH]; [reflexivity|].
  rewrite Map_has_cons. simpl.
  destruct (SameValueZero k' k); simpl; lia.
Qed.

Lemma length_Map_set (m : UserMap) (k : Value) (v : User) :
  List.length (Map_set m k v) =
  (List.length m + (if Map_has m k then 0 else 1))%nat.
Proof.
  induction m as [|[k' v'] t IH]; [reflexivity|].
  rewrite Map_has_cons. simpl.
  destruct (SameValueZero k' k); simpl; lia.
Qed.

Lemma Map_remove_set_fresh (m : UserMap) (k : Value) (v : User) :
  Map_has m k = false -> Map_remove (Map_set m k v) k = m.
Proof.
  induction m as [|[k' v'] t IH].
  - intros _. simpl. rewrite SameValueZero_refl. reflexivity.
  - rewrite Map_has_cons. intros Hh. apply orb_false_iff in Hh.
    destruct Hh as [E Hh]. simpl. rewrite E. simpl. rewrite E.
    rewrite (IH Hh). reflexivity.
Qed.

Lemma Map_set_set (m : UserMap) (k : Value) (v1 v2 : User) :
  Map_set (Map_set m k v1) k v2 = Map_set m k v2.
Proof.
  induction m as [|[k' v'] t IH]; simpl.
  - rewrite SameValueZero_refl. reflexivity.
  - destruct (SameValueZero k' k) eqn:E; simpl; rewrite E; [reflexivity|].
    rewrite IH. reflexivity.
Qed.

Lemma fold_set_get_other (l : list User) (m : UserMap) (k : Value) :
  (forall u, In u l -> SameValueZero k (username u) = false) ->
  Map_get (fold_left (fun m u => Map_set m (username u) u) l m) k =
  Map_get m k.
Proof.
  revert m. induction l as [|u t IH]; intros m Hk; [reflexivity|].
  simpl. rewrite IH.
  - apply Map_get_set_other. apply Hk. left. reflexivity.
  - intros u' Hu'. apply Hk. right. exact Hu'.
Qed.

Lemma fold_set_get (l : list User) (m : UserMap) (u : User) :
  distinctNames l = true -> In u l ->
  Map_get (fold_left (fun m u => Map_set m (username u) u) l m) (username u)
  = Some u.
Proof.
  revert m. induction l as [|u0 t IH]; intros m Hd Hin; [destruct Hin|].
  simpl in Hd. apply andb_true_iff in Hd. destruct Hd as [Hf Hd].
  simpl. destruct Hin as [->|Hin].
  - rewrite fold_set_get_other.
    + apply Map_get_set_same.
    + intros u' Hu'. rewrite forallb_forall in Hf.
      specialize (Hf u' Hu'). apply negb_true_iff in Hf.
      rewrite SameValueZero_sym. exact Hf.
  - apply IH; assumption.
Qed.

Lemma usernames_Map_set (m : UserMap) (k : Value) (v : User) :
  Forall keyed m -> username v = k ->
  map (fun e => username (snd e)) (Map_set m k v) =
  map (fun e => username (snd e)) m ++ (if Map_has m k then [] else [k]).
Proof.
  intros Hk Hv. induction m as [|[k' v'] t IH].
  - simpl. rewrite Hv. reflexivity.
  - rewrite Map_has_cons. apply Forall_cons_iff in Hk.
    destruct Hk as [[Hu Ht] Hk']. cbn [fst snd] in *. simpl.
    destruct (SameValueZero k' k) eqn:E; simpl.
    + apply SameValueZero_eq in E; [|exact Ht].
      rewrite app_nil_r, Hu, Hv, E. reflexivity.
    + rewrite (IH Hk'). rewrite Hu. reflexivity.
Qed.

Lemma Map_get_stored (m : UserMap) (k : Value) (v : User) :
  Map_wf m = true -> In (k, v) m -> Map_get m k = Some v.
Proof.
  induction m as [|[k' v'] t IH]; intros Hwf Hin; [destruct Hin|].
  simpl in Hwf. apply andb_true_iff in Hwf. destruct Hwf as [Hf Hwf].
  apply negb_true_iff in Hf. simpl.
  destruct Hin as [E|Hin].
  - inversion E; subst. rewrite SameValueZero_refl. reflexivity.
  - rewrite Map_has_false in Hf. specialize (Hf _ Hin). cbn [fst] in Hf.
    rewrite SameValueZero_sym, Hf. apply IH; assumption.
Qed.

Lemma sub_nan_r (x : float) : x - nan = nan.
Proof.
  apply Prim2SF_inj. rewrite sub_spec. change (Prim2SF nan) with S754_nan.
  destruct (Prim2SF x); reflexivity.
Qed.

Lemma ltb_nan_l (x : float) : (nan <? x) = false.
Proof. rewrite ltb_spec. reflexivity. Qed.

Lemma ltb_nan_r (x : float) : (x <? nan) = false.
Proof.
  rewrite ltb_spec. change (Prim2SF nan) with S754_nan.
  unfold SFltb. destruct (Prim2SF x); reflexivity.
Qed.

Lemma ltb_infinity_l (x : float) : (infinity <? x) = false.
Proof.
  rewrite ltb_spec. change (Prim2SF infinity) with (S754_infinity false).
  unfold SFltb. destruct (Prim2SF x) as [| [|] | |]; reflexivity.
Qed.

Lemma fold_visitCleanup_none {H : Host} (now maxAgeMs : float)
  (l : UserMap) (st : UserMap * nat) :
  (forall e, In e l -> expired now maxAgeMs e = false) ->
  fold_left (visitCleanup now maxAgeMs) l st = st.
Proof.
  revert st. induction l as [|[k u] t IH]; intros st Hl; [reflexivity|].
  simpl. pose proof (Hl (k, u) (or_introl eq_refl)) as E.
  unfold expired in E. cbn [snd] in E. rewrite E.
  apply IH. intros e He. apply Hl. right. exact He.
Qed.

(** The users found around a centre, as entries of the directory. *)
Lemma findNearbyUsers_entries {H : Host} (users : UserMap) (latitude longitude : Value)
  (radius : float) (excludeUser : Value) (n : NearbyUser) :
  In n (findNearbyUsers users latitude longitude radius excludeUser) ->
  exists e,
    In e users /\
    scanned (parseFloat latitude) (parseFloat longitude) radius excludeUser e
    = true /\
    n = annotated (parseFloat latitude) (parseFloat longitude) e.
Proof.
  intros Hn.
  destruct (is_nan (parseFloat latitude) || is_nan (parseFloat longitude))
    eqn:E.
  - unfold findNearbyUsers, isNaN in Hn. rewrite E in Hn. destruct Hn.
  - destruct (findNearbyUsers_sorted_perm users latitude longitude radius
                excludeUser E) as [P _].
    apply (Permutation_in _ P) in Hn.
    apply in_map_iff in Hn. destruct Hn as (e & <- & He).
    apply filter_In in He. destruct He as [He Hs].
    exists e. auto.
Qed.

End DirectoryFacts.

(* ================================================================== *)
(** * Facts on the SOS route *)
(* ================================================================== *)

Module SosFacts.
Import Haversine Users Sos Settings Vocabulary Terms.
Import MapFacts UsersFacts NearbyFacts DirectoryFacts.

Lemma leb_nan_r (x : float) : (x <=? nan) = false.
Proof.
  rewrite leb_spec. change (Prim2SF nan) with S754_nan.
  unfold SFleb. destruct (Prim2SF x); reflexivity.
Qed.

Lemma ltb_negb_leb (x y : float) :
  is_nan x = false -> is_nan y = false -> (x <? y) = negb (y <=? x).
Proof.
  intros Hx Hy. destruct (y <=? x) eqn:E.
  - apply leb_not_ltb, E.
  - destruct (x <? y) eqn:E2; [reflexivity|].
    rewrite (not_ltb_leb y x Hy Hx E2) in E. discriminate.
Qed.

(** The coordinate test of the route is the complement of the bounds. *)
Lemma invalid_coordinates (lat lng : float) :
  isNaN lat || isNaN lng || (lat <? -90) || (90 <? lat)
  || (lng <? -180) || (180 <? lng) = negb (withinGeoBounds lat lng).
Proof.
  unfold withinGeoBounds, MIN_LATITUDE, MAX_LATITUDE, MIN_LONGITUDE,
    MAX_LONGITUDE, isNaN.
  destruct (is_nan lat) eqn:Nlat.
  { apply is_nan_eq in Nlat. subst lat. rewrite leb_nan_r. reflexivity. }
  destruct (is_nan lng) eqn:Nlng.
  { apply is_nan_eq in Nlng. subst lng. rewrite leb_nan_r, leb_nan_l.
    rewrite !andb_false_r. rewrite !orb_true_r. reflexivity. }
  rewrite (ltb_negb_leb lat (-90)), (ltb_negb_leb 90 lat),
    (ltb_negb_leb lng (-180)), (ltb_negb_leb 180 lng)
    by (assumption || reflexivity).
  destruct (-90 <=? lat), (lat <=? 90), (-180 <=? lng), (lng <=? 180);
    reflexivity.
Qed.

Lemma wellFormed_inv (req : Request) :
  wellFormed req = true ->
  ToBoolean (body_username req) = true /\
  ToBoolean (body_latitude req) = true /\
  ToBoolean (body_longitude req) = true /\
  withinGeoBounds (parseFloat (body_latitude req))
    (parseFloat (body_longitude req)) = true.
Proof. unfold wellFormed. rewrite !andb_true_iff. tauto. Qed.


Section WithHost.
Context {H : Host}.

(** What a request that passes the validations leaves behind. *)
Lemma postSos_accepted (radius : float) (timestamp alertId : string)
  (users : UserMap) (req : Request) :
  wellFormed req = true ->
  postSos radius timestamp alertId users req =
  let lat := parseFloat (body_latitude req) in
  let lng := parseFloat (body_longitude req) in
  let sosAlert :=
    {| alert_id := alertId; alert_username := body_username req;
       alert_latitude := lat; alert_longitude := lng;
       alert_timestamp := timestamp |} in
  let nearbyUsers :=
    findNearbyUsers users (Number lat) (Number lng) radius Null in
  {| response :=
       Success sosAlert
         (map (fun u =>
                 {| ru_username := Users.username (user u);
                    ru_distance :=
                      calculateDistance lat lng
                        (Users.latitude (user u)) (Users.longitude (user u));
                    ru_lastSeen := lastSeen (user u) |})
            nearbyUsers)
         (0 <? dashboardSockets req)%nat;
     broadcast :=
       if (0 <? dashboardSockets req)%nat
       then Some (sosAlert,
                  map (fun u =>
                         {| du_username := Users.username (user u);
                            du_latitude := Users.latitude (user u);
                            du_longitude := Users.longitude (user u);
                            du_distance :=
                              calculateDistance lat lng
                                (Users.latitude (user u))
                                (Users.longitude (user u)) |})
                    nearbyUsers)
       else None;
     directory :=
       fst (addUser timestamp
              {| ud_username := body_username req;
                 ud_latitude := Number lat; ud_longitude := Number lng;
                 ud_lastSeen := Str timestamp |}
              users) |}.
Proof.
  intros Hw. apply wellFormed_inv in Hw.
  destruct Hw as (Tu & Tlat & Tlng & Hb).
  unfold postSos. rewrite Tu, Tlat, Tlng. cbn [negb orb].
  rewrite invalid_coordinates, Hb. reflexivity.
Qed.

Lemma postSos_rejected (radius : float) (timestamp alertId : string)
  (users : UserMap) (req : Request) :
  wellFormed req = false ->
  exists error,
    postSos radius timestamp alertId users req =
    {| response := BadRequest error; broadcast := None;
       directory := users |}.
Proof.
  intros Hw. unfold postSos, wellFormed in *.
  destruct (ToBoolean (body_username req)), (ToBoolean (body_latitude req)),
    (ToBoolean (body_longitude req)); cbn [negb orb andb] in *;
    try (eexists; reflexivity).
  rewrite invalid_coordinates, Hw. eexists. reflexivity.
Qed.

End WithHost.


End SosFacts.

(* ================================================================== *)
(** * Facts on the crime data, its readers and its statistics *)
(* ================================================================== *)

Module DatasetFacts.
Import Haversine CsvParser CrimeZones CrimeStats Settings Vocabulary Terms.
Import CsvFacts.

(** ** Strings *)

Lemma prefix_refl (s : string) : prefix s s = true.
Proof.
  induction s as [|c s IH]; [reflexivity|].
  simpl. destruct (ascii_dec c c); [exact IH | congruence].
Qed.

Lemma includes_refl (s : string) : includes s s = true.
Proof.
  destruct s as [|c s]; [reflexivity|].
  cbn [includes]. rewrite prefix_refl. reflexivity.
Qed.

Lemma includes_empty (s : string) : includes s EmptyString = true.
Proof. destruct s; reflexivity. Qed.

Lemma lowerChar_idem (c : ascii) : lowerChar (lowerChar c) = lowerChar c.
Proof. destruct c as [[] [] [] [] [] [] [] []]; reflexivity. Qed.

Lemma toLowerCase_idem (s : string) :
  toLowerCase (toLowerCase s) = toLowerCase s.
Proof.
  induction s as [|c s IH]; [reflexivity|].
  simpl. now rewrite lowerChar_idem, IH.
Qed.

Lemma toLowerCase_empty (s : string) :
  toLowerCase s = EmptyString -> s = EmptyString.
Proof. destruct s; [reflexivity | discriminate]. Qed.

Lemma decimal_inj (n m : nat) : decimal n = decimal m -> n = m.
Proof.
  unfold decimal. intros E.
  apply (f_equal NilEmpty.uint_of_string) in E.
  rewrite !NilEmpty.usu in E. injection E as E.
  apply (f_equal Nat.of_uint) in E.
  now rewrite !DecimalNat.Unsigned.of_to in E.
Qed.

Lemma NoDup_map_injective {A B : Type} (f : A -> B) (l : list A) :
  (forall x y, f x = f y -> x = y) -> NoDup l -> NoDup (map f l).
Proof.
  intros Hf. induction 1 as [|x l Hx Hl IH]; simpl; constructor.
  - intros Hin. apply in_map_iff in Hin. destruct Hin as (y & Hy & Hin).
    apply Hf in Hy. subst y. contradiction.
  - exact IH.
Qed.

(** ** The loader *)

Lemma accepted_withinGeoBounds (row : Row) :
  accepted row = true ->
  withinGeoBounds (parseFloat (cell (row_latitude row)))
    (parseFloat (cell (row_longitude row))) = true.
Proof.
  unfold accepted, withinGeoBounds, MIN_LATITUDE, MAX_LATITUDE,
    MIN_LONGITUDE, MAX_LONGITUDE.
  rewrite !andb_true_iff. tauto.
Qed.

(** What holds of [results] throughout a call, and of [crimeData] once it
    did, holds of [crimeData] after any events. *)
Lemma deliver_invariant (P : list Crime -> Prop) :
  P [] ->
  (forall row results, P results -> P (onData row results)) ->
  forall events st,
    P (crimeData (fst st)) -> P (results (snd st)) ->
    P (crimeData (fst (deliver events st))) /\
    P (results (snd (deliver events st))).
Proof.
  intros Hnil Hdata. induction events as [|ev rest IH]; intros st Hc Hr.
  - split; assumption.
  - unfold deliver in *. simpl. apply IH.
    + destruct st as [store load]. unfold step.
      destruct (promise load); [|assumption|assumption].
      destruct ev; cbn [fst snd crimeData] in *; assumption.
    + destruct st as [store load]. unfold step.
      destruct (promise load); [|assumption|assumption].
      destruct ev; cbn [fst snd results] in *; auto.
Qed.

Lemma reachableStore_invariant (P : list Crime -> Prop) :
  P [] ->
  (forall row results, P results -> P (onData row results)) ->
  forall store, reachableStore store -> P (crimeData store).
Proof.
  intros Hnil Hdata store Hr.
  induction Hr as [|fileExists events store Hr IH
                   |fileExists events store Hr IH].
  - exact Hnil.
  - apply deliver_invariant; try assumption;
      unfold loadCrimeData; destruct fileExists; cbn; assumption.
  - apply deliver_invariant; try assumption;
      unfold reloadCrimeData, loadCrimeData; destruct fileExists; cbn;
      assumption.
Qed.

(** ** The statistics *)

Lemma own_assign (o : Object) (key key2 : string) (v : Counter) :
  own (assign o key v) key2 =
  if (key =? key2)%string then Some v else own o key2.
Proof.
  induction o as [|[k v'] t IH]; simpl.
  - reflexivity.
  - destruct (String.eqb_spec k key) as [->|Hk]; simpl.
    + destruct (key =? key2)%string; reflexivity.
    + rewrite IH.
      destruct (String.eqb_spec k key2) as [->|Hk2]; [|reflexivity].
      destruct (String.eqb_spec key key2) as [->|]; [congruence|reflexivity].
Qed.

Lemma own_setProperty (o : Object) (key key2 : string) (v : Counter) :
  own (setProperty o key v) key2 =
  if (key =? key2)%string && negb (key =? "__proto__")%string
  then Some v else own o key2.
Proof.
  unfold setProperty. destruct (key =? "__proto__")%string.
  - rewrite andb_false_r. reflexivity.
  - rewrite andb_true_r. apply own_assign.
Qed.

(** The counter of [key] after the loop has run over [crimeData] from the
    object [o]. *)
Lemma own_countByType (crimeData : list Crime) (o : Object) (key : string) :
  own (fold_left
         (fun byType crime =>
            let type := if ToBoolean (Str (type crime)) then type crime
                        else "Unknown" in
            setProperty byType type (bump byType type))
         crimeData o) key =
  match occurrences crimeData key with
  | O => own o key
  | S m =>
      if (key =? "__proto__")%string then own o key
      else match own o key with
           | Some (Count n) => Some (Count (n + S m))
           | Some Text => Some Text
           | None => if inherited key then Some Text else Some (Count (S m))
           end
  end.
Proof.
  revert o. induction crimeData as [|c t IH]; intros o; [reflexivity|].
  cbn [fold_left]. rewrite IH. clear IH.
  unfold occurrences. cbn [filter]. fold (statLabel c).
  rewrite own_setProperty.
  destruct (String.eqb_spec (statLabel c) key) as [->|Hk];
    cbn [andb List.length].
  - fold (occurrences t key).
    destruct (key =? "__proto__")%string eqn:Ep; cbn [negb].
    + destruct (occurrences t key); reflexivity.
    + unfold bump.
      destruct (occurrences t key) as [|m];
        destruct (own o key) as [[n|]|];
        try reflexivity;
        try (destruct (inherited key); reflexivity);
        try (do 2 f_equal; lia).
  - fold (occurrences t key). reflexivity.
Qed.

(** ** The filters of the route *)

Lemma filter_comm {A : Type} (f g : A -> bool) (l : list A) :
  filter f (filter g l) = filter g (filter f l).
Proof.
  induction l as [|x l IH]; [reflexivity|].
  simpl. destruct (f x) eqn:Ef, (g x) eqn:Eg; simpl;
    rewrite ?Ef, ?Eg, IH; reflexivity.
Qed.

Lemma includes_nothing (sub : string) :
  sub <> EmptyString -> includes EmptyString sub = false.
Proof. destruct sub; [congruence | reflexivity]. Qed.

End DatasetFacts.

(* ================================================================== *)
(** * Further properties of the directory *)
(* ================================================================== *)

Module DirectoryProperties.
Import Haversine Users Settings Examples Vocabulary Terms.
Import SmallAngleFacts HaversineFacts MapFacts UsersFacts NearbyFacts.
Import DirectoryFacts.

(** X1.  Removing a user from a directory without duplicate keys returns
    true exactly when the user was stored; afterwards the user is unknown,
    every other user is looked up as before, and the count has dropped by
    one exactly when true was returned. *)
Theorem removeUser_forgets (users : UserMap) (username : Value) :
  Map_wf users = true ->
  (snd (removeUser users username) = true <->
   getUser users username <> None) /\
  getUser (fst (removeUser users username)) username = None /\
  (forall other,
     SameValueZero other username = false ->
     getUser (fst (removeUser users username)) other = getUser users other) /\
  (getUserCount (fst (removeUser users username)) +
   (if snd (removeUser users username) then 1 else 0))%nat =
  getUserCount users.
Proof.
  intros Hwf. unfold removeUser, Map_delete, getUser, getUserCount.
  cbn [fst snd]. repeat split.
  - unfold Map_has. destruct (Map_get users username); congruence.
  - unfold Map_has. destruct (Map_get users username); congruence.
  - apply Map_get_remove_same, Hwf.
  - intros other Ho. apply Map_get_remove_other, Ho.
  - apply length_Map_remove.
Qed.

Lemma removeUser_forgets_witness :
  (snd (removeUser mockDirectory (Str "Emma_K")) = true <->
   getUser mockDirectory (Str "Emma_K") <> None) /\
  getUser (fst (removeUser mockDirectory (Str "Emma_K"))) (Str "Emma_K")
  = None /\
  (forall other,
     SameValueZero other (Str "Emma_K") = false ->
     getUser (fst (removeUser mockDirectory (Str "Emma_K"))) other =
     getUser mockDirectory other) /\
  (getUserCount (fst (removeUser mockDirectory (Str "Emma_K"))) +
   (if snd (removeUser mockDirectory (Str "Emma_K")) then 1 else 0))%nat =
  getUserCount mockDirectory.
Proof.
  apply (removeUser_forgets mockDirectory (Str "Emma_K")). reflexivity.
Defined.

(** X2.  [addUser] makes the directory grow by one entry exactly when it
    accepts the data and the username was not stored yet; an update of a
    stored user and a rejected call leave the count as it is. *)
Theorem addUser_count (now : string) (userData : UserData) (users : UserMap) :
  getUserCount (fst (addUser now userData users)) =
  (getUserCount users +
   (if snd (addUser now userData users)
       && negb (Map_has users (ud_username userData))
    then 1 else 0))%nat.
Proof.
  unfold addUser, getUserCount.
  destruct (negb (ToBoolean (ud_username userData))
            || negb (ToBoolean (ud_latitude userData))
            || negb (ToBoolean (ud_longitude userData))); cbn [fst snd].
  - simpl. lia.
  - rewrite length_Map_set.
    destruct (Map_has users (ud_username userData)); reflexivity.
Qed.

(** X3.  Adding a user that was not stored and then removing it gives back
    the directory as it was, entry for entry, and [removeUser] reports the
    removal. *)
Theorem addUser_then_removeUser (now : string) (userData : UserData)
  (users : UserMap) :
  snd (addUser now userData users) = true ->
  getUser users (ud_username userData) = None ->
  removeUser (fst (addUser now userData users)) (ud_username userData) =
  (users, true).
Proof.
  unfold addUser, removeUser, Map_delete, getUser.
  destruct (negb (ToBoolean (ud_username userData))
            || negb (ToBoolean (ud_latitude userData))
            || negb (ToBoolean (ud_longitude userData))); cbn [fst snd];
    [discriminate|].
  intros _ Hn. f_equal.
  - apply Map_remove_set_fresh. unfold Map_has. rewrite Hn. reflexivity.
  - unfold Map_has. rewrite Map_get_set_same. reflexivity.
Qed.

Lemma addUser_then_removeUser_witness :
  removeUser
    (fst (addUser loadedAt
            {| ud_username := Str "Asha"; ud_latitude := Number 26.85;
               ud_longitude := Number 80.88; ud_lastSeen := Undefined |}
            mockDirectory))
    (Str "Asha") =
  (mockDirectory, true).
Proof.
  apply (addUser_then_removeUser loadedAt
           {| ud_username := Str "Asha"; ud_latitude := Number 26.85;
              ud_longitude := Number 80.88; ud_lastSeen := Undefined |}
           mockDirectory); reflexivity.
Defined.

(** X4.  The last write wins: when two calls of [addUser] carry the same
    username and the second is accepted, the directory after both is the
    directory after the second alone, whatever the first one did. *)
Theorem addUser_last_write_wins (now1 now2 : string)
  (first second : UserData) (users : UserMap) :
  ud_username first = ud_username second ->
  snd (addUser now2 second users) = true ->
  fst (addUser now2 second (fst (addUser now1 first users))) =
  fst (addUser now2 second users).
Proof.
  intros Hu Hs.
  assert (Hacc : forall m,
             fst (addUser now2 second m) =
             Map_set m (ud_username second)
               {| username := ud_username second;
                  latitude := parseFloat (ud_latitude second);
                  longitude := parseFloat (ud_longitude second);
                  lastSeen := if ToBoolean (ud_lastSeen second)
                              then ud_lastSeen second else Str now2 |}).
  { intros m. unfold addUser in *.
    destruct (negb (ToBoolean (ud_username second))
              || negb (ToBoolean (ud_latitude second))
              || negb (ToBoolean (ud_longitude second)));
      [discriminate | reflexivity]. }
  rewrite !Hacc. unfold addUser.
  destruct (negb (ToBoolean (ud_username first))
            || negb (ToBoolean (ud_latitude first))
            || negb (ToBoolean (ud_longitude first))); cbn [fst snd];
    [reflexivity|].
  rewrite Hu. apply Map_set_set.
Qed.

Lemma addUser_last_write_wins_witness :
  fst (addUser loadedAt
         {| ud_username := Str "Emma_K"; ud_latitude := Number 26.85;
            ud_longitude := Number 80.88; ud_lastSeen := Undefined |}
         (fst (addUser loadedAt
                 {| ud_username := Str "Emma_K"; ud_latitude := Number 1;
                    ud_longitude := Number 2; ud_lastSeen := Undefined |}
                 mockDirectory))) =
  fst (addUser loadedAt
         {| ud_username := Str "Emma_K"; ud_latitude := Number 26.85;
            ud_longitude := Number 80.88; ud_lastSeen := Undefined |}
         mockDirectory).
Proof.
  apply (addUser_last_write_wins loadedAt loadedAt
           {| ud_username := Str "Emma_K"; ud_latitude := Number 1;
              ud_longitude := Number 2; ud_lastSeen := Undefined |}
           {| ud_username := Str "Emma_K"; ud_latitude := Number 26.85;
              ud_longitude := Number 80.88; ud_lastSeen := Undefined |}
           mockDirectory); reflexivity.
Defined.

(** X5.  The sweep never evicts an entry whose [lastSeen] is not a date:
    its age is not a number, and no comparison with it holds. *)
Theorem cleanupOldUsers_keeps_undated {H : Host} (now maxAgeMs : float)
  (users : UserMap) (e : Value * User) :
  Map_wf users = true ->
  In e users ->
  is_nan (Date_time (lastSeen (snd e))) = true ->
  In e (fst (cleanupOldUsers now maxAgeMs users)).
Proof.
  intros Hwf Hin Hd. rewrite cleanupOldUsers_filter by exact Hwf.
  cbn [fst]. apply filter_In. split; [exact Hin|].
  unfold expired. apply is_nan_eq in Hd. rewrite Hd, sub_nan_r, ltb_nan_r.
  reflexivity.
Qed.

Lemma cleanupOldUsers_keeps_undated_witness :
  In (Str "old", mkUser "old" 1 1 "long ago")
    (fst (cleanupOldUsers (H := SmallAngle.host) 150 100
            [(Str "old", mkUser "old" 1 1 "long ago")])).
Proof.
  apply (cleanupOldUsers_keeps_undated (H := SmallAngle.host) 150 100
           [(Str "old", mkUser "old" 1 1 "long ago")]
           (Str "old", mkUser "old" 1 1 "long ago")).
  - reflexivity.
  - left. reflexivity.
  - reflexivity.
Defined.

(** X6.  A sweep whose maximum age is not a number, or is infinite, removes
    nothing and reports zero removals. *)
Theorem cleanupOldUsers_unbounded {H : Host} (now maxAgeMs : float)
  (users : UserMap) :
  is_nan maxAgeMs = true \/ maxAgeMs = infinity ->
  cleanupOldUsers now maxAgeMs users = (users, 0%nat).
Proof.
  intros Hm. unfold cleanupOldUsers. apply fold_visitCleanup_none.
  intros e _. unfold expired. destruct Hm as [Hm| ->].
  - apply is_nan_eq in Hm. rewrite Hm. apply ltb_nan_l.
  - apply ltb_infinity_l.
Qed.

Lemma cleanupOldUsers_unbounded_witness :
  cleanupOldUsers (H := SmallAngle.host) 150 infinity agedDirectory =
  (agedDirectory, 0%nat).
Proof.
  apply (cleanupOldUsers_unbounded (H := SmallAngle.host) 150 infinity
           agedDirectory).
  right. reflexivity.
Defined.

(** X7.  The listing keeps its order: in a directory the exported
    functions can produce, an accepted [addUser] leaves every listed user
    at its place in [getAllUsers]; a user already stored is updated where
    it stands and a new user is listed last. *)
Theorem addUser_keeps_order {H : Host} (now : string) (userData : UserData)
  (users : UserMap) :
  reachable users ->
  snd (addUser now userData users) = true ->
  map username (getAllUsers (fst (addUser now userData users))) =
  map username (getAllUsers users) ++
  (if Map_has users (ud_username userData) then []
   else [ud_username userData]).
Proof.
  intros Hr Hs. apply reachable_keyed in Hr.
  unfold addUser in *. unfold getAllUsers. rewrite !map_map.
  destruct (negb (ToBoolean (ud_username userData))
            || negb (ToBoolean (ud_latitude userData))
            || negb (ToBoolean (ud_longitude userData))); cbn [fst snd] in *;
    [discriminate|].
  apply usernames_Map_set; [exact Hr | reflexivity].
Qed.

Lemma addUser_keeps_order_witness :
  map username
    (getAllUsers
       (fst (addUser loadedAt
               {| ud_username := Str "Emma_K"; ud_latitude := Number 26.85;
                  ud_longitude := Number 80.88; ud_lastSeen := Undefined |}
               mockDirectory))) =
  map username (getAllUsers mockDirectory) ++
  (if Map_has mockDirectory (Str "Emma_K") then [] else [Str "Emma_K"]).
Proof.
  apply (addUser_keeps_order (H := SmallAngle.host) loadedAt
           {| ud_username := Str "Emma_K"; ud_latitude := Number 26.85;
              ud_longitude := Number 80.88; ud_lastSeen := Undefined |}
           mockDirectory).
  - exact (reach_load (fun _ => loadedAt)).
  - reflexivity.
Defined.

(** X8.  [initializeUsers] stores every mock user under its username,
    whatever the directory held before, and leaves the users of every other
    name as they were. *)
Theorem initializeUsers_restores (loaded : nat -> string) (users : UserMap) :
  (forall u,
     In u (mockUsers loaded) ->
     getUser (initializeUsers loaded users) (username u) = Some u) /\
  (forall k,
     (forall u, In u (mockUsers loaded) ->
                SameValueZero k (username u) = false) ->
     getUser (initializeUsers loaded users) k = getUser users k).
Proof.
  unfold getUser, initializeUsers. split.
  - intros u Hu. apply fold_set_get; [reflexivity | exact Hu].
  - intros k Hk. apply fold_set_get_other, Hk.
Qed.

(** X9.  A larger radius never loses a user: whoever [findNearbyUsers]
    reports within [r1] of a centre is reported, at the same distance,
    within every [r2] above [r1]. *)
Theorem findNearbyUsers_radius_monotone {H : Host} (users : UserMap)
  (latitude longitude : Value) (r1 r2 : float) (excludeUser : Value) :
  (r1 <=? r2) = true ->
  forall n,
    In n (findNearbyUsers users latitude longitude r1 excludeUser) ->
    In n (findNearbyUsers users latitude longitude r2 excludeUser).
Proof.
  intros Hr n Hn.
  destruct (is_nan (parseFloat latitude) || is_nan (parseFloat longitude))
    eqn:E.
  - unfold findNearbyUsers, isNaN in Hn. rewrite E in Hn. destruct Hn.
  - destruct (findNearbyUsers_sorted_perm users latitude longitude r1
                excludeUser E) as [P1 _].
    destruct (findNearbyUsers_sorted_perm users latitude longitude r2
                excludeUser E) as [P2 _].
    apply (Permutation_in _ (Permutation_sym P2)).
    apply (Permutation_in _ P1) in Hn.
    apply in_map_iff in Hn. destruct Hn as (e & <- & He).
    apply in_map. apply filter_In in He. destruct He as [He Hs].
    apply filter_In. split; [exact He|].
    unfold scanned in *. apply andb_true_iff in Hs. destruct Hs as [Hs Hd].
    rewrite Hs. simpl. eapply leb_trans; eassumption.
Qed.

Lemma findNearbyUsers_radius_monotone_witness :
  (500 <=? 1000) = true /\
  (forall n,
     In n (findNearbyUsers (H := SmallAngle.host) mockDirectory
             (Number 40.7580) (Number (-73.9855)) 500 Null) ->
     In n (findNearbyUsers (H := SmallAngle.host) mockDirectory
             (Number 40.7580) (Number (-73.9855)) 1000 Null)).
Proof.
  split; [reflexivity|].
  apply (findNearbyUsers_radius_monotone (H := SmallAngle.host) mockDirectory
           (Number 40.7580) (Number (-73.9855)) 500 1000 Null).
  reflexivity.
Defined.

(** X10.  In a directory the exported functions can produce, every user
    that [findNearbyUsers] reports is the current entry of its username, is
    reported with its distance to the centre, which does not exceed the
    radius, and does not bear the excluded username when one is given. *)
Theorem findNearbyUsers_sound {H : Host} (users : UserMap)
  (latitude longitude : Value) (radius : float) (excludeUser : Value) :
  reachable users ->
  forall n,
    In n (findNearbyUsers users latitude longitude radius excludeUser) ->
    getUser users (username (user n)) = Some (user n) /\
    distance n =
      calculateDistance (parseFloat latitude) (parseFloat longitude)
        (Users.latitude (user n)) (Users.longitude (user n)) /\
    (distance n <=? radius) = true /\
    (ToBoolean excludeUser = true ->
     StrictEquals (username (user n)) excludeUser = false).
Proof.
  intros Hr n Hn.
  pose proof (reachable_wf users Hr) as Hwf.
  pose proof (reachable_keyed users Hr) as Hk.
  destruct (is_nan (parseFloat latitude) || is_nan (parseFloat longitude))
    eqn:E.
  - unfold findNearbyUsers, isNaN in Hn. rewrite E in Hn. destruct Hn.
  - destruct (findNearbyUsers_sorted_perm users latitude longitude radius
                excludeUser E) as [P _].
    apply (Permutation_in _ P) in Hn.
    apply in_map_iff in Hn. destruct Hn as ([k u] & <- & He).
    apply filter_In in He. destruct He as [He Hs].
    rewrite Forall_forall in Hk. destruct (Hk _ He) as [Hu _].
    cbn [fst snd] in Hu. unfold annotated. cbn [user distance fst snd].
    unfold scanned in Hs. cbn [fst snd] in Hs.
    apply andb_true_iff in Hs. destruct Hs as [Hs Hd].
    apply andb_true_iff in Hs. destruct Hs as [Hx _].
    repeat split.
    + unfold getUser. rewrite Hu. apply Map_get_stored; assumption.
    + exact Hd.
    + intros Ht. rewrite Ht in Hx. simpl in Hx.
      apply negb_true_iff in Hx. rewrite Hu. exact Hx.
Qed.

Lemma findNearbyUsers_sound_witness :
  reachable (H := SmallAngle.host) mockDirectory /\
  (forall n,
     In n (findNearbyUsers (H := SmallAngle.host) mockDirectory
             (Number 40.7580) (Number (-73.9855)) 500 (Str "Sarah_M")) ->
     getUser mockDirectory (username (user n)) = Some (user n) /\
     distance n =
       calculateDistance (H := SmallAngle.host)
         (parseFloat (Number 40.7580)) (parseFloat (Number (-73.9855)))
         (Users.latitude (user n)) (Users.longitude (user n)) /\
     (distance n <=? 500) = true /\
     (ToBoolean (Str "Sarah_M") = true ->
      StrictEquals (username (user n)) (Str "Sarah_M") = false)).
Proof.
  split; [exact (reach_load (fun _ => loadedAt))|].
  exact (findNearbyUsers_sound (H := SmallAngle.host) mockDirectory
           (Number 40.7580) (Number (-73.9855)) 500 (Str "Sarah_M")
           (reach_load (fun _ => loadedAt))).
Defined.

(** X11.  A user stored by [addUser] at coordinates within the geographic
    bounds is found at once, at distance 0, by a query centred on those
    coordinates, whatever the radius of at least zero. *)
Theorem addUser_then_findNearbyUsers {H : Host} {HS : HostSpec H}
  (now : string) (userData : UserData) (users : UserMap) (radius : float) :
  snd (addUser now userData users) = true ->
  withinGeoBounds (parseFloat (ud_latitude userData))
    (parseFloat (ud_longitude userData)) = true ->
  (0 <=? radius) = true ->
  In {| user :=
          {| username := ud_username userData;
             Users.latitude := parseFloat (ud_latitude userData);
             Users.longitude := parseFloat (ud_longitude userData);
             lastSeen := if ToBoolean (ud_lastSeen userData)
                         then ud_lastSeen userData else Str now |};
        distance := 0 |}
     (findNearbyUsers (fst (addUser now userData users))
        (ud_latitude userData) (ud_longitude userData) radius Null).
Proof.
  intros Hs Hb Hr. unfold addUser in *.
  destruct (negb (ToBoolean (ud_username userData))
            || negb (ToBoolean (ud_latitude userData))
            || negb (ToBoolean (ud_longitude userData))); cbn [fst snd] in *;
    [discriminate|].
  set (lat := parseFloat (ud_latitude userData)) in *.
  set (lng := parseFloat (ud_longitude userData)) in *.
  set (stored := {| username := ud_username userData;
                    Users.latitude := lat; Users.longitude := lng;
                    lastSeen := if ToBoolean (ud_lastSeen userData)
                                then ud_lastSeen userData else Str now |}).
  unfold withinGeoBounds, MIN_LATITUDE, MAX_LATITUDE, MIN_LONGITUDE,
    MAX_LONGITUDE in Hb.
  rewrite !andb_true_iff in Hb. destruct Hb as [[[L1 L2] G1] G2].
  destruct (leb_not_nan _ _ L1) as [_ Nlat].
  destruct (leb_not_nan _ _ G1) as [_ Nlng].
  destruct (findNearbyUsers_sorted_perm
              (Map_set users (ud_username userData) stored)
              (ud_latitude userData) (ud_longitude userData) radius Null)
    as [P _].
  { fold lat lng. rewrite Nlat, Nlng. reflexivity. }
  fold lat lng in P. apply (Permutation_in _ (Permutation_sym P)).
  destruct (Map_get_In _ _ _
              (Map_get_set_same users (ud_username userData) stored))
    as (k & Hin & _).
  replace {| user := stored; distance := 0 |}
    with (annotated lat lng (k, stored)).
  - apply in_map, filter_In. split; [exact Hin|].
    unfold scanned, isNaN. cbn [ToBoolean andb negb fst snd stored
      Users.latitude Users.longitude].
    rewrite Nlat, Nlng, calculateDistance_self by assumption. exact Hr.
  - unfold annotated. cbn [fst snd stored Users.latitude Users.longitude].
    rewrite calculateDistance_self by assumption. reflexivity.
Qed.

Lemma addUser_then_findNearbyUsers_witness :
  In {| user :=
          {| username := Str "Asha"; Users.latitude := 26.85;
             Users.longitude := 80.88; lastSeen := Str loadedAt |};
        distance := 0 |}
     (findNearbyUsers (H := SmallAngle.host)
        (fst (addUser loadedAt
                {| ud_username := Str "Asha"; ud_latitude := Str "26.85";
                   ud_longitude := Str "80.88"; ud_lastSeen := Undefined |}
                mockDirectory))
        (Str "26.85") (Str "80.88") 500 Null).
Proof.
  apply (addUser_then_findNearbyUsers (H := SmallAngle.host)
           (HS := SmallAngle_spec) loadedAt
           {| ud_username := Str "Asha"; ud_latitude := Str "26.85";
              ud_longitude := Str "80.88"; ud_lastSeen := Undefined |}
           mockDirectory 500); reflexivity.
Defined.

(** X12.  Once a user is removed from a directory the exported functions
    can produce, no query reports a user of that name. *)
Theorem removeUser_then_findNearbyUsers {H : Host} (users : UserMap)
  (name : Value) (latitude longitude : Value) (radius : float)
  (excludeUser : Value) :
  reachable users ->
  forall n,
    In n (findNearbyUsers (fst (removeUser users name)) latitude longitude
            radius excludeUser) ->
    username (user n) <> name.
Proof.
  intros Hr n Hn Heq.
  pose proof (reach_removeUser name users Hr) as Hr'.
  pose proof (reachable_keyed _ Hr') as Hk.
  pose proof (reachable_wf _ Hr) as Hwf.
  apply findNearbyUsers_entries in Hn. destruct Hn as ([k u] & He & _ & ->).
  rewrite Forall_forall in Hk. destruct (Hk _ He) as [Hu _].
  cbn [fst snd annotated user] in *.
  pose proof (Map_get_remove_same users name Hwf) as Hg.
  rewrite Map_get_None in Hg. specialize (Hg _ He). cbn [fst] in Hg.
  rewrite <- Hu, Heq, SameValueZero_refl in Hg. discriminate.
Qed.

Lemma removeUser_then_findNearbyUsers_witness :
  reachable (H := SmallAngle.host) mockDirectory /\
  (forall n,
     In n (findNearbyUsers (H := SmallAngle.host)
             (fst (removeUser mockDirectory (Str "Emma_K")))
             (Number 40.7580) (Number (-73.9855)) 1000 Null) ->
     username (user n) <> Str "Emma_K").
Proof.
  split; [exact (reach_load (fun _ => loadedAt))|].
  exact (removeUser_then_findNearbyUsers (H := SmallAngle.host) mockDirectory
           (Str "Emma_K") (Number 40.7580) (Number (-73.9855)) 1000 Null
           (reach_load (fun _ => loadedAt))).
Defined.

(** X13.  After a sweep of a directory the exported functions can produce,
    no query reports a user the sweep found older than the maximum age. *)
Theorem cleanupOldUsers_then_findNearbyUsers {H : Host}
  (now maxAgeMs : float) (users : UserMap) (latitude longitude : Value)
  (radius : float) (excludeUser : Value) :
  reachable users ->
  forall n,
    In n (findNearbyUsers (fst (cleanupOldUsers now maxAgeMs users))
            latitude longitude radius excludeUser) ->
    (maxAgeMs <? now - Date_time (lastSeen (user n))) = false.
Proof.
  intros Hr n Hn.
  pose proof (reachable_wf _ Hr) as Hwf.
  apply findNearbyUsers_entries in Hn. destruct Hn as (e & He & _ & ->).
  rewrite cleanupOldUsers_filter in He by exact Hwf. cbn [fst] in He.
  apply filter_In in He. destruct He as [_ He].
  apply negb_true_iff in He. exact He.
Qed.

Lemma cleanupOldUsers_then_findNearbyUsers_witness :
  reachable (H := SmallAngle.host) staleDirectory /\
  snd (cleanupOldUsers (H := SmallAngle.host) 150 100 staleDirectory) = 1%nat /\
  existsb (fun n => StrictEquals (username (user n)) (Str "Old"))
    (findNearbyUsers (H := SmallAngle.host) staleDirectory
       (Number 40.7580) (Number (-73.9855)) 1000 Null) = true /\
  (forall n,
     In n (findNearbyUsers (H := SmallAngle.host)
             (fst (cleanupOldUsers (H := SmallAngle.host) 150 100
                     staleDirectory))
             (Number 40.7580) (Number (-73.9855)) 1000 Null) ->
     (100 <? 150 - Date_time (Host := SmallAngle.host) (lastSeen (user n)))
     = false).
Proof.
  assert (Hr : reachable (H := SmallAngle.host) staleDirectory)
    by exact (reach_addUser loadedAt
                {| ud_username := Str "Old"; ud_latitude := Number 40.7580;
                   ud_longitude := Number (-73.9855);
                   ud_lastSeen := Number 1 |}
                mockDirectory (reach_load (fun _ => loadedAt))).
  split; [exact Hr|]. split; [reflexivity|]. split; [reflexivity|].
  exact (cleanupOldUsers_then_findNearbyUsers (H := SmallAngle.host) 150 100
           staleDirectory (Number 40.7580) (Number (-73.9855)) 1000 Null Hr).
Defined.

End DirectoryProperties.

(* ================================================================== *)
(** * Further properties of the SOS route *)
(* ================================================================== *)

Module SosProperties.
Import Haversine Users Sos Settings Examples Vocabulary Terms.
Import SmallAngleFacts HaversineFacts MapFacts UsersFacts NearbyFacts.
Import DirectoryFacts SosFacts.








(** X18.  Alerts keep the directory among the states the exported functions
    can produce: whatever the request, the directory after POST /api/sos
    still holds each user once, under its own username. *)
Theorem postSos_keeps_directory {H : Host} (radius : float)
  (timestamp alertId : string) (users : UserMap) (req : Request) :
  reachable users ->
  reachable (directory (postSos radius timestamp alertId users req)) /\
  Map_wf (directory (postSos radius timestamp alertId users req)) = true /\
  Forall (fun e => username (snd e) = fst e)
    (directory (postSos radius timestamp alertId users req)).
Proof.
  intros Hr.
  assert (Hr' : reachable
                  (directory (postSos radius timestamp alertId users req))).
  { destruct (wellFormed req) eqn:Hw.
    - rewrite (postSos_accepted _ _ _ _ _ Hw). cbn [directory].
      apply reach_addUser, Hr.
    - destruct (postSos_rejected radius timestamp alertId users req Hw)
        as [error ->].
      exact Hr. }
  split; [exact Hr'|]. split.
  - apply reachable_wf, Hr'.
  - apply reachable_keyed in Hr'.
    apply Forall_impl with (2 := Hr'). intros e [He _]. exact He.
Qed.

Lemma postSos_keeps_directory_witness :
  reachable (H := SmallAngle.host)
    (directory
       (postSos (H := SmallAngle.host) NEARBY_RADIUS loadedAt "sos_1"
          mockDirectory
          {| body_username := Str "Asha"; body_latitude := Str "26.85";
             body_longitude := Str "80.88"; dashboardSockets := 0 |})) /\
  Map_wf
    (directory
       (postSos (H := SmallAngle.host) NEARBY_RADIUS loadedAt "sos_1"
          mockDirectory
          {| body_username := Str "Asha"; body_latitude := Str "26.85";
             body_longitude := Str "80.88"; dashboardSockets := 0 |}))
  = true /\
  Forall (fun e => username (snd e) = fst e)
    (directory
       (postSos (H := SmallAngle.host) NEARBY_RADIUS loadedAt "sos_1"
          mockDirectory
          {| body_username := Str "Asha"; body_latitude := Str "26.85";
             body_longitude := Str "80.88"; dashboardSockets := 0 |})).
Proof.
  exact (postSos_keeps_directory (H := SmallAngle.host) NEARBY_RADIUS
           loadedAt "sos_1" mockDirectory
           {| body_username := Str "Asha"; body_latitude := Str "26.85";
              body_longitude := Str "80.88"; dashboardSockets := 0 |}
           (reach_load (fun _ => loadedAt))).
Defined.

End SosProperties.

(* ================================================================== *)
(** * Further properties of the crime data and its routes *)
(* ================================================================== *)

Module DatasetProperties.
Import Haversine CsvParser CrimeZones CrimeStats Settings Examples.
Import Vocabulary Terms.
Import SmallAngleFacts HaversineFacts CsvFacts RunningFacts QueryFacts.
Import DatasetFacts.

(** X19.  Whatever the streams deliver, every record the module holds has
    coordinates within the geographic bounds. *)
Theorem crimeData_within_bounds (store : Store) :
  reachableStore store ->
  Forall (fun crime =>
            withinGeoBounds (CsvParser.latitude crime)
              (CsvParser.longitude crime) = true)
    (crimeData store).
Proof.
  apply (reachableStore_invariant
           (Forall (fun crime =>
                      withinGeoBounds (CsvParser.latitude crime)
                        (CsvParser.longitude crime) = true))).
  - constructor.
  - intros row results Hr. rewrite onData_spec.
    destruct (accepted row) eqn:Ha; [|exact Hr].
    apply Forall_app. split; [exact Hr|].
    constructor; [|constructor].
    apply accepted_withinGeoBounds, Ha.
Qed.

Lemma crimeData_within_bounds_witness :
  Forall (fun crime =>
            withinGeoBounds (CsvParser.latitude crime)
              (CsvParser.longitude crime) = true)
    (crimeData
       (fst (deliver (streamOf [invalidRow; theftRow])
               (loadCrimeData true initialStore)))).
Proof.
  apply (crimeData_within_bounds
           (fst (deliver (streamOf [invalidRow; theftRow])
                   (loadCrimeData true initialStore)))).
  apply reach_loadCrimeData, reach_initial.
Defined.

(** X20.  Whatever the streams deliver, the records the module holds are
    numbered [crime_1], [crime_2], ... in order, so no two of them share an
    identifier. *)
Theorem crimeData_ids_distinct (store : Store) :
  reachableStore store ->
  map id (crimeData store) =
    map (fun i => ("crime_" ++ decimal i)%string)
      (seq 1 (List.length (crimeData store))) /\
  NoDup (map id (crimeData store)).
Proof.
  intros Hr.
  assert (Hn : map id (crimeData store) =
               map (fun i => ("crime_" ++ decimal i)%string)
                 (seq 1 (List.length (crimeData store)))).
  { revert store Hr.
    apply (reachableStore_invariant
             (fun l => map id l =
                       map (fun i => ("crime_" ++ decimal i)%string)
                         (seq 1 (List.length l)))).
    - reflexivity.
    - intros row results Hres. rewrite onData_spec.
      destruct (accepted row); [|exact Hres].
      rewrite length_app, map_app, Hres. cbn [List.length map id recordOf].
      rewrite Nat.add_1_r, seq_S, map_app. cbn [map].
      rewrite (Nat.add_comm 1). rewrite Nat.add_1_r. reflexivity. }
  split; [exact Hn|].
  rewrite Hn. apply NoDup_map_injective; [|apply seq_NoDup].
  intros i j E. cbn in E. injection E as E. apply decimal_inj, E.
Qed.

Lemma crimeData_ids_distinct_witness :
  map id
    (crimeData
       (fst (deliver (streamOf [theftRow; invalidRow; theftRow])
               (loadCrimeData true initialStore)))) =
    map (fun i => ("crime_" ++ decimal i)%string)
      (seq 1
         (List.length
            (crimeData
               (fst (deliver (streamOf [theftRow; invalidRow; theftRow])
                       (loadCrimeData true initialStore)))))) /\
  NoDup
    (map id
       (crimeData
          (fst (deliver (streamOf [theftRow; invalidRow; theftRow])
                  (loadCrimeData true initialStore))))).
Proof.
  apply (crimeData_ids_distinct
           (fst (deliver (streamOf [theftRow; invalidRow; theftRow])
                   (loadCrimeData true initialStore)))).
  apply reach_loadCrimeData, reach_initial.
Defined.

(** X21.  [getCrimesByType] does not tell upper case from lower case
    (A-Z): an empty query returns every record, a query returns what its
    lower-case form returns, and every record whose type equals the query
    up to case is returned. *)
Theorem getCrimesByType_ignores_case (store : Store) (crimeType : string) :
  getCrimesByType store EmptyString = crimeData store /\
  getCrimesByType store (toLowerCase crimeType) =
    getCrimesByType store crimeType /\
  (forall crime,
     In crime (crimeData store) ->
     toLowerCase (type crime) = toLowerCase crimeType ->
     In crime (getCrimesByType store crimeType)).
Proof.
  unfold getCrimesByType. repeat split.
  - cbn [toLowerCase]. induction (crimeData store) as [|c l IH];
      [reflexivity|].
    cbn [filter]. rewrite includes_empty, IH. reflexivity.
  - rewrite toLowerCase_idem. reflexivity.
  - intros crime Hin He. apply filter_In. split; [exact Hin|].
    rewrite He. apply includes_refl.
Qed.



(** X23.  In the statistics of [getCrimeStats] and of
    GET /api/crime-zones/stats, the counter of a label that is not the
    name of a property every object inherits is the number of records
    counted under that label, and is absent when there is none; the total
    is the number of records. *)
Theorem statistics_count_records (store : Store) (label : string) :
  inherited label = false ->
  (own (byType (getCrimeStats store)) label =
     match occurrences (crimeData store) label with
     | O => None
     | n => Some (Count n)
     end /\
   CrimeStats.total (getCrimeStats store) = List.length (crimeData store)) /\
  (own (snd (getCrimeZonesStats store)) label =
     match occurrences (getCrimeData store) label with
     | O => None
     | n => Some (Count n)
     end /\
   fst (getCrimeZonesStats store) = List.length (getCrimeData store)).
Proof.
  intros Hi.
  assert (Hp : (label =? "__proto__")%string = false).
  { destruct (String.eqb_spec label "__proto__") as [->|]; [|reflexivity].
    discriminate Hi. }
  assert (Hc : forall l,
             own (countByType l) label =
             match occurrences l label with
             | O => None
             | n => Some (Count n)
             end).
  { intros l. unfold countByType. rewrite own_countByType.
    rewrite Hp, Hi. reflexivity. }
  split; split.
  - apply Hc.
  - reflexivity.
  - unfold getCrimeZonesStats.
    destruct (getCrimeData store) as [|c l]; [reflexivity|].
    cbn [List.length Nat.eqb snd]. apply Hc.
  - unfold getCrimeZonesStats.
    destruct (getCrimeData store) as [|c l]; reflexivity.
Qed.

Lemma statistics_count_records_witness :
  (own (byType (getCrimeStats
                  {| crimeData := recordsFrom 1 [theftRow; blankRow; theftRow];
                     isDataLoaded := true |})) "Theft" =
     match occurrences (recordsFrom 1 [theftRow; blankRow; theftRow]) "Theft"
     with
     | O => None
     | n => Some (Count n)
     end /\
   CrimeStats.total
     (getCrimeStats
        {| crimeData := recordsFrom 1 [theftRow; blankRow; theftRow];
           isDataLoaded := true |}) = 3%nat) /\
  (own (snd (getCrimeZonesStats
               {| crimeData := recordsFrom 1 [theftRow; blankRow; theftRow];
                  isDataLoaded := true |})) "Theft" =
     match occurrences (recordsFrom 1 [theftRow; blankRow; theftRow]) "Theft"
     with
     | O => None
     | n => Some (Count n)
     end /\
   fst (getCrimeZonesStats
          {| crimeData := recordsFrom 1 [theftRow; blankRow; theftRow];
             isDataLoaded := true |}) = 3%nat).
Proof.
  apply (statistics_count_records
           {| crimeData := recordsFrom 1 [theftRow; blankRow; theftRow];
              isDataLoaded := true |} "Theft").
  reflexivity.
Defined.

(** X24.  Under a label that is the name of a property every object
    inherits ([constructor], [toString], ...), the statistics never hold a
    number: as soon as a record is counted under it the counter is a
    string, and under [__proto__] nothing is recorded at all. *)
Theorem statistics_inherited_label (store : Store) (label : string) :
  inherited label = true ->
  own (byType (getCrimeStats store)) label =
  if (0 <? occurrences (crimeData store) label)%nat
     && negb (label =? "__proto__")%string
  then Some Text else None.
Proof.
  intros Hi. cbn [getCrimeStats byType]. unfold countByType.
  rewrite own_countByType. rewrite Hi. cbn [own].
  destruct (occurrences (crimeData store) label); [reflexivity|].
  cbn [Nat.ltb Nat.leb andb].
  destruct (label =? "__proto__")%string; reflexivity.
Qed.

Lemma statistics_inherited_label_witness :
  own (byType
         (getCrimeStats
            {| crimeData :=
                 recordsFrom 1
                   [ {| row_latitude := Some "26.85";
                        row_longitude := Some "80.88";
                        row_type := Some "constructor" |} ];
               isDataLoaded := true |})) "constructor" =
  Some Text.
Proof.
  apply (statistics_inherited_label
           {| crimeData :=
                recordsFrom 1
                  [ {| row_latitude := Some "26.85";
                       row_longitude := Some "80.88";
                       row_type := Some "constructor" |} ];
              isDataLoaded := true |} "constructor").
  reflexivity.
Defined.

(** X25.  Once the data is loaded, GET /api/crime-zones with a type and
    without a complete proximity query returns exactly what
    [getCrimesByType] returns for that type. *)
Theorem getCrimeZones_by_type {H : Host} (store : Store) (q : Query)
  (crimeType : string) :
  isDataLoaded store = true ->
  q_type q = Some (QString crimeType) ->
  crimeType <> EmptyString ->
  supplied (q_lat q) && supplied (q_lng q) && supplied (q_radius q) = false ->
  getCrimeZones store q =
  Ok (getCrimesByType store crimeType)
     (List.length (getCrimesByType store crimeType)).
Proof.
  intros Hl Hq Ht Hs. unfold getCrimeZones, getCrimeData, getCrimesByType.
  rewrite Hl. cbn [negb].
  destruct (crimeData store) as [|c l]; [reflexivity|].
  cbn [List.length Nat.eqb].
  assert (Hf : filterType q (c :: l) =
               Normal (filter (fun crime =>
                                 includes (toLowerCase (type crime))
                                   (toLowerCase crimeType))
                         (c :: l))).
  { rewrite filterType_plain by (rewrite Hq; reflexivity). rewrite Hq.
    assert (Tt : supplied (Some (QString crimeType)) = true)
      by (destruct crimeType; [congruence | reflexivity]).
    rewrite Tt. f_equal. apply filter_ext. intros crime. unfold ofType.
    destruct (String.eqb_spec (type crime) EmptyString) as [E|];
      [|reflexivity].
    rewrite E. cbn [negb andb toLowerCase]. symmetry.
    apply includes_nothing.
    intros Hn. apply Ht, toLowerCase_empty, Hn. }
  rewrite Hf. cbn [bind]. unfold filterArea. rewrite !truthy_supplied, Hs.
  reflexivity.
Qed.

Lemma getCrimeZones_by_type_witness :
  getCrimeZones (H := SmallAngle.host)
    {| crimeData := recordsFrom 1 [theftRow; blankRow];
       isDataLoaded := true |}
    {| q_lat := None; q_lng := None; q_radius := None;
       q_type := Some (QString "THEFT") |} =
  Ok (getCrimesByType
        {| crimeData := recordsFrom 1 [theftRow; blankRow];
           isDataLoaded := true |} "THEFT")
     (List.length
        (getCrimesByType
           {| crimeData := recordsFrom 1 [theftRow; blankRow];
              isDataLoaded := true |} "THEFT")).
Proof.
  apply (getCrimeZones_by_type (H := SmallAngle.host)
           {| crimeData := recordsFrom 1 [theftRow; blankRow];
              isDataLoaded := true |}
           {| q_lat := None; q_lng := None; q_radius := None;
              q_type := Some (QString "THEFT") |} "THEFT");
    [reflexivity | reflexivity | discriminate | reflexivity].
Defined.

(** X26.  The two filters of GET /api/crime-zones commute: for a [type]
    that is absent or a single string, filtering by type and then by
    proximity keeps the records, or throws, exactly as filtering by
    proximity and then by type does. *)
Theorem getCrimeZones_filters_commute {H : Host} (q : Query)
  (crimeData : list Crime) :
  plain (q_type q) = true ->
  bind (filterType q crimeData) (filterArea q) =
  bind (filterArea q crimeData) (filterType q).
Proof.
  intros Hp. rewrite (filterType_plain q crimeData Hp). cbn [bind].
  unfold filterArea.
  destruct (truthy (q_lat q) && truthy (q_lng q) && truthy (q_radius q));
    [|cbn [bind]; symmetry; apply filterType_plain, Hp].
  destruct (parseFloatQuery (q_lat q)) as [latitude|]; [|reflexivity].
  destruct (parseFloatQuery (q_lng q)) as [longitude|]; [|reflexivity].
  destruct (parseFloatQuery (q_radius q)) as [searchRadius|];
    [|reflexivity].
  cbn [bind].
  destruct (negb (isNaN latitude) && negb (isNaN longitude)
            && negb (isNaN searchRadius));
    cbn [bind]; rewrite filterType_plain by exact Hp;
    [|reflexivity].
  f_equal. destruct (q_type q) as [[sub|items|keys]|]; try reflexivity.
  destruct (supplied (Some (QString sub))); [|reflexivity].
  apply filter_comm.
Qed.

Lemma getCrimeZones_filters_commute_witness :
  bind (filterType
          {| q_lat := Some (QString "26.85"); q_lng := Some (QString "80.88");
             q_radius := Some (QString "500");
             q_type := Some (QString "theft") |}
          (recordsFrom 1 [theftRow; blankRow]))
       (filterArea (H := SmallAngle.host)
          {| q_lat := Some (QString "26.85"); q_lng := Some (QString "80.88");
             q_radius := Some (QString "500");
             q_type := Some (QString "theft") |}) =
  bind (filterArea (H := SmallAngle.host)
          {| q_lat := Some (QString "26.85"); q_lng := Some (QString "80.88");
             q_radius := Some (QString "500");
             q_type := Some (QString "theft") |}
          (recordsFrom 1 [theftRow; blankRow]))
       (filterType
          {| q_lat := Some (QString "26.85"); q_lng := Some (QString "80.88");
             q_radius := Some (QString "500");
             q_type := Some (QString "theft") |}).
Proof.
  apply (getCrimeZones_filters_commute (H := SmallAngle.host)
           {| q_lat := Some (QString "26.85"); q_lng := Some (QString "80.88");
              q_radius := Some (QString "500");
              q_type := Some (QString "theft") |}
           (recordsFrom 1 [theftRow; blankRow])).
  reflexivity.
Defined.

(** X27.  A larger radius never loses a record: what [getCrimesInArea]
    returns within [r1] of a centre is returned within every [r2] above
    [r1]. *)
Theorem getCrimesInArea_radius_monotone {H : Host} (store : Store)
  (centerLat centerLng r1 r2 : float) :
  (r1 <=? r2) = true ->
  incl (getCrimesInArea store centerLat centerLng r1)
       (getCrimesInArea store centerLat centerLng r2).
Proof.
  intros Hr crime Hin. unfold getCrimesInArea in *.
  apply filter_In in Hin. destruct Hin as [Hin Hd].
  apply filter_In. split; [exact Hin|].
  eapply leb_trans; eassumption.
Qed.

Lemma getCrimesInArea_radius_monotone_witness :
  (500 <=? 1000) = true /\
  incl (getCrimesInArea (H := SmallAngle.host)
          {| crimeData := recordsFrom 1 [theftRow]; isDataLoaded := true |}
          26.85 80.88 500)
       (getCrimesInArea (H := SmallAngle.host)
          {| crimeData := recordsFrom 1 [theftRow]; isDataLoaded := true |}
          26.85 80.88 1000).
Proof.
  split; [reflexivity|].
  apply (getCrimesInArea_radius_monotone (H := SmallAngle.host)
           {| crimeData := recordsFrom 1 [theftRow]; isDataLoaded := true |}
           26.85 80.88 500 1000).
  reflexivity.
Defined.

(** X28.  [isWithinRadius] does not depend on which of the two points is
    taken as the centre, and a point within the geographic bounds is
    within a radius of itself exactly when the radius is at least zero. *)
Theorem isWithinRadius_symmetric {H : Host} {HS : HostSpec H} :
  (forall lat1 lng1 lat2 lng2 radius,
     isWithinRadius lat1 lng1 lat2 lng2 radius =
     isWithinRadius lat2 lng2 lat1 lng1 radius) /\
  (forall lat lng radius,
     withinGeoBounds lat lng = true ->
     isWithinRadius lat lng lat lng radius = (0 <=? radius)).
Proof.
  unfold isWithinRadius. split.
  - intros. rewrite (calculateDistance_swap lat1 lng1 lat2 lng2).
    reflexivity.
  - intros lat lng radius Hb.
    unfold withinGeoBounds, MIN_LATITUDE, MAX_LATITUDE, MIN_LONGITUDE,
      MAX_LONGITUDE in Hb.
    rewrite !andb_true_iff in Hb. destruct Hb as [[[L1 L2] G1] G2].
    rewrite calculateDistance_self by assumption. reflexivity.
Qed.

Lemma isWithinRadius_symmetric_witness :
  (forall lat1 lng1 lat2 lng2 radius,
     isWithinRadius (H := SmallAngle.host) lat1 lng1 lat2 lng2 radius =
     isWithinRadius (H := SmallAngle.host) lat2 lng2 lat1 lng1 radius) /\
  (forall lat lng radius,
     withinGeoBounds lat lng = true ->
     isWithinRadius (H := SmallAngle.host) lat lng lat lng radius =
     (0 <=? radius)).
Proof.
  exact (isWithinRadius_symmetric (HS := SmallAngle_spec)).
Defined.

End DatasetProperties.

(* ================================================================== *)
(** * Properties of the logger *)
(* ================================================================== *)

Module LoggerProperties.
Import Logger.

Lemma minLevel_cases (env : option string) :
  minLevel env =
  if (toUpperCase (level env) =? "WARN")%string then 1
  else if (toUpperCase (level env) =? "DEBUG")%string then 3
  else 2.
Proof.
  unfold minLevel, LOG_LEVELS.
  destruct (String.eqb_spec (toUpperCase (level env)) "ERROR") as [E|_];
    [rewrite E; reflexivity|].
  destruct (String.eqb_spec (toUpperCase (level env)) "WARN") as [E|_];
    [reflexivity|].
  destruct (String.eqb_spec (toUpperCase (level env)) "INFO") as [E|_];
    [rewrite E; reflexivity|].
  destruct (String.eqb_spec (toUpperCase (level env)) "DEBUG") as [E|_];
    reflexivity.
Qed.

(** X29.  Whatever [LOG_LEVEL] is set to, errors and warnings are written,
    to [console.error] and [console.warn]; in particular the level
    [ERROR], whose value 0 is falsy, is replaced by [INFO].  Information
    messages are written unless the level is [WARN] in any case of letters,
    debugging messages only when it is [DEBUG], and a request answered
    with a status of 400 or more is always reported as a warning. *)
Theorem logger_threshold (formatMessage : string -> string -> string)
  (env : option string) (message : string) :
  error formatMessage env message =
    Some (ConsoleError, formatMessage "ERROR" message) /\
  warn formatMessage env message =
    Some (ConsoleWarn, formatMessage "WARN" message) /\
  info formatMessage env message =
    (if (toUpperCase (level env) =? "WARN")%string then None
     else Some (ConsoleLog, formatMessage "INFO" message)) /\
  debug formatMessage env message =
    (if (toUpperCase (level env) =? "DEBUG")%string
     then Some (ConsoleLog, formatMessage "DEBUG" message)
     else None) /\
  (forall statusCode,
     (400 <=? statusCode) = true ->
     logRequest formatMessage env statusCode =
     Some (ConsoleWarn, formatMessage "WARN" "API Request")).
Proof.
  assert (Hw : warn formatMessage env message =
               Some (ConsoleWarn, formatMessage "WARN" message) /\
               forall m, warn formatMessage env m =
                         Some (ConsoleWarn, formatMessage "WARN" m)).
  { unfold warn, log. cbn [LOG_LEVELS String.eqb Ascii.eqb Bool.eqb].
    rewrite minLevel_cases.
    destruct (toUpperCase (level env) =? "WARN")%string;
      [split; reflexivity|].
    destruct (toUpperCase (level env) =? "DEBUG")%string; split; reflexivity. }
  repeat split.
  - unfold error, log. cbn [LOG_LEVELS String.eqb Ascii.eqb Bool.eqb].
    rewrite minLevel_cases.
    destruct (toUpperCase (level env) =? "WARN")%string; [reflexivity|].
    destruct (toUpperCase (level env) =? "DEBUG")%string; reflexivity.
  - apply Hw.
  - unfold info, log. cbn [LOG_LEVELS String.eqb Ascii.eqb Bool.eqb].
    rewrite minLevel_cases.
    destruct (toUpperCase (level env) =? "WARN")%string; [reflexivity|].
    destruct (toUpperCase (level env) =? "DEBUG")%string; reflexivity.
  - unfold debug, log. cbn [LOG_LEVELS String.eqb Ascii.eqb Bool.eqb].
    rewrite minLevel_cases.
    destruct (String.eqb_spec (toUpperCase (level env)) "WARN") as [E|_];
      [rewrite E; reflexivity|].
    destruct (toUpperCase (level env) =? "DEBUG")%string; reflexivity.
  - intros statusCode Hs. unfold logRequest. rewrite Hs. apply Hw.
Qed.

End LoggerProperties.
